(** * The staged consolidation pipeline of puffdapaz/TCC

    A shallow embedding of [src/backend.py] and of its earlier variant
    [src/maybev2v1.py]: the per-series normalisation ([silver_transform]),
    the accumulation of normalised tables ([process_data]), the
    left-anchored sequential join with its derived columns ([gold_finish])
    and the orchestration ([main]).

    Tables are pandas data frames.  A frame is a list of column labels and a
    list of rows; a cell is a Python value.  float64 values are Rocq's
    primitive binary64 floats, so every arithmetic step below is the IEEE
    operation numpy performs.  A column's dtype is read off its cells, the
    way pandas infers it when it builds a frame from values: all ints is
    int64, all floats is float64, everything else is object. *)

From Stdlib Require Import ZArith List String Ascii Bool Lia.
From Stdlib Require Import Permutation Sorted OrderedTypeEx.
From Stdlib Require Import DecimalString.
From Stdlib Require Import Floats.
Import ListNotations.

Local Open Scope string_scope.
Local Open Scope list_scope.

(** ** Python values *)

Inductive cell : Type :=
| CNone
| CStr (s : string)
| CInt (z : Z)
| CFloat (f : float)
| CTime (ns : Z).

(** The missing marker pandas writes: [numpy.nan]. *)
Definition NaN : cell := CFloat nan.

(** [pd.isnull] on one value. *)
Definition isnull (c : cell) : bool :=
  match c with
  | CNone => true
  | CFloat f => is_nan f
  | _ => false
  end.

Definition notnull (c : cell) : bool := negb (isnull c).

Definition is_CInt (c : cell) : bool :=
  match c with CInt _ => true | _ => false end.

Definition is_CFloat (c : cell) : bool :=
  match c with CFloat _ => true | _ => false end.

Definition is_CStr (c : cell) : bool :=
  match c with CStr _ => true | _ => false end.

(** Python exceptions the modelled code can meet. [ExternalError] stands for
    whatever an external collaborator raises (provider, file system,
    database, plotting). *)
Inductive exn : Type :=
| IndexError
| KeyError (label : string)
| UndefinedVariableError (label : string)
| ValueError
| TypeError
| ZeroDivisionError
| MergeError
| ExternalError (what : string).

Inductive outcome (A : Type) : Type :=
| Ret (a : A)
| Raise (e : exn).

Arguments Ret {A} a.
Arguments Raise {A} e.

Definition obind {A B : Type} (m : outcome A) (k : A -> outcome B) : outcome B :=
  match m with
  | Ret a => k a
  | Raise e => Raise e
  end.

Notation "x <-- m ;; k" := (obind m (fun x => k))
  (at level 61, m at next level, right associativity).

Fixpoint traverse {A B : Type} (f : A -> outcome B) (l : list A) : outcome (list B) :=
  match l with
  | [] => Ret []
  | a :: l' =>
      b <-- f a ;;
      bs <-- traverse f l' ;;
      Ret (b :: bs)
  end.

(** ** Numbers *)

(** [float(z)] for a Python int: the nearest binary64, ties to even. *)
Definition Z2float (z : Z) : float :=
  SF2Prim (binary_normalize prec emax z 0%Z false).

(** [numpy.rint]: round to the nearest integer, ties to even.  Below 2^52 in
    magnitude, adding and subtracting 2^52 rounds in the unit place; from
    2^52 on every binary64 is an integer already. *)
Definition two52 : float := 4503599627370496%float.

Definition rint (x : float) : float :=
  if PrimFloat.ltb (PrimFloat.abs x) two52 then
    if PrimFloat.ltb x 0%float
    then PrimFloat.add (PrimFloat.sub x two52) two52
    else PrimFloat.sub (PrimFloat.add x two52) two52
  else x.

(** [numpy.round(x, 3)] and [numpy.round(x, 2)]: scale, [rint], unscale. *)
Definition np_round (scale : float) (x : float) : float :=
  PrimFloat.div (rint (PrimFloat.mul x scale)) scale.

Definition round3 : float -> float := np_round 1000%float.
Definition round2 : float -> float := np_round 100%float.

(** The exact value of a number, for comparisons between ints and floats:
    [Fin m e] is m * 2^e. *)
Inductive xnum : Type :=
| NegInf
| Fin (m e : Z)
| PosInf.

Definition xnum_of_float (f : float) : option xnum :=
  match Prim2SF f with
  | S754_zero _ => Some (Fin 0 0)
  | S754_infinity s => Some (if s then NegInf else PosInf)
  | S754_nan => None
  | S754_finite s m e => Some (Fin (if s then Z.neg m else Z.pos m) e)
  end.

Definition xnum_compare (a b : xnum) : comparison :=
  match a, b with
  | NegInf, NegInf => Eq
  | NegInf, _ => Lt
  | _, NegInf => Gt
  | PosInf, PosInf => Eq
  | PosInf, _ => Gt
  | _, PosInf => Lt
  | Fin m1 e1, Fin m2 e2 =>
      let e := Z.min e1 e2 in
      Z.compare (m1 * 2 ^ (e1 - e)) (m2 * 2 ^ (e2 - e))
  end.

Definition xnum_of_cell (c : cell) : option xnum :=
  match c with
  | CInt z => Some (Fin z 0)
  | CFloat f => xnum_of_float f
  | _ => None
  end.

(** ** Data frames *)

Record DataFrame : Type := mkDF {
  columns : list string;
  rows : list (list cell)
}.

Fixpoint index_of (c : string) (cols : list string) : option nat :=
  match cols with
  | [] => None
  | c' :: cols' =>
      if String.eqb c c' then Some 0%nat
      else option_map S (index_of c cols')
  end.

Definition has_col (c : string) (cols : list string) : bool :=
  existsb (String.eqb c) cols.

Fixpoint has_dup (cols : list string) : bool :=
  match cols with
  | [] => false
  | c :: cols' => has_col c cols' || has_dup cols'
  end.

Definition at_ (i : nat) (r : list cell) : cell := nth i r NaN.

Fixpoint remove_at {A : Type} (i : nat) (l : list A) : list A :=
  match l, i with
  | [], _ => []
  | _ :: l', O => l'
  | a :: l', S i' => a :: remove_at i' l'
  end.

Fixpoint put_at {A : Type} (i : nat) (a : A) (l : list A) : list A :=
  match l, i with
  | [], _ => []
  | _ :: l', O => a :: l'
  | b :: l', S i' => b :: put_at i' a l'
  end.

(** [df[c]]: the cells of column [c]. *)
Definition column (c : string) (df : DataFrame) : outcome (list cell) :=
  match index_of c (columns df) with
  | Some i => Ret (map (at_ i) (rows df))
  | None => Raise (KeyError c)
  end.

(** [df[c] = values]: an existing column is overwritten in place, a new one
    is appended on the right. *)
Definition set_column (c : string) (vals : list cell) (df : DataFrame) : DataFrame :=
  match index_of c (columns df) with
  | Some i =>
      mkDF (columns df)
           (map (fun rv => put_at i (snd rv) (fst rv)) (combine (rows df) vals))
  | None =>
      mkDF (columns df ++ [c])
           (map (fun rv => fst rv ++ [snd rv]) (combine (rows df) vals))
  end.

(** ** What lies outside the repository

    The Python conversions between text and numbers, the data provider, the
    file system, the database and the reporting calls are external.  Each is
    a field of the environment a run executes in; a failing call is the
    exception it raises. *)

(** The three provider calls of [bronze_fetch]. *)
Inductive request : Type :=
| RBridge (r_code : option string)
| Territories
| TimeSeries (series : option string) (year : option Z).

Record Env : Type := mkEnv {
  (** [float(s)], [int(s)]: [None] is Python's ValueError. *)
  py_float_of_str : string -> option float;
  py_int_of_str : string -> option Z;
  (** [str(x)] of a float that is not NaN, and of a timestamp. *)
  py_str_of_float : float -> string;
  py_str_of_time : Z -> string;
  (** [os.makedirs] over the four layer folders. *)
  makedirs : option exn;
  (** A provider call of [bronze_fetch] with the conversion to a frame that
      follows it (for the R bridge, its day-offset dates made timestamps). *)
  provider : request -> outcome DataFrame;
  (** [to_parquet] / [to_csv] into a layer folder: folder, filename, table. *)
  persist : string -> string -> DataFrame -> option exn;
  (** [describe], its print and its write (and the charts of the variant). *)
  report : DataFrame -> option exn;
  (** The DuckDB connection and its CREATE TABLE. *)
  duckdb : DataFrame -> option exn;
  (** Everything [main] runs after [gold_finish]: the regression report, the
      database read-back, the boundary fetch and the geospatial merge. *)
  downstream : option DataFrame -> option exn
}.

Definition guard (o : option exn) : outcome unit :=
  match o with
  | None => Ret tt
  | Some e => Raise e
  end.

(** ** pandas operations *)

Definition str_of_Z (z : Z) : string := NilZero.string_of_int (Z.to_int z).

(** [str(v)], as [Series.astype(str)] applies it to each value. *)
Definition py_str (env : Env) (c : cell) : string :=
  match c with
  | CNone => "None"
  | CStr s => s
  | CInt z => str_of_Z z
  | CFloat f => if is_nan f then "nan" else py_str_of_float env f
  | CTime ns => py_str_of_time env ns
  end.

Definition astype_str (env : Env) (c : cell) : cell := CStr (py_str env c).

(** [float(v)], as [Series.astype(float)] applies it to each value. *)
Definition astype_float (env : Env) (c : cell) : outcome cell :=
  match c with
  | CNone => Ret NaN
  | CStr s =>
      match py_float_of_str env s with
      | Some f => Ret (CFloat f)
      | None => Raise ValueError
      end
  | CInt z => Ret (CFloat (Z2float z))
  | CFloat f => Ret (CFloat f)
  | CTime _ => Raise TypeError
  end.

(** [pd.to_numeric(errors='coerce')] on one value: numbers stay, text is
    parsed, what cannot be parsed becomes NaN. *)
Definition to_numeric_coerce (env : Env) (c : cell) : cell :=
  match c with
  | CInt z => CInt z
  | CFloat f => CFloat f
  | CStr s =>
      match py_float_of_str env s with
      | Some f => CFloat f
      | None => NaN
      end
  | _ => NaN
  end.

(** Truncation of a finite float towards zero: [int(x)]. *)
Definition float_to_Z (f : float) : option Z :=
  match Prim2SF f with
  | S754_zero _ => Some 0%Z
  | S754_finite s m e =>
      let a := (if (0 <=? e)%Z then Z.pos m * 2 ^ e else Z.pos m / 2 ^ (- e))%Z in
      Some (if s then (- a)%Z else a)
  | _ => None
  end.

(** [int(v)], as [Series.astype(int)] applies it to each value. *)
Definition astype_int (env : Env) (c : cell) : outcome cell :=
  match c with
  | CInt z => Ret (CInt z)
  | CFloat f =>
      match float_to_Z f with
      | Some z => Ret (CInt z)
      | None => Raise ValueError
      end
  | CStr s =>
      match py_int_of_str env s with
      | Some z => Ret (CInt z)
      | None => Raise ValueError
      end
  | _ => Raise TypeError
  end.

(** [Series.astype(t, errors='ignore')]: the converted column, or the
    original column when any value fails to convert. *)
Definition astype_ignore (conv : cell -> outcome cell) (vals : list cell) : list cell :=
  match traverse conv vals with
  | Ret vals' => vals'
  | Raise _ => vals
  end.

(** [df.query("c == v")] for a string literal [v]. *)
Definition eq_str (v : string) (c : cell) : bool :=
  match c with
  | CStr s => String.eqb s v
  | _ => false
  end.

Definition eq_time (ns : Z) (c : cell) : bool :=
  match c with
  | CTime t => Z.eqb t ns
  | _ => false
  end.

Definition query (c : string) (p : cell -> bool) (df : DataFrame) : outcome DataFrame :=
  match index_of c (columns df) with
  | Some i => Ret (mkDF (columns df) (filter (fun r => p (at_ i r)) (rows df)))
  | None => Raise (UndefinedVariableError c)
  end.

(** [df.drop(columns = cs)]: every label must exist. *)
Definition drop1 (c : string) (df : DataFrame) : outcome DataFrame :=
  match index_of c (columns df) with
  | Some i => Ret (mkDF (remove_at i (columns df)) (map (remove_at i) (rows df)))
  | None => Raise (KeyError c)
  end.

Definition drop (cs : list string) (df : DataFrame) : outcome DataFrame :=
  match find (fun c => negb (has_col c (columns df))) cs with
  | Some c => Raise (KeyError c)
  | None => fold_left (fun acc c => d <-- acc ;; drop1 c d) cs (Ret df)
  end.

(** [df.rename(columns = m)]: labels missing from the frame are ignored. *)
Fixpoint assoc (c : string) (m : list (string * string)) : option string :=
  match m with
  | [] => None
  | (a, b) :: m' => if String.eqb c a then Some b else assoc c m'
  end.

Definition rename (m : list (string * string)) (df : DataFrame) : DataFrame :=
  mkDF (map (fun c => match assoc c m with Some c' => c' | None => c end) (columns df))
       (rows df).

(** [df.dropna()]: rows holding a null in any column go. *)
Definition dropna (df : DataFrame) : DataFrame :=
  mkDF (columns df) (filter (forallb notnull) (rows df)).

(** [df[c] = f(df[c])], value by value; the first failing value raises. *)
Definition map_column (c : string) (f : cell -> outcome cell) (df : DataFrame)
  : outcome DataFrame :=
  col <-- column c df ;;
  vals <-- traverse f col ;;
  Ret (set_column c vals df).

(** An arithmetic step on a float64 column. *)
Definition on_float (g : float -> float) (c : cell) : outcome cell :=
  match c with
  | CFloat f => Ret (CFloat (g f))
  | CInt z => Ret (CFloat (g (Z2float z)))
  | CNone => Ret NaN
  | _ => Raise TypeError
  end.

(** *** merge(how = 'left', on = key)

    As [gold_finish] calls it: the right key column has just been through
    [astype(str)], so it holds strings.  pandas refuses to join a numeric or
    datetime key with a string key; it suffixes clashing labels with _x and
    _y and refuses the duplicates that suffixing creates; an int64 column of
    the right table that receives a NaN becomes float64. *)

Definition key_eqb (a b : cell) : bool :=
  match a, b with
  | CStr s, CStr t => String.eqb s t
  | CTime s, CTime t => Z.eqb s t
  | CNone, CNone => true
  | _, _ =>
      match xnum_of_cell a, xnum_of_cell b with
      | Some x, Some y => match xnum_compare x y with Eq => true | _ => false end
      | _, _ => isnull a && isnull b
      end
  end.

Definition object_dtype (cs : list cell) : bool :=
  negb (forallb is_CInt cs || forallb is_CFloat cs
        || forallb (fun c => match c with CTime _ => true | _ => false end) cs).

Definition keys_refused (lk rk : list cell) : bool :=
  match lk, rk with
  | [], _ | _, [] => false
  | _, _ => negb (object_dtype lk)
  end.

Definition suffixed (on : string) (others : list string) (sfx : string) (c : string) : string :=
  if negb (String.eqb c on) && has_col c others then c ++ sfx else c.

(** A label that suffixing made collide with an earlier one, where the
    original labels did not collide. *)
Fixpoint new_dups (seen seen' orig renamed : list string) : bool :=
  match orig, renamed with
  | c :: orig', c' :: renamed' =>
      has_col c' seen' && negb (has_col c seen)
      || new_dups (c :: seen) (c' :: seen') orig' renamed'
  | _, _ => false
  end.

Definition upcast (flag_cell : bool * cell) : cell :=
  match flag_cell with
  | (true, CInt z) => CFloat (Z2float z)
  | (_, c) => c
  end.

Definition int_columns (width : nat) (rs : list (list cell)) : list bool :=
  map (fun k => forallb (fun r => is_CInt (at_ k r)) rs) (seq 0 width).

Definition matches (i j : nat) (lrow : list cell) (rrows : list (list cell))
  : list (list cell) :=
  filter (fun rrow => key_eqb (at_ i lrow) (at_ j rrow)) rrows.

Definition merge_left (on : string) (l r : DataFrame) : outcome DataFrame :=
  match index_of on (columns l), index_of on (columns r) with
  | Some i, Some j =>
      if keys_refused (map (at_ i) (rows l)) (map (at_ j) (rows r))
      then Raise ValueError
      else
        let rcols := remove_at j (columns r) in
        let lcols' := map (suffixed on rcols "_x") (columns l) in
        let rcols' := map (suffixed on (columns l) "_y") rcols in
        if new_dups [] [] (columns l) lcols' || new_dups [] [] rcols rcols'
        then Raise MergeError
        else
          let unmatched :=
            existsb (fun lrow => match matches i j lrow (rows r) with
                                 | [] => true | _ => false end) (rows l) in
          let flags :=
            if unmatched
            then int_columns (List.length rcols) (map (remove_at j) (rows r))
            else repeat false (List.length rcols) in
          let ext rrow := map upcast (combine flags (remove_at j rrow)) in
          Ret (mkDF (lcols' ++ rcols')
                 (flat_map
                    (fun lrow =>
                       match matches i j lrow (rows r) with
                       | [] => [lrow ++ repeat NaN (List.length rcols)]
                       | ms => map (fun rrow => lrow ++ ext rrow) ms
                       end)
                    (rows l)))
  | _, _ => Raise (KeyError on)
  end.

(** *** reindex(columns = labels)

    Labels the frame lacks become all-NaN columns; a frame with duplicate
    labels cannot be reindexed. *)
Definition lookup (cols : list string) (r : list cell) (c : string) : cell :=
  match index_of c cols with
  | Some i => at_ i r
  | None => NaN
  end.

Definition reindex (labels : list string) (df : DataFrame) : outcome DataFrame :=
  if has_dup (columns df) then Raise ValueError
  else Ret (mkDF labels (map (fun r => map (lookup (columns df) r) labels) (rows df))).

(** *** sort_values(by = key)

    Ascending, nulls last.  Text compares by code point, numbers by value;
    text against a number is Python's TypeError.  The order of rows with
    equal keys is that of a stable sort. *)
Definition key_class (c : cell) : nat :=
  match c with
  | CStr _ => 1
  | CInt _ | CFloat _ => 2
  | CTime _ => 3
  | CNone => 0
  end.

Definition sortable (ks : list cell) : bool :=
  match filter notnull ks with
  | [] => true
  | k :: ks' => forallb (fun k' => Nat.eqb (key_class k') (key_class k)) ks'
  end.

Definition key_leb (a b : cell) : bool :=
  if isnull b then true
  else if isnull a then false
  else match a, b with
       | CStr s, CStr t => String.leb s t
       | CTime s, CTime t => Z.leb s t
       | _, _ =>
           match xnum_of_cell a, xnum_of_cell b with
           | Some x, Some y => match xnum_compare x y with Gt => false | _ => true end
           | _, _ => true
           end
       end.

Fixpoint insert_by {A : Type} (leb : A -> A -> bool) (a : A) (l : list A) : list A :=
  match l with
  | [] => [a]
  | b :: l' => if leb a b then a :: l else b :: insert_by leb a l'
  end.

Fixpoint isort {A : Type} (leb : A -> A -> bool) (l : list A) : list A :=
  match l with
  | [] => []
  | a :: l' => insert_by leb a (isort leb l')
  end.

Definition sort_values (by_ : string) (df : DataFrame) : outcome DataFrame :=
  match index_of by_ (columns df) with
  | Some i =>
      if sortable (map (at_ i) (rows df))
      then Ret (mkDF (columns df)
                  (isort (fun a b => key_leb (at_ i a) (at_ i b)) (rows df)))
      else Raise TypeError
  | None => Raise (KeyError by_)
  end.

(** *** Series.div(other, fill_value = 0)

    A null on exactly one side is replaced by 0 before dividing; null on
    both sides stays null.  Between two numeric columns the quotient is the
    IEEE one (a zero divisor gives an infinity or NaN); as soon as one
    column is of object dtype the values are divided as Python objects, and
    a zero divisor raises. *)
Definition numeric_dtype (cs : list cell) : bool :=
  forallb is_CInt cs || forallb is_CFloat cs.

Definition as_float (c : cell) : outcome float :=
  match c with
  | CInt z => Ret (Z2float z)
  | CFloat f => Ret f
  | _ => Raise TypeError
  end.

Definition div_fill0 (ieee : bool) (a b : cell) : outcome cell :=
  if isnull a && isnull b then Ret NaN
  else
    x <-- as_float (if isnull a then CInt 0 else a) ;;
    y <-- as_float (if isnull b then CInt 0 else b) ;;
    if negb ieee && PrimFloat.eqb y 0%float then Raise ZeroDivisionError
    else Ret (CFloat (PrimFloat.div x y)).

Definition series_div_fill0 (a b : list cell) : outcome (list cell) :=
  let ieee := numeric_dtype a && numeric_dtype b in
  traverse (fun ab => div_fill0 ieee (fst ab) (snd ab)) (combine a b).

(** [s != 0], value by value. *)
Definition ne_zero (c : cell) : bool :=
  match c with
  | CInt z => negb (z =? 0)%Z
  | CFloat f => negb (PrimFloat.eqb f 0%float)
  | _ => true
  end.

(** ** The processor's state and its effects *)

Inductive level : Type := INFO | ERROR.

Record log_entry : Type := mkLog {
  lvl : level;
  msg : string;
  subject : string;
  cause : option exn
}.

Record state : Type := mkState {
  join_list : list DataFrame;
  log : list log_entry;
  stored : list (string * string * DataFrame)
}.

Record Config : Type := mkConfig {
  bronze_folder : string;
  silver_folder : string;
  gold_folder : string;
  analysis_folder : string
}.

Definition M (A : Type) : Type := state -> outcome A * state.

Definition ret {A : Type} (a : A) : M A := fun s => (Ret a, s).

Definition bind {A B : Type} (m : M A) (k : A -> M B) : M B :=
  fun s =>
    match m s with
    | (Ret a, s') => k a s'
    | (Raise e, s') => (Raise e, s')
    end.

Notation "x <~ m ;; k" := (bind m (fun x => k))
  (at level 61, m at next level, right associativity).

Definition lift {A : Type} (o : outcome A) : M A := fun s => (o, s).

(** [try: body except Exception as e: handler(e)]: what the body did to the
    state before it raised stays done. *)
Definition try_except {A : Type} (body : M A) (handler : exn -> M A) : M A :=
  fun s =>
    match body s with
    | (Ret a, s') => (Ret a, s')
    | (Raise e, s') => handler e s'
    end.

Definition logging (l : level) (m subj : string) (c : option exn) : M unit :=
  fun s => (Ret tt, mkState (join_list s) (log s ++ [mkLog l m subj c]) (stored s)).

Definition get_join_list : M (list DataFrame) := fun s => (Ret (join_list s), s).

Definition set_join_list (jl : list DataFrame) : M unit :=
  fun s => (Ret tt, mkState jl (log s) (stored s)).

Definition write_store (env : Env) (folder filename : string) (df : DataFrame) : M unit :=
  fun s =>
    match persist env folder filename df with
    | Some e => (Raise e, s)
    | None => (Ret tt, mkState (join_list s) (log s) (stored s ++ [(folder, filename, df)]))
    end.

(** [sub in s] on Python strings. *)
Fixpoint contains (sub s : string) : bool :=
  if String.prefix sub s then true
  else match s with
       | EmptyString => false
       | String _ s' => contains sub s'
       end.

(** ** Labels *)

Definition CodMunIBGE : string := "CodMunIBGE".
Definition Municipio : string := "Município".
Definition Habitantes : string := "Habitantes 2010".
Definition IDHM : string := "IDHM 2010".
Definition Receitas : string := "Receitas Correntes 2010 (R$)".
Definition PIB : string := "PIB 2010 (R$)".
Definition Carga : string := "Carga Tributária Municipal 2010".
Definition data_status : string := "data_status".
Definition raw_PIB : string := "VALUE (R$ (mil), a preços do ano 2010)".

Definition order_set : list string :=
  [CodMunIBGE; Municipio; Habitantes; IDHM; Receitas; PIB; Carga].

(** Timestamp('2010-01-01') in nanoseconds since the epoch. *)
Definition date_2010 : Z := 1262304000000000000.

(** The loop of [gold_finish]: each later table has its code column made
    text, in place, and is left-joined onto the running table.  The first
    component is the later tables as the loop leaves them in the
    accumulator. *)
Definition coerce_key (env : Env) (t : DataFrame) : outcome DataFrame :=
  map_column CodMunIBGE (fun c => Ret (astype_str env c)) t.

Fixpoint join_loop (env : Env) (df : DataFrame) (todo : list DataFrame)
  : list DataFrame * outcome DataFrame :=
  match todo with
  | [] => ([], Ret df)
  | t :: rest =>
      match coerce_key env t with
      | Raise e => (t :: rest, Raise e)
      | Ret t' =>
          match merge_left CodMunIBGE df t' with
          | Raise e => (t' :: rest, Raise e)
          | Ret df' =>
              let (rest', r) := join_loop env df' rest in
              (t' :: rest', r)
          end
      end
  end.

(** [df[Carga] = df[Receitas].div(df[PIB], fill_value = 0).astype(float)];
    the quotients are floats already. *)
Definition tax_burden (df : DataFrame) : outcome DataFrame :=
  rev <-- column Receitas df ;;
  gdp <-- column PIB df ;;
  q <-- series_div_fill0 rev gdp ;;
  Ret (set_column Carga q df).

(** ** src/backend.py *)

Module Backend.

Section Processor.

Variable env : Env.
Variable cfg : Config.

Definition saving_step (df : DataFrame) (folder filename : string) : M unit :=
  _ <~ write_store env folder filename df ;;
  logging INFO "Saved file" filename None.

Definition create_folders : M unit :=
  _ <~ lift (guard (makedirs env)) ;;
  logging INFO "Created folders" "" None.

Definition bronze_fetch (series : option string) (year : option Z)
    (filename : string) (r_code : option string) : M (option DataFrame) :=
  try_except
    (raw_data <~ lift (provider env
                   (if String.eqb filename "IDHM_2010.parquet" then RBridge r_code
                    else match series with
                         | Some "Municípios" => Territories
                         | _ => TimeSeries series year
                         end)) ;;
     _ <~ saving_step raw_data (bronze_folder cfg) filename ;;
     _ <~ logging INFO "Bronze fetching" filename None ;;
     ret (Some raw_data))
    (fun e =>
       _ <~ logging ERROR "Error fetching data for" filename (Some e) ;;
       ret None).

(** The recipes of [silver_transform], one per artifact. *)
Definition transform_idhm (df : DataFrame) : outcome DataFrame :=
  match index_of "uname" (columns df), index_of "date" (columns df) with
  | Some i, Some j =>
      d <-- drop ["code"; "uname"; "date"]
              (mkDF (columns df)
                 (filter (fun r => eq_str "Municipality" (at_ i r)
                                   && eq_time date_2010 (at_ j r)) (rows df))) ;;
      Ret (rename [("tcode", CodMunIBGE); ("value", IDHM)] d)
  | None, _ => Raise (UndefinedVariableError "uname")
  | _, None => Raise (UndefinedVariableError "date")
  end.

Definition transform_municipios (df : DataFrame) : outcome DataFrame :=
  q <-- query "LEVEL" (eq_str "Municípios") df ;;
  d <-- drop ["LEVEL"; "AREA"; "CAPITAL"] q ;;
  Ret (rename [("NAME", Municipio); ("ID", CodMunIBGE)] d).

Definition transform_pib (df : DataFrame) : outcome DataFrame :=
  d1 <-- map_column raw_PIB
           (fun c => v <-- astype_float env c ;;
                     on_float (fun f => PrimFloat.mul f 1000%float) v) df ;;
  d2 <-- map_column raw_PIB (on_float round3) d1 ;;
  let d3 := rename [("TERCODIGO", CodMunIBGE); (raw_PIB, PIB)] d2 in
  map_column PIB (fun c => Ret (to_numeric_coerce env c)) d3.

Definition transform_reccorr (df : DataFrame) : outcome DataFrame :=
  d1 <-- map_column "VALUE (R$)"
           (fun c => v <-- astype_float env c ;; on_float round2 v) df ;;
  let d2 := rename [("TERCODIGO", CodMunIBGE); ("VALUE (R$)", Receitas)] d1 in
  map_column Receitas (fun c => Ret (to_numeric_coerce env c)) d2.

Definition transform_populacao (df : DataFrame) : outcome DataFrame :=
  let d1 := rename [("TERCODIGO", CodMunIBGE); ("VALUE (Habitante)", Habitantes)] df in
  hab <-- column Habitantes d1 ;;
  cod <-- column CodMunIBGE d1 ;;
  Ret (set_column CodMunIBGE (map (astype_str env) cod)
         (set_column Habitantes (astype_ignore (astype_int env) hab) d1)).

Definition transform (transf_df : DataFrame) (filename : string) : outcome DataFrame :=
  if contains "IDHM_2010.parquet" filename then transform_idhm transf_df
  else if String.eqb filename "Municípios.parquet" then transform_municipios transf_df
  else
    q <-- query "NIVNOME" (eq_str "Municípios") transf_df ;;
    d <-- drop ["CODE"; "RAW DATE"; "YEAR"; "NIVNOME"] q ;;
    if contains "PIB_2010.parquet" filename then transform_pib d
    else if contains "RecCorr_2010.parquet" filename then transform_reccorr d
    else if contains "População_2010.parquet" filename then transform_populacao d
    else Ret d.

Definition silver_transform (transf_df : DataFrame) (filename : string)
  : M (option DataFrame) :=
  try_except
    (d <~ lift (transform transf_df filename) ;;
     _ <~ saving_step d (silver_folder cfg) filename ;;
     _ <~ logging INFO "Silver transforming" filename None ;;
     ret (Some d))
    (fun e =>
       _ <~ logging ERROR "Error transforming data for" filename (Some e) ;;
       ret None).

(** [np.where(present(IDHM) & present(PIB) & present(Receitas), 'complete',
    'incomplete')], where present is non-null and not 0. *)
Definition present (c : cell) : bool := notnull c && ne_zero c.

Definition status_of (idhm gdp rev : cell) : cell :=
  if present idhm && present gdp && present rev
  then CStr "complete" else CStr "incomplete".

Definition add_status (df : DataFrame) : outcome DataFrame :=
  idhm <-- column IDHM df ;;
  gdp <-- column PIB df ;;
  rev <-- column Receitas df ;;
  Ret (set_column data_status
         (map (fun x => status_of (fst (fst x)) (snd (fst x)) (snd x))
              (combine (combine idhm gdp) rev))
         df).

(** Lines 211-220: what [gold_finish] makes of the joined table. *)
Definition derive (joined : DataFrame) : outcome DataFrame :=
  d1 <-- reindex order_set joined ;;
  d2 <-- sort_values CodMunIBGE d1 ;;
  d3 <-- tax_burden d2 ;;
  add_status d3.

(** Lines 198-220: the accumulator as the loop leaves it, and the unified
    table or the exception met on the way. *)
Definition unify (jl : list DataFrame) : list DataFrame * outcome DataFrame :=
  match jl with
  | [] => ([], Raise IndexError)
  | anchor :: later =>
      let (later', joined) := join_loop env anchor later in
      (anchor :: later', d <-- joined ;; derive d)
  end.

Definition gold_finish (filename : string) : M (option DataFrame) :=
  try_except
    (jl <~ get_join_list ;;
     let (jl', r) := unify jl in
     _ <~ set_join_list jl' ;;
     df <~ lift r ;;
     _ <~ lift (guard (report env df)) ;;
     _ <~ saving_step df (gold_folder cfg) filename ;;
     _ <~ lift (guard (duckdb env df)) ;;
     _ <~ logging INFO "Gold finishing" filename None ;;
     ret (Some df))
    (fun e =>
       _ <~ logging ERROR "Error finalizing data for" filename (Some e) ;;
       ret None).

Definition process_data (series : option string) (year : option Z)
    (filename : string) (r_code : option string) : M unit :=
  bronze_df <~ bronze_fetch series year filename r_code ;;
  _ <~ match bronze_df with
       | Some b =>
           silver_df <~ silver_transform b filename ;;
           match silver_df with
           | Some t => fun s =>
               (Ret tt, mkState (join_list s ++ [t]) (log s) (stored s))
           | None => ret tt
           end
       | None => ret tt
       end ;;
  logging INFO "Processing data" filename None.

Definition data_series : list (option string * option Z * string) :=
  [(Some "PIB_IBGE_5938_37", Some 2010%Z, "PIB_2010.parquet");
   (Some "RECORRM", Some 2010%Z, "RecCorr_2010.parquet");
   (Some "POPTOT", Some 2010%Z, "População_2010.parquet");
   (Some "Municípios", None, "Municípios.parquet")].

Definition r_code : string := "ipeadatar::ipeadata(code = 'ADH_IDHM')".

Fixpoint for_each (l : list (option string * option Z * string)) : M unit :=
  match l with
  | [] => ret tt
  | (series, year, filename) :: l' =>
      _ <~ process_data series year filename None ;;
      _ <~ logging INFO "Processed data for" filename None ;;
      for_each l'
  end.

Definition attempts : M unit :=
  _ <~ create_folders ;;
  _ <~ for_each data_series ;;
  process_data None None "IDHM_2010.parquet" (Some r_code).

Definition main : M unit :=
  _ <~ attempts ;;
  jl <~ get_join_list ;;
  match jl with
  | [] => ret tt
  | _ :: _ =>
      df <~ gold_finish "DescriptiveData.parquet" ;;
      lift (guard (downstream env df))
  end.

End Processor.

End Backend.

(** ** src/maybev2v1.py

    The earlier variant: CSV artifacts, error-only logging, a current-revenue
    recipe without rounding, rounding before rescaling in the GDP recipe, and
    a [gold_finish] that drops rows with nulls, derives no completeness flag
    and has no exception handler. *)

Module MaybeV2V1.

Section Processor.

Variable env : Env.
Variable cfg : Config.

Definition saving_step (data : DataFrame) (folder filename : string) : M unit :=
  write_store env folder filename data.

Definition create_folders : M unit := lift (guard (makedirs env)).

Definition bronze_fetch (series : option string) (year : option Z)
    (filename : string) (r_code : option string) : M (option DataFrame) :=
  try_except
    (raw_data <~ lift (provider env
                   (if String.eqb filename "IDHM_2010.csv" then RBridge r_code
                    else match series with
                         | Some "Municípios" => Territories
                         | _ => TimeSeries series year
                         end)) ;;
     _ <~ saving_step raw_data (bronze_folder cfg) filename ;;
     ret (Some raw_data))
    (fun e =>
       _ <~ logging ERROR "Error fetching data for" filename (Some e) ;;
       ret None).

(** [date == "2010-01-01"]: a timestamp column is compared as a date, a text
    column as text. *)
Definition eq_date_text (c : cell) : bool :=
  eq_time date_2010 c || eq_str "2010-01-01" c.

Definition transform_idhm (df : DataFrame) : outcome DataFrame :=
  match index_of "uname" (columns df), index_of "date" (columns df) with
  | Some i, Some j =>
      d <-- drop ["code"; "uname"; "date"]
              (mkDF (columns df)
                 (filter (fun r => eq_str "Municipality" (at_ i r)
                                   && eq_date_text (at_ j r)) (rows df))) ;;
      Ret (rename [("tcode", CodMunIBGE); ("value", IDHM)] d)
  | None, _ => Raise (UndefinedVariableError "uname")
  | _, None => Raise (UndefinedVariableError "date")
  end.

Definition transform_municipios (df : DataFrame) : outcome DataFrame :=
  q <-- query "LEVEL" (eq_str "Municípios") df ;;
  d <-- drop ["LEVEL"; "AREA"; "CAPITAL"] q ;;
  Ret (rename [("NAME", Municipio); ("ID", CodMunIBGE)] d).

Definition transform_pib (df : DataFrame) : outcome DataFrame :=
  d1 <-- map_column raw_PIB
           (fun c => v <-- astype_float env c ;;
                     w <-- on_float round3 v ;;
                     on_float (fun f => PrimFloat.mul f 1000%float) w) df ;;
  let d2 := rename [("TERCODIGO", CodMunIBGE); (raw_PIB, PIB)] d1 in
  map_column PIB (fun c => Ret (to_numeric_coerce env c)) d2.

Definition transform_arrecadacao (df : DataFrame) : outcome DataFrame :=
  let d1 := rename [("TERCODIGO", CodMunIBGE); ("VALUE (R$)", Receitas)] df in
  map_column Receitas (fun c => Ret (to_numeric_coerce env c)) d1.

Definition transform_populacao (df : DataFrame) : outcome DataFrame :=
  let d1 := rename [("TERCODIGO", CodMunIBGE); ("VALUE (Habitante)", Habitantes)] df in
  hab <-- column Habitantes d1 ;;
  cod <-- column CodMunIBGE d1 ;;
  Ret (set_column CodMunIBGE (map (astype_str env) cod)
         (set_column Habitantes (astype_ignore (astype_int env) hab) d1)).

Definition transform (df : DataFrame) (filename : string) : outcome DataFrame :=
  if contains "IDHM_2010.csv" filename then transform_idhm df
  else if String.eqb filename "Municípios.csv" then transform_municipios df
  else
    q <-- query "NIVNOME" (eq_str "Municípios") df ;;
    d <-- drop ["CODE"; "RAW DATE"; "YEAR"; "NIVNOME"] q ;;
    if contains "PIB_2010.csv" filename then transform_pib d
    else if contains "Arrecadação_2010.csv" filename then transform_arrecadacao d
    else if contains "População_2010.csv" filename then transform_populacao d
    else Ret d.

Definition silver_transform (df : DataFrame) (filename : string)
  : M (option DataFrame) :=
  try_except
    (d <~ lift (transform df filename) ;;
     _ <~ saving_step d (silver_folder cfg) filename ;;
     ret (Some d))
    (fun e =>
       _ <~ logging ERROR "Error transforming data for" filename (Some e) ;;
       ret None).

(** Lines 181-185: what [gold_finish] makes of the joined table. *)
Definition derive (dropped : DataFrame) : outcome DataFrame :=
  d1 <-- reindex order_set dropped ;;
  d2 <-- sort_values CodMunIBGE d1 ;;
  tax_burden d2.

(** Lines 168-185.  [dropna(inplace = True)] acts on the joined table; with
    a single accumulated table that is the accumulated table itself. *)
Definition unify (jl : list DataFrame) : list DataFrame * outcome DataFrame :=
  match jl with
  | [] => ([], Raise IndexError)
  | anchor :: later =>
      let (later', joined) := join_loop env anchor later in
      match joined with
      | Raise e => (anchor :: later', Raise e)
      | Ret merged_df =>
          (match later with
           | [] => [dropna merged_df]
           | _ :: _ => anchor :: later'
           end,
           derive (dropna merged_df))
      end
  end.

Definition gold_finish (filename : string) : M DataFrame :=
  jl <~ get_join_list ;;
  let (jl', r) := unify jl in
  _ <~ set_join_list jl' ;;
  merged_df <~ lift r ;;
  _ <~ lift (guard (report env merged_df)) ;;
  _ <~ saving_step merged_df (gold_folder cfg) filename ;;
  ret merged_df.

Definition process_data (series : option string) (year : option Z)
    (filename : string) (r_code : option string) : M unit :=
  bronze_df <~ bronze_fetch series year filename r_code ;;
  match bronze_df with
  | Some b =>
      silver_df <~ silver_transform b filename ;;
      match silver_df with
      | Some t => fun s =>
          (Ret tt, mkState (join_list s ++ [t]) (log s) (stored s))
      | None => ret tt
      end
  | None => ret tt
  end.

Definition data_series : list (option string * option Z * string) :=
  [(Some "PIB_IBGE_5938_37", Some 2010%Z, "PIB_2010.csv");
   (Some "RECORRM", Some 2010%Z, "Arrecadação_2010.csv");
   (Some "POPTOT", Some 2010%Z, "População_2010.csv");
   (Some "Municípios", None, "Municípios.csv")].

Fixpoint for_each (l : list (option string * option Z * string)) : M unit :=
  match l with
  | [] => ret tt
  | (series, year, filename) :: l' =>
      _ <~ process_data series year filename None ;;
      for_each l'
  end.

Definition attempts : M unit :=
  _ <~ create_folders ;;
  _ <~ for_each data_series ;;
  process_data None None "IDHM_2010.csv" (Some Backend.r_code).

Definition main : M unit :=
  _ <~ attempts ;;
  jl <~ get_join_list ;;
  match jl with
  | [] => ret tt
  | _ :: _ =>
      _ <~ gold_finish "CleanData.csv" ;;
      ret tt
  end.

End Processor.

End MaybeV2V1.

(** ** Well-formed frames and sample runs *)

(** Every row has one cell per label, and no label occurs twice. *)
Definition rectangular (df : DataFrame) : Prop :=
  Forall (fun r => List.length r = List.length (columns df)) (rows df).

Definition wf_frame (df : DataFrame) : Prop :=
  rectangular df /\ has_dup (columns df) = false.

(** The code column of a table, and its codes in text form. *)
Definition codes (t : DataFrame) : list cell :=
  match index_of CodMunIBGE (columns t) with
  | Some i => map (at_ i) (rows t)
  | None => []
  end.

Definition text_codes (env : Env) (t : DataFrame) : list string :=
  map (py_str env) (codes t).

(** An environment with no provider reachable and a working file system. *)
Definition offline : Env :=
  mkEnv (fun _ => None) (fun _ => None) (fun _ => "") (fun _ => "")
        None
        (fun _ => Raise (ExternalError "provider unreachable"))
        (fun _ _ _ => None) (fun _ => None) (fun _ => None) (fun _ => None).

Definition folders : Config := mkConfig "Bronze" "Silver" "Gold" "Statistical Analysis".

Definition fresh : state := mkState [] [] [].

Definition with_tables (jl : list DataFrame) : state := mkState jl [] [].

(** Small normalised tables: population, GDP, current revenue. *)
Definition pop_table : DataFrame :=
  mkDF [CodMunIBGE; Habitantes]
       [[CStr "5938"; CInt 100]; [CStr "1100015"; CInt 7]].

Definition gdp_table : DataFrame :=
  mkDF [CodMunIBGE; PIB] [[CStr "1100015"; CFloat 12500]].

Definition rev_table : DataFrame :=
  mkDF [CodMunIBGE; Receitas]
       [[CStr "1100015"; CFloat 25000]; [CStr "5938"; CFloat 3]].

(** A table that lost its code column. *)
Definition keyless_table : DataFrame :=
  mkDF ["TERCODIGO"; PIB] [[CStr "1100015"; CFloat 12500]].


(** What one [process_data] call does to the accumulator, read off the two
    stage results: the normalised table is appended when both stages
    return one, and nothing changes otherwise. *)
Definition appended (fetched : outcome (option DataFrame) * state)
    (normalise : DataFrame -> state -> outcome (option DataFrame) * state)
    (before after : list DataFrame) : Prop :=
  match fetched with
  | (Ret (Some b), s1) =>
      match normalise b s1 with
      | (Ret (Some t), _) => after = before ++ [t]
      | _ => after = before
      end
  | _ => after = before
  end.





(** ** The unified table, row by row *)

(** One row of the joined table after [reindex(columns = order_set)]. *)
Definition pick (cols : list string) (r : list cell) : list cell :=
  map (lookup cols r) order_set.

Definition by_code (a b : list cell) : bool := key_leb (at_ 0 a) (at_ 0 b).

(** The reindexed and sorted rows of a joined table. *)
Definition arranged (joined : DataFrame) : list (list cell) :=
  isort by_code (map (pick (columns joined)) (rows joined)).

(** Whether the quotient of the revenue and GDP columns is the IEEE one. *)
Definition ieee_columns (rs : list (list cell)) : bool :=
  numeric_dtype (map (at_ 4) rs) && numeric_dtype (map (at_ 5) rs).

(** A row of [backend.py]'s unified table, made from an arranged row: the
    tax burden goes into the seventh cell and the flag is appended. *)
Definition finished (ieee : bool) (r r' : list cell) : Prop :=
  exists q, div_fill0 ieee (at_ 4 r) (at_ 5 r) = Ret q
            /\ r' = put_at 6 q r
                      ++ [Backend.status_of (at_ 3 r) (at_ 5 r) (at_ 4 r)].

(** The same for [maybev2v1.py], which appends no flag. *)
Definition finished_variant (ieee : bool) (r r' : list cell) : Prop :=
  exists q, div_fill0 ieee (at_ 4 r) (at_ 5 r) = Ret q /\ r' = put_at 6 q r.

(** The table [gold_finish] hands back, in each variant. *)
Definition backend_returns (env : Env) (cfg : Config) (s : state) (df : DataFrame) : Prop :=
  exists filename s', Backend.gold_finish env cfg filename s = (Ret (Some df), s').

Definition variant_returns (env : Env) (cfg : Config) (s : state) (df : DataFrame) : Prop :=
  exists filename s', MaybeV2V1.gold_finish env cfg filename s = (Ret df, s').

(** A cell of a row, by label. *)
Definition value (df : DataFrame) (r : list cell) (c : string) : cell :=
  lookup (columns df) r c.

(** [revenue.div(gdp, fill_value = 0)] on two float64 values. *)
Definition ratio_of (x y : float) : float :=
  if is_nan x && is_nan y then nan
  else PrimFloat.div (if is_nan x then 0%float else x)
                     (if is_nan y then 0%float else y).

(** A revenue table whose first municipality has a GDP of exactly 0. *)
Definition zero_gdp_table : DataFrame :=
  mkDF [CodMunIBGE; Receitas; PIB]
       [[CStr "1100015"; CFloat 5; CFloat 0]; [CStr "5938"; CFloat 3; CFloat 4]].

Definition idhm_table : DataFrame :=
  mkDF [CodMunIBGE; IDHM]
       [[CInt 1100015; CFloat 0.75]; [CInt 5938; CFloat 0.5]].

(** A run with four series accumulated, population first. *)
Definition sample_tables : list DataFrame :=
  [pop_table; gdp_table; rev_table; idhm_table].

(** What [backend.py] makes of them. *)
Definition sample_unified : DataFrame :=
  mkDF [CodMunIBGE; Municipio; Habitantes; IDHM; Receitas; PIB; Carga; data_status]
       [[CStr "1100015"; NaN; CInt 7; CFloat 0.75; CFloat 25000; CFloat 12500;
         CFloat 2; CStr "complete"];
        [CStr "5938"; NaN; CInt 100; CFloat 0.5; CFloat 3; NaN;
         CFloat infinity; CStr "incomplete"]].

(** What [maybev2v1.py] makes of them: the row of code 5938, which has no
    GDP, is gone. *)
Definition sample_unified_variant : DataFrame :=
  mkDF order_set
       [[CStr "1100015"; NaN; CInt 7; CFloat 0.75; CFloat 25000; CFloat 12500;
         CFloat 2]].

Definition zero_gdp_unified : DataFrame :=
  mkDF [CodMunIBGE; Municipio; Habitantes; IDHM; Receitas; PIB; Carga; data_status]
       [[CStr "1100015"; NaN; NaN; NaN; CFloat 5; CFloat 0;
         CFloat infinity; CStr "incomplete"];
        [CStr "5938"; NaN; NaN; NaN; CFloat 3; CFloat 4;
         CFloat 0.75; CStr "incomplete"]].

(** How the ratio cell of a unified row relates to the arranged row it was
    computed from. *)
Definition ratio_row (ieee : bool) (r r' : list cell) : Prop :=
  exists q, div_fill0 ieee (at_ 4 r) (at_ 5 r) = Ret q
            /\ at_ 4 r' = at_ 4 r /\ at_ 5 r' = at_ 5 r /\ at_ 6 r' = q.

Definition float_columns (df : DataFrame) : Prop :=
  forall r, In r (rows df) ->
            is_CFloat (value df r Receitas) = true
            /\ is_CFloat (value df r PIB) = true.

(** ** The join, seen from the anchor

    What one left join appends to a left row: the cells of the one matching
    right row (its key cell removed, int64 columns made float64 when some
    left row finds no match), or NaN in every column of the right table. *)
Definition join_flags (i j : nat) (l r : DataFrame) : list bool :=
  if existsb (fun lrow => match matches i j lrow (rows r) with
                          | [] => true | _ => false end) (rows l)
  then int_columns (List.length (remove_at j (columns r)))
         (map (remove_at j) (rows r))
  else repeat false (List.length (remove_at j (columns r))).

Definition join_tail (i j : nat) (l r : DataFrame) (lrow : list cell) : list cell :=
  match matches i j lrow (rows r) with
  | [] => repeat NaN (List.length (remove_at j (columns r)))
  | rrow :: _ => map upcast (combine (join_flags i j l r) (remove_at j rrow))
  end.

(** A table has the code column. *)
Definition has_code (t : DataFrame) : Prop :=
  has_col CodMunIBGE (columns t) = true.



Fixpoint last_char (s : string) : option ascii :=
  match s with
  | EmptyString => None
  | String a s' =>
      match last_char s' with
      | None => Some a
      | found => found
      end
  end.

(** A row of the joined table is a row of the anchor, extended on the right;
    when the anchor's code is not text the extension is all NaN. *)
Definition extends_anchor (anchor : DataFrame) (i : nat) (jr : list cell) : Prop :=
  exists ar x, In ar (rows anchor) /\ jr = ar ++ x
               /\ (is_CStr (at_ i ar) = false -> x = repeat NaN (List.length x)).

(** An anchor whose code column mixes an int with text (object dtype), and a
    GDP table that lists both codes. *)
Definition mixed_anchor : DataFrame :=
  mkDF [CodMunIBGE; Habitantes]
       [[CInt 5938; CInt 100]; [CStr "1100015"; CInt 7]].

Definition both_gdp_table : DataFrame :=
  mkDF [CodMunIBGE; PIB] [[CInt 5938; CFloat 4]; [CInt 1100015; CFloat 12500]].

(** An anchor whose codes are all ints (int64). *)
Definition int_anchor : DataFrame :=
  mkDF [CodMunIBGE; Habitantes] [[CInt 5938; CInt 100]; [CInt 1100015; CInt 7]].

(** A label that suffixing cannot produce: it ends neither in x nor in y. *)
Definition plain (c : string) : bool :=
  match last_char c with
  | Some "x"%char | Some "y"%char => false
  | _ => true
  end.

(** The series columns other than the GDP. *)
Definition other_series : list string := [Municipio; Habitantes; IDHM; Receitas].

(** What the loop keeps true of the joined row that stems from the anchor
    row [ar]: it is there, its GDP is null, and every series column that no
    later table carries still reads as in the anchor. *)
Definition kept_without_gdp (anchor : DataFrame) (later : list DataFrame)
    (ar : list cell) (df : DataFrame) : Prop :=
  exists x,
    In (ar ++ x) (rows df)
    /\ isnull (lookup (columns df) (ar ++ x) PIB) = true
    /\ forall c, In c other_series ->
                 (forall t, In t later -> has_col c (columns t) = false) ->
                 lookup (columns df) (ar ++ x) c = lookup (columns anchor) ar c.

(** ** The joined table in closed form

    When no two tables share a label other than the code, nothing is
    suffixed and the joined table is the anchor with one block of columns
    per later table. *)
Definition nonkey (t : DataFrame) : list string :=
  match index_of CodMunIBGE (columns t) with
  | Some j => remove_at j (columns t)
  | None => columns t
  end.

Definition coerced (env : Env) (t : DataFrame) : DataFrame :=
  match coerce_key env t with
  | Ret t' => t'
  | Raise _ => t
  end.

(** The cells table [t] contributes to the anchor row [ar]. *)
Definition tail_of (env : Env) (anchor : DataFrame) (i : nat)
    (t : DataFrame) (ar : list cell) : list cell :=
  match index_of CodMunIBGE (columns t) with
  | Some j => join_tail i j anchor (coerced env t) ar
  | None => []
  end.

Definition joined_columns (anchor : DataFrame) (later : list DataFrame) : list string :=
  columns anchor ++ flat_map nonkey later.

Definition joined_rows (env : Env) (anchor : DataFrame) (i : nat)
    (later : list DataFrame) : list (list cell) :=
  map (fun ar => ar ++ flat_map (fun t => tail_of env anchor i t ar) later)
      (rows anchor).

(** A later table the join accepts: it has a code column, and pandas does
    not refuse to join the anchor's codes with its text codes. *)
Definition joinable (env : Env) (anchor : DataFrame) (i : nat) (t : DataFrame) : Prop :=
  exists j,
    index_of CodMunIBGE (columns t) = Some j
    /\ keys_refused (map (at_ i) (rows anchor))
         (map (at_ j) (rows (coerced env t))) = false.

(** No label but the code occurs twice across the accumulated tables. *)
Definition distinct_labels (anchor : DataFrame) (later : list DataFrame) : Prop :=
  NoDup (joined_columns anchor later).

(** A labelled row, and the first cell under a label. *)
Fixpoint alookup (c : string) (l : list (string * cell)) : cell :=
  match l with
  | [] => NaN
  | (d, v) :: l' => if String.eqb c d then v else alookup c l'
  end.


(** ** What a run accumulates

    The provider call [bronze_fetch] makes for a job, and the table one
    [process_data] call appends: the normalised table, when the provider
    answers, the raw table is written, the recipe succeeds and the
    normalised table is written; nothing otherwise. *)
Definition job : Type := (option string * option Z * string * option string)%type.

Definition request_of (idhm_file : string) (j : job) : request :=
  let '(series, year, filename, r_code) := j in
  if String.eqb filename idhm_file then RBridge r_code
  else match series with
       | Some "Municípios" => Territories
       | _ => TimeSeries series year
       end.

Definition normalised (env : Env) (cfg : Config)
    (transform : DataFrame -> string -> outcome DataFrame)
    (idhm_file : string) (j : job) : option DataFrame :=
  let '(_, _, filename, _) := j in
  match provider env (request_of idhm_file j) with
  | Ret raw =>
      match persist env (bronze_folder cfg) filename raw with
      | None =>
          match transform raw filename with
          | Ret d =>
              match persist env (silver_folder cfg) filename d with
              | None => Some d
              | Some _ => None
              end
          | Raise _ => None
          end
      | Some _ => None
      end
  | Raise _ => None
  end.

Definition option_list {A : Type} (o : option A) : list A :=
  match o with
  | Some a => [a]
  | None => []
  end.

(** The five jobs of [main], in the order it runs them. *)
Definition backend_jobs : list job :=
  map (fun x => (fst (fst x), snd (fst x), snd x, None)) Backend.data_series
  ++ [(None, None, "IDHM_2010.parquet", Some Backend.r_code)].

Definition variant_jobs : list job :=
  map (fun x => (fst (fst x), snd (fst x), snd x, None)) MaybeV2V1.data_series
  ++ [(None, None, "IDHM_2010.csv", Some Backend.r_code)].

(** An environment in which the layer folders cannot be created. *)
Definition no_disk : Env :=
  mkEnv (fun _ => None) (fun _ => None) (fun _ => "") (fun _ => "")
        (Some (ExternalError "read-only file system"))
        (fun _ => Raise (ExternalError "provider unreachable"))
        (fun _ _ _ => None) (fun _ => None) (fun _ => None) (fun _ => None).

(** A provider that answers two of the five jobs: the population series and
    the municipality registry, each with one municipality and one state. *)
Definition raw_pop : DataFrame :=
  mkDF ["CODE"; "RAW DATE"; "YEAR"; "NIVNOME"; "TERCODIGO"; "VALUE (Habitante)"]
       [[CStr "POPTOT"; CStr "2010-01-01"; CInt 2010; CStr "Municípios";
         CStr "1100015"; CFloat 24392];
        [CStr "POPTOT"; CStr "2010-01-01"; CInt 2010; CStr "Estados";
         CStr "11"; CFloat 1562409]].

Definition raw_territories : DataFrame :=
  mkDF ["NAME"; "ID"; "LEVEL"; "AREA"; "CAPITAL"]
       [[CStr "Alta Floresta D'Oeste"; CStr "1100015"; CStr "Municípios";
         CFloat 7067; CInt 0];
        [CStr "Rondônia"; CStr "11"; CStr "Estados"; CFloat 237576; CInt 0]].

Definition two_series (q : request) : outcome DataFrame :=
  match q with
  | TimeSeries (Some "POPTOT") _ => Ret raw_pop
  | Territories => Ret raw_territories
  | _ => Raise (ExternalError "provider unreachable")
  end.

Definition partly_online : Env :=
  mkEnv (fun _ => None) (fun _ => None) (fun _ => "") (fun _ => "")
        None two_series
        (fun _ _ _ => None) (fun _ => None) (fun _ => None) (fun _ => None).

Definition pop_normalised : DataFrame :=
  mkDF [CodMunIBGE; Habitantes] [[CStr "1100015"; CInt 24392]].

Definition registry_normalised : DataFrame :=
  mkDF [Municipio; CodMunIBGE] [[CStr "Alta Floresta D'Oeste"; CStr "1100015"]].

(** The relabelling of [rename]. *)
Definition relabel (m : list (string * string)) (c : string) : string :=
  match assoc c m with
  | Some c' => c'
  | None => c
  end.

(** ** The recipes, label by label *)

(** The rows of a raw table at municipality level, [label] being the column
    that holds the level. *)
Definition level_rows (label : string) (df : DataFrame) : list (list cell) :=
  match index_of label (columns df) with
  | Some i => filter (fun r => eq_str "Municípios" (at_ i r)) (rows df)
  | None => []
  end.

(** The provenance columns every time-series recipe drops. *)
Definition provenance : list string := ["CODE"; "RAW DATE"; "YEAR"; "NIVNOME"].

(** Row [r'] of [d] holds, under every label outside [touched], what row [r]
    of [raw] holds under it. *)
Definition carried (raw d : DataFrame) (touched : list string) (r r' : list cell) : Prop :=
  forall c, ~ In c touched -> value d r' c = value raw r c.





(** A raw revenue series in which the municipality's value is a text that
    spells no number. *)
Definition raw_revenue_text : DataFrame :=
  mkDF ["CODE"; "RAW DATE"; "DAY"; "MONTH"; "YEAR"; "NIVNOME"; "TERCODIGO"; "VALUE (R$)"]
       [[CStr "RECORRM"; CStr "2010-01-01"; CInt 1; CInt 1; CInt 2010;
         CStr "Municípios"; CStr "1100015"; CStr "n/d"]].



(** ** src/backend.py, after [gold_finish]

    What [main] runs once the unified table is there (lines 499-506):
    [analyze_data], [Database], [DataFetcher.fetch_data],
    [DataFetcher.fetch_geodata] and [DataMerger.merge_data].  It is what the
    field [downstream] of the environment stands for, taken apart; the
    statistics, the database, the boundary provider and the geospatial
    merge stay external. *)

Record Services : Type := mkServices {
  (** The correlation matrix, the regression, the ANOVA table and the
      write of the HTML report. *)
  analysis : DataFrame -> option exn;
  (** [Database.__init__]: the extensions and the connection. *)
  install_extensions : option exn;
  connect : option exn;
  (** [fetch_data]: connect, SELECT * FROM df, fetchdf, close. *)
  db_read : outcome DataFrame;
  (** [geobr.read_municipality] and the GeoDataFrame made of its result. *)
  read_municipality : outcome DataFrame;
  (** [merge_data] from the left join on: the join with the boundaries,
      the simplification of the geometry and the write of AppData into the
      folder given. *)
  geo_merge : string -> DataFrame -> DataFrame -> outcome DataFrame
}.

Module Delivery.

Section Delivery.

Variable env : Env.
Variable sv : Services.
Variable cfg : Config.

(** Lines 275-353.  [df[[...]]] on [None] is a TypeError, on a table that
    lacks one of the three labels a KeyError; both are caught like
    everything else. *)
Definition analyze_data (df : option DataFrame) : M unit :=
  try_except
    (_ <~ lift (match df with
                | None => Raise TypeError
                | Some d =>
                    match find (fun c => negb (has_col c (columns d))) [IDHM; Carga; PIB] with
                    | Some c => Raise (KeyError c)
                    | None => guard (analysis sv d)
                    end
                end) ;;
     logging INFO "Analyzing data"
       (analysis_folder cfg ++ "/Analysis Report.html") None)
    (fun e => logging ERROR "Error analyzing data" "" (Some e)).

(** Lines 355-371: no handler. *)
Definition Database : M unit :=
  _ <~ lift (guard (install_extensions sv)) ;;
  _ <~ lift (guard (connect sv)) ;;
  logging INFO "Initialized database" "" None.

(** Lines 378-395. *)
Definition fetch_data : M (option DataFrame) :=
  try_except
    (df <~ lift (db_read sv) ;;
     _ <~ logging INFO "Fetched data" "" None ;;
     ret (Some df))
    (fun e =>
       _ <~ logging ERROR "Error loading data from DuckDB" "" (Some e) ;;
       ret None).

(** Lines 397-415. *)
Definition boundaries : outcome DataFrame :=
  gdf <-- read_municipality sv ;;
  d <-- drop ["name_muni"; "code_state"] gdf ;;
  Ret (rename [("abbrev_state", "UF")] d).

Definition fetch_geodata : M (option DataFrame) :=
  try_except
    (gdf <~ lift boundaries ;;
     _ <~ logging INFO "Fetched geodata" "" None ;;
     ret (Some gdf))
    (fun e =>
       _ <~ logging ERROR "Error fetching geodata" "" (Some e) ;;
       ret None).

(** [df[c] = df[c].astype(int)]: every value, or the exception of the first
    value that has no [int]. *)
Definition codes_to_int (c : string) (df : DataFrame) : outcome DataFrame :=
  map_column c (astype_int env) df.

(** Lines 419-450: no handler; subscripting [None] is a TypeError. *)
Definition merge_data (data geodata : option DataFrame) (gold_folder : string)
  : M DataFrame :=
  app_data <~ lift (match data with
                    | None => Raise TypeError
                    | Some d =>
                        d' <-- codes_to_int CodMunIBGE d ;;
                        match geodata with
                        | None => Raise TypeError
                        | Some g =>
                            g' <-- codes_to_int "code_muni" g ;;
                            geo_merge sv gold_folder d'
                              (rename [("code_muni", CodMunIBGE)] g')
                        end
                    end) ;;
  _ <~ logging INFO "Merged data" "" None ;;
  ret app_data.

(** Lines 499-506 of [main]. *)
Definition deliver (df : option DataFrame) : M DataFrame :=
  _ <~ analyze_data df ;;
  _ <~ Database ;;
  data <~ fetch_data ;;
  geodata <~ fetch_geodata ;;
  merge_data data geodata (gold_folder cfg).

End Delivery.

End Delivery.

(** Services in working order around a database that holds the unified
    sample table and a boundary provider that answers with one polygon. *)
Definition sample_boundaries : DataFrame :=
  mkDF ["code_muni"; "name_muni"; "code_state"; "abbrev_state"; "geometry"]
       [[CFloat 1100015; CStr "Alta Floresta D'Oeste"; CFloat 11; CStr "RO";
         CStr "POLYGON"]].

Definition working (db : outcome DataFrame) (geo : outcome DataFrame) : Services :=
  mkServices (fun _ => None) None None db geo (fun _ d _ => Ret d).

(** An environment whose [int] reads the two sample codes. *)
Definition reads_codes : Env :=
  mkEnv (fun _ => None)
        (fun s => if String.eqb s "1100015" then Some 1100015%Z
                  else if String.eqb s "5938" then Some 5938%Z else None)
        (fun _ => "") (fun _ => "")
        None
        (fun _ => Raise (ExternalError "provider unreachable"))
        (fun _ _ _ => None) (fun _ => None) (fun _ => None) (fun _ => None).

(** The tables written to a layer folder, in the order they were written. *)
Definition layer (folder : string) (s : state) : list DataFrame :=
  map snd (filter (fun e => String.eqb (fst (fst e)) folder) (stored s)).

(** The raw table a job leaves in the bronze layer: the provider's answer,
    when it is written. *)
Definition fetched (env : Env) (cfg : Config) (idhm_file : string) (j : job)
  : option DataFrame :=
  let '(_, _, filename, _) := j in
  match provider env (request_of idhm_file j) with
  | Ret raw =>
      match persist env (bronze_folder cfg) filename raw with
      | None => Some raw
      | Some _ => None
      end
  | Raise _ => None
  end.

(** * Properties *)

(** ** The stages never raise and never touch the accumulator *)

Ltac unfold_effects :=
  unfold try_except, bind, lift, ret, logging, write_store, guard,
    get_join_list, set_join_list in *.

Ltac split_effects :=
  repeat match goal with
         | |- context [match ?x with _ => _ end] => destruct x eqn:?; simpl
         end.

Lemma backend_bronze_fetch_frame env cfg series year filename r_code s :
  exists r s', Backend.bronze_fetch env cfg series year filename r_code s = (Ret r, s')
               /\ join_list s' = join_list s.
Proof.
  unfold Backend.bronze_fetch, Backend.saving_step. unfold_effects.
  destruct (provider env _) as [raw|e]; simpl.
  - destruct (persist env _ _ _); simpl; eauto.
  - eauto.
Qed.

Lemma backend_silver_transform_frame env cfg df filename s :
  exists r s', Backend.silver_transform env cfg df filename s = (Ret r, s')
               /\ join_list s' = join_list s.
Proof.
  unfold Backend.silver_transform, Backend.saving_step. unfold_effects.
  destruct (Backend.transform env df filename) as [d|e]; simpl.
  - destruct (persist env _ _ _); simpl; eauto.
  - eauto.
Qed.

Lemma variant_bronze_fetch_frame env cfg series year filename r_code s :
  exists r s', MaybeV2V1.bronze_fetch env cfg series year filename r_code s = (Ret r, s')
               /\ join_list s' = join_list s.
Proof.
  unfold MaybeV2V1.bronze_fetch, MaybeV2V1.saving_step. unfold_effects.
  destruct (provider env _) as [raw|e]; simpl.
  - destruct (persist env _ _ _); simpl; eauto.
  - eauto.
Qed.

Lemma variant_silver_transform_frame env cfg df filename s :
  exists r s', MaybeV2V1.silver_transform env cfg df filename s = (Ret r, s')
               /\ join_list s' = join_list s.
Proof.
  unfold MaybeV2V1.silver_transform, MaybeV2V1.saving_step. unfold_effects.
  destruct (MaybeV2V1.transform env df filename) as [d|e]; simpl.
  - destruct (persist env _ _ _); simpl; eauto.
  - eauto.
Qed.

(** C8. Every [process_data] call returns normally and either appends
    exactly the one normalised table (fetch and normalisation both
    succeeded) or leaves the accumulator as it was; in both cases the tables
    accumulated before are still there, in place, in both variants. *)
Theorem process_data_append_only env cfg series year filename r_code s :
  (exists s',
      Backend.process_data env cfg series year filename r_code s = (Ret tt, s')
      /\ appended (Backend.bronze_fetch env cfg series year filename r_code s)
           (fun b => Backend.silver_transform env cfg b filename)
           (join_list s) (join_list s')
      /\ firstn (List.length (join_list s)) (join_list s') = join_list s
      /\ (List.length (join_list s') <= S (List.length (join_list s)))%nat)
  /\
  (exists s',
      MaybeV2V1.process_data env cfg series year filename r_code s = (Ret tt, s')
      /\ appended (MaybeV2V1.bronze_fetch env cfg series year filename r_code s)
           (fun b => MaybeV2V1.silver_transform env cfg b filename)
           (join_list s) (join_list s')
      /\ firstn (List.length (join_list s)) (join_list s') = join_list s
      /\ (List.length (join_list s') <= S (List.length (join_list s)))%nat).
Proof.
  split.
  - unfold Backend.process_data, appended.
    destruct (backend_bronze_fetch_frame env cfg series year filename r_code s)
      as (rb & s1 & Hb & Hj1).
    unfold bind at 1. unfold bind at 1. rewrite Hb.
    destruct rb as [b|].
    + destruct (backend_silver_transform_frame env cfg b filename s1)
        as (rs & s2 & Hs & Hj2).
      unfold bind at 1. rewrite Hs.
      destruct rs as [t|]; unfold_effects; simpl; eexists; split; try reflexivity;
        simpl; rewrite ?Hj2, ?Hj1.
      * repeat split.
        -- rewrite firstn_app, firstn_all, Nat.sub_diag. simpl. apply app_nil_r.
        -- rewrite length_app. simpl. lia.
      * repeat split.
        -- apply firstn_all.
        -- lia.
    + unfold_effects; simpl. eexists; split; [reflexivity|]. simpl. rewrite Hj1.
      repeat split.
      * apply firstn_all.
      * lia.
  - unfold MaybeV2V1.process_data, appended.
    destruct (variant_bronze_fetch_frame env cfg series year filename r_code s)
      as (rb & s1 & Hb & Hj1).
    unfold bind at 1. rewrite Hb.
    destruct rb as [b|].
    + destruct (variant_silver_transform_frame env cfg b filename s1)
        as (rs & s2 & Hs & Hj2).
      unfold bind at 1. rewrite Hs.
      destruct rs as [t|]; unfold_effects; simpl; eexists; split; try reflexivity;
        simpl; rewrite ?Hj2, ?Hj1.
      * repeat split.
        -- rewrite firstn_app, firstn_all, Nat.sub_diag. simpl. apply app_nil_r.
        -- rewrite length_app. simpl. lia.
      * repeat split.
        -- apply firstn_all.
        -- lia.
    + unfold_effects; simpl. eexists; split; [reflexivity|]. simpl. rewrite Hj1.
      repeat split.
      * apply firstn_all.
      * lia.
Qed.

(** ** Orchestration *)

Lemma backend_process_data_returns env cfg series year filename r_code s :
  exists s', Backend.process_data env cfg series year filename r_code s = (Ret tt, s').
Proof.
  unfold Backend.process_data.
  destruct (backend_bronze_fetch_frame env cfg series year filename r_code s)
    as (rb & s1 & Hb & _).
  unfold bind at 1. unfold bind at 1. rewrite Hb.
  destruct rb as [b|].
  - destruct (backend_silver_transform_frame env cfg b filename s1)
      as (rs & s2 & Hs & _).
    unfold bind at 1. rewrite Hs.
    destruct rs; unfold_effects; simpl; eauto.
  - unfold_effects; simpl; eauto.
Qed.

Lemma variant_process_data_returns env cfg series year filename r_code s :
  exists s', MaybeV2V1.process_data env cfg series year filename r_code s = (Ret tt, s').
Proof.
  unfold MaybeV2V1.process_data.
  destruct (variant_bronze_fetch_frame env cfg series year filename r_code s)
    as (rb & s1 & Hb & _).
  unfold bind at 1. rewrite Hb.
  destruct rb as [b|].
  - destruct (variant_silver_transform_frame env cfg b filename s1)
      as (rs & s2 & Hs & _).
    unfold bind at 1. rewrite Hs.
    destruct rs; unfold_effects; simpl; eauto.
  - unfold_effects; simpl; eauto.
Qed.

Lemma backend_for_each_returns env cfg l :
  forall s, exists s', Backend.for_each env cfg l s = (Ret tt, s').
Proof.
  induction l as [|[[series year] filename] l IH]; intros s; simpl.
  - unfold ret. eauto.
  - destruct (backend_process_data_returns env cfg series year filename None s)
      as (s1 & H1).
    unfold bind at 1. rewrite H1.
    unfold bind at 1. unfold logging at 1. apply IH.
Qed.

Lemma variant_for_each_returns env cfg l :
  forall s, exists s', MaybeV2V1.for_each env cfg l s = (Ret tt, s').
Proof.
  induction l as [|[[series year] filename] l IH]; intros s; simpl.
  - unfold ret. eauto.
  - destruct (variant_process_data_returns env cfg series year filename None s)
      as (s1 & H1).
    unfold bind at 1. rewrite H1. apply IH.
Qed.

Lemma backend_attempts_return env cfg s :
  makedirs env = None ->
  exists s', Backend.attempts env cfg s = (Ret tt, s').
Proof.
  intros Hm. unfold Backend.attempts, Backend.create_folders.
  unfold bind at 1. unfold bind at 1. unfold lift, guard. rewrite Hm.
  unfold logging at 1. unfold bind at 1.
  match goal with
  | |- context [Backend.for_each env cfg ?l ?s0] =>
      destruct (backend_for_each_returns env cfg l s0) as (s1 & H1)
  end.
  rewrite H1.
  apply backend_process_data_returns.
Qed.

Lemma variant_attempts_return env cfg s :
  makedirs env = None ->
  exists s', MaybeV2V1.attempts env cfg s = (Ret tt, s').
Proof.
  intros Hm. unfold MaybeV2V1.attempts, MaybeV2V1.create_folders.
  unfold bind at 1. unfold lift, guard. rewrite Hm.
  unfold bind at 1.
  match goal with
  | |- context [MaybeV2V1.for_each env cfg ?l ?s0] =>
      destruct (variant_for_each_returns env cfg l s0) as (s1 & H1)
  end.
  rewrite H1.
  apply variant_process_data_returns.
Qed.

(** C9. Once the folders exist, the five attempts always come back; when
    they leave the accumulator empty, [main] returns normally in exactly
    the state the attempts left: [gold_finish] is not called, nothing is
    logged or stored for a unified table, and nothing is raised.  Both
    variants. *)
Theorem empty_run_terminates env cfg s :
  makedirs env = None ->
  (exists s', Backend.attempts env cfg s = (Ret tt, s')
              /\ (join_list s' = [] -> Backend.main env cfg s = (Ret tt, s')))
  /\
  (exists s', MaybeV2V1.attempts env cfg s = (Ret tt, s')
              /\ (join_list s' = [] -> MaybeV2V1.main env cfg s = (Ret tt, s'))).
Proof.
  intros Hm. split.
  - destruct (backend_attempts_return env cfg s Hm) as (s' & Ha).
    exists s'. split; [exact Ha|]. intros He.
    unfold Backend.main. unfold bind at 1. rewrite Ha.
    unfold bind, get_join_list. rewrite He. reflexivity.
  - destruct (variant_attempts_return env cfg s Hm) as (s' & Ha).
    exists s'. split; [exact Ha|]. intros He.
    unfold MaybeV2V1.main. unfold bind at 1. rewrite Ha.
    unfold bind, get_join_list. rewrite He. reflexivity.
Qed.

Lemma empty_run_terminates_witness :
  makedirs offline = None
  /\ ((exists s', Backend.attempts offline folders fresh = (Ret tt, s')
                  /\ (join_list s' = [] ->
                      Backend.main offline folders fresh = (Ret tt, s')))
      /\
      (exists s', MaybeV2V1.attempts offline folders fresh = (Ret tt, s')
                  /\ (join_list s' = [] ->
                      MaybeV2V1.main offline folders fresh = (Ret tt, s')))).
Proof.
  split; [reflexivity | apply (empty_run_terminates offline folders fresh); reflexivity].
Defined.

(** With no provider reachable the run ends with an empty accumulator, five
    error entries in the log (plus the variant-independent info entries) and
    nothing stored. *)
Lemma offline_run :
  (exists s', Backend.main offline folders fresh = (Ret tt, s')
              /\ join_list s' = [] /\ stored s' = [])
  /\ (exists s', MaybeV2V1.main offline folders fresh = (Ret tt, s')
                 /\ join_list s' = [] /\ stored s' = []
                 /\ List.length (log s') = 5%nat).
Proof.
  split; eexists; vm_compute; repeat split.
Qed.

(** ** Columns, cell by cell *)

Lemma index_of_lt c cols i :
  index_of c cols = Some i -> (i < List.length cols)%nat.
Proof.
  revert i. induction cols as [|c' cols IH]; simpl; intros i H; [discriminate|].
  destruct (String.eqb c c').
  - injection H as <-. lia.
  - destruct (index_of c cols) as [k|]; simpl in H; [|discriminate].
    injection H as <-. specialize (IH k eq_refl). lia.
Qed.

Lemma index_of_has_col c cols :
  has_col c cols = true <-> exists i, index_of c cols = Some i.
Proof.
  unfold has_col. induction cols as [|c' cols IH]; simpl.
  - split; [discriminate | intros [i H]; discriminate].
  - destruct (String.eqb c c'); simpl.
    + split; eauto.
    + rewrite IH. split; intros [i H].
      * rewrite H. simpl. eauto.
      * destruct (index_of c cols); [eauto | discriminate].
Qed.

Lemma index_of_none c cols :
  has_col c cols = false <-> index_of c cols = None.
Proof.
  destruct (index_of c cols) as [i|] eqn:E.
  - assert (has_col c cols = true) by (apply index_of_has_col; eauto).
    split; congruence.
  - destruct (has_col c cols) eqn:F; [|tauto].
    apply index_of_has_col in F. destruct F as [i F]. congruence.
Qed.

Lemma at_put_at_same i v (r : list cell) :
  (i < List.length r)%nat -> at_ i (put_at i v r) = v.
Proof.
  unfold at_. revert i. induction r as [|a r IH]; simpl; intros i H; [lia|].
  destruct i; simpl; [reflexivity | apply IH; lia].
Qed.

Lemma at_put_at_other i j v (r : list cell) :
  i <> j -> at_ j (put_at i v r) = at_ j r.
Proof.
  unfold at_. revert i j. induction r as [|a r IH]; simpl; intros i j H.
  - destruct i; reflexivity.
  - destruct i, j; simpl; try reflexivity; try congruence.
    apply IH. congruence.
Qed.

Lemma put_at_twice {A : Type} i (v w : A) (r : list A) :
  put_at i v (put_at i w r) = put_at i v r.
Proof.
  revert i. induction r as [|a r IH]; intros i; destruct i; simpl;
    try reflexivity. now rewrite IH.
Qed.

Lemma length_put_at {A : Type} i (v : A) (r : list A) :
  List.length (put_at i v r) = List.length r.
Proof.
  revert i. induction r as [|a r IH]; intros i; destruct i; simpl;
    try reflexivity. now rewrite IH.
Qed.

Lemma traverse_total {A B : Type} (f : A -> outcome B) (g : A -> B) l :
  (forall a, In a l -> f a = Ret (g a)) -> traverse f l = Ret (map g l).
Proof.
  induction l as [|a l IH]; simpl; intros H; [reflexivity|].
  rewrite (H a (or_introl eq_refl)). simpl.
  rewrite IH by (intros; apply H; now right). reflexivity.
Qed.

Lemma combine_map_self {A B : Type} (g : A -> B) (l : list A) :
  combine l (map g l) = map (fun a => (a, g a)) l.
Proof.
  induction l as [|a l IH]; simpl; [reflexivity | now rewrite IH].
Qed.

Lemma map_column_total c f g df i :
  index_of c (columns df) = Some i ->
  (forall r, In r (rows df) -> f (at_ i r) = Ret (g (at_ i r))) ->
  map_column c f df
  = Ret (mkDF (columns df) (map (fun r => put_at i (g (at_ i r)) r) (rows df))).
Proof.
  intros Hi Hf. unfold map_column, column, set_column. rewrite Hi. simpl.
  rewrite (traverse_total f g).
  - simpl. rewrite map_map, combine_map_self, map_map. reflexivity.
  - intros a Ha. apply in_map_iff in Ha. destruct Ha as (r & <- & Hr). now apply Hf.
Qed.

(** ** The GDP recipe *)


Lemma rectangular_wide df c i r :
  rectangular df -> index_of c (columns df) = Some i -> In r (rows df) ->
  (i < List.length r)%nat.
Proof.
  intros Hr Hi Hin. unfold rectangular in Hr. rewrite Forall_forall in Hr.
  rewrite (Hr r Hin). now apply index_of_lt in Hi.
Qed.

Lemma is_CFloat_inv c : is_CFloat c = true -> exists v, c = CFloat v.
Proof. destruct c; simpl; try discriminate. eauto. Qed.







(** ** Exceptions at the finalisation boundary *)

(** [backend.py]: whatever the body of [gold_finish] raises is caught. *)
Lemma backend_gold_finish_returns env cfg filename s :
  exists r s', Backend.gold_finish env cfg filename s = (Ret r, s').
Proof.
  unfold Backend.gold_finish, try_except.
  match goal with
  | |- context [match ?b with _ => _ end] => destruct b as [[r|e] s']
  end.
  - eauto.
  - unfold_effects. simpl. eauto.
Qed.

(** [backend.py]: a failing join or derivation is logged and answered with
    an absent result. *)
Lemma backend_gold_finish_recovers env cfg filename s e :
  snd (Backend.unify env (join_list s)) = Raise e ->
  exists s', Backend.gold_finish env cfg filename s = (Ret None, s')
             /\ log s' = log s ++ [mkLog ERROR "Error finalizing data for" filename (Some e)].
Proof.
  intros H. unfold Backend.gold_finish. unfold_effects.
  destruct (Backend.unify env (join_list s)) as [jl' r]. simpl in H. subst r.
  simpl. eexists. split; reflexivity.
Qed.

(** C4, on the variant. [maybev2v1.py]'s [gold_finish] has no handler: a
    later table without the code column makes it raise KeyError, an empty
    accumulator IndexError, where [backend.py] logs and returns None. *)
Theorem variant_gold_finish_lets_errors_escape :
  fst (MaybeV2V1.gold_finish offline folders "CleanData.csv"
         (with_tables [pop_table; keyless_table]))
  = Raise (KeyError CodMunIBGE)
  /\ fst (MaybeV2V1.gold_finish offline folders "CleanData.csv" fresh)
     = Raise IndexError
  /\ fst (Backend.gold_finish offline folders "DescriptiveData.parquet"
            (with_tables [pop_table; keyless_table]))
     = Ret None.
Proof.
  repeat split; vm_compute; reflexivity.
Qed.

(** ** From the joined table to the unified table *)

Lemma traverse_Forall2 {A B : Type} (f : A -> outcome B) l q :
  traverse f l = Ret q -> Forall2 (fun a b => f a = Ret b) l q.
Proof.
  revert q. induction l as [|a l IH]; simpl; intros q H.
  - injection H as <-. constructor.
  - destruct (f a) as [b|] eqn:Ea; simpl in H; [|discriminate].
    destruct (traverse f l) as [bs|]; simpl in H; [|discriminate].
    injection H as <-. constructor; auto.
Qed.

Lemma traverse_combine_map {A B C D : Type} (h : B -> C -> outcome D)
    (a : A -> B) (b : A -> C) l :
  traverse (fun x => h (fst x) (snd x)) (combine (map a l) (map b l))
  = traverse (fun r => h (a r) (b r)) l.
Proof.
  induction l as [|r l IH]; simpl; [reflexivity | now rewrite IH].
Qed.

Lemma Forall2_combine_map {A B C : Type} (R : A -> B -> Prop) (g : A -> B -> C) l q :
  Forall2 R l q ->
  Forall2 (fun a c => exists b, R a b /\ c = g a b) l
          (map (fun ab => g (fst ab) (snd ab)) (combine l q)).
Proof.
  induction 1; simpl; constructor; eauto.
Qed.

Lemma Forall2_length_eq {A B : Type} (R : A -> B -> Prop) l q :
  Forall2 R l q -> List.length l = List.length q.
Proof. induction 1; simpl; congruence. Qed.

Lemma combine3_map {A B C D : Type} (a : A -> B) (b : A -> C) (c : A -> D) l :
  combine (combine (map a l) (map b l)) (map c l)
  = map (fun r => (a r, b r, c r)) l.
Proof.
  induction l as [|r l IH]; simpl; [reflexivity | now rewrite IH].
Qed.

Lemma reindex_order_set joined :
  reindex order_set joined
  = if has_dup (columns joined) then Raise ValueError
    else Ret (mkDF order_set (map (pick (columns joined)) (rows joined))).
Proof. reflexivity. Qed.

Lemma sort_values_order_set rs :
  sort_values CodMunIBGE (mkDF order_set rs)
  = if sortable (map (at_ 0) rs) then Ret (mkDF order_set (isort by_code rs))
    else Raise TypeError.
Proof. reflexivity. Qed.

Lemma tax_burden_order_set rs :
  tax_burden (mkDF order_set rs)
  = (q <-- traverse (fun r => div_fill0 (ieee_columns rs) (at_ 4 r) (at_ 5 r)) rs ;;
     Ret (mkDF order_set (map (fun rv => put_at 6 (snd rv) (fst rv)) (combine rs q)))).
Proof.
  unfold tax_burden, column. cbn [columns rows].
  change (index_of Receitas order_set) with (Some 4%nat).
  change (index_of PIB order_set) with (Some 5%nat). cbn [obind].
  unfold series_div_fill0. fold (ieee_columns rs).
  rewrite traverse_combine_map. reflexivity.
Qed.

Lemma add_status_order_set rs :
  Backend.add_status (mkDF order_set rs)
  = Ret (mkDF (order_set ++ [data_status])
           (map (fun r => r ++ [Backend.status_of (at_ 3 r) (at_ 5 r) (at_ 4 r)]) rs)).
Proof.
  unfold Backend.add_status, column. cbn [columns rows].
  change (index_of IDHM order_set) with (Some 3%nat).
  change (index_of PIB order_set) with (Some 5%nat).
  change (index_of Receitas order_set) with (Some 4%nat). cbn [obind].
  unfold set_column. cbn [columns rows].
  change (index_of data_status order_set) with (@None nat). cbv iota.
  rewrite combine3_map, map_map, combine_map_self, map_map. reflexivity.
Qed.

Lemma put_rows_Forall2 ieee rs q :
  Forall2 (fun r b => div_fill0 ieee (at_ 4 r) (at_ 5 r) = Ret b) rs q ->
  Forall2 (finished_variant ieee) rs
          (map (fun rv => put_at 6 (snd rv) (fst rv)) (combine rs q)).
Proof.
  induction 1; simpl; constructor; auto.
  eexists; split; eauto.
Qed.

(** What [derive] returns, when it returns. *)
Lemma backend_derive_rows joined df :
  Backend.derive joined = Ret df ->
  has_dup (columns joined) = false
  /\ sortable (map (at_ 0) (map (pick (columns joined)) (rows joined))) = true
  /\ columns df = order_set ++ [data_status]
  /\ Forall2 (finished (ieee_columns (arranged joined))) (arranged joined) (rows df).
Proof.
  unfold Backend.derive. rewrite reindex_order_set.
  destruct (has_dup (columns joined)) eqn:Hd; cbn [obind]; [discriminate|].
  rewrite sort_values_order_set.
  destruct (sortable _) eqn:Hs; cbn [obind]; [|discriminate].
  fold (arranged joined). rewrite tax_burden_order_set.
  destruct (traverse _ (arranged joined)) as [q|] eqn:Hq; cbn [obind]; [|discriminate].
  rewrite add_status_order_set.
  intros H. injection H as <-. cbn [columns rows].
  repeat split.
  apply traverse_Forall2, put_rows_Forall2 in Hq.
  set (ieee := ieee_columns (arranged joined)) in *. clearbody ieee.
  set (rs := arranged joined) in *. clearbody rs.
  set (rs3 := map _ (combine rs q)) in *. clearbody rs3.
  induction Hq as [|r r3 l l3 (b & Hb & ->) H3 IH]; cbn [map]; constructor; auto.
  exists b. split; [exact Hb|].
  rewrite !at_put_at_other by lia. reflexivity.
Qed.

Lemma variant_derive_rows dropped df :
  MaybeV2V1.derive dropped = Ret df ->
  has_dup (columns dropped) = false
  /\ sortable (map (at_ 0) (map (pick (columns dropped)) (rows dropped))) = true
  /\ columns df = order_set
  /\ Forall2 (finished_variant (ieee_columns (arranged dropped)))
       (arranged dropped) (rows df).
Proof.
  unfold MaybeV2V1.derive. rewrite reindex_order_set.
  destruct (has_dup (columns dropped)) eqn:Hd; cbn [obind]; [discriminate|].
  rewrite sort_values_order_set.
  destruct (sortable _) eqn:Hs; cbn [obind]; [|discriminate].
  fold (arranged dropped). rewrite tax_burden_order_set.
  destruct (traverse _ (arranged dropped)) as [q|] eqn:Hq; cbn [obind]; [|discriminate].
  intros H. injection H as <-. cbn [columns rows].
  repeat split.
  now apply traverse_Forall2, put_rows_Forall2 in Hq.
Qed.

Lemma insert_by_perm {A : Type} (leb : A -> A -> bool) a l :
  Permutation (insert_by leb a l) (a :: l).
Proof.
  induction l as [|b l IH]; simpl; [reflexivity|].
  destruct (leb a b); [reflexivity|].
  rewrite IH. apply perm_swap.
Qed.

Lemma isort_perm {A : Type} (leb : A -> A -> bool) l :
  Permutation (isort leb l) l.
Proof.
  induction l as [|a l IH]; simpl; [reflexivity|].
  rewrite insert_by_perm. now constructor.
Qed.

Lemma arranged_in joined r :
  In r (arranged joined) <-> exists r0, In r0 (rows joined) /\ r = pick (columns joined) r0.
Proof.
  unfold arranged. split.
  - intros H. apply (Permutation_in _ (isort_perm _ _)) in H.
    apply in_map_iff in H. destruct H as (r0 & <- & H0). eauto.
  - intros (r0 & H0 & ->).
    apply (Permutation_in _ (Permutation_sym (isort_perm _ _))).
    now apply in_map.
Qed.

Lemma arranged_width joined r :
  In r (arranged joined) -> List.length r = 7%nat.
Proof.
  intros H. apply arranged_in in H. destruct H as (r0 & _ & ->). reflexivity.
Qed.

Lemma Forall2_in_r {A B : Type} (R : A -> B -> Prop) l q b :
  Forall2 R l q -> In b q -> exists a, In a l /\ R a b.
Proof.
  induction 1; simpl; intros Hin; [contradiction|].
  destruct Hin as [<-|Hin]; [eauto|].
  destruct (IHForall2 Hin) as (a & Ha & HR). eauto.
Qed.

Lemma Forall2_in_l {A B : Type} (R : A -> B -> Prop) l q a :
  Forall2 R l q -> In a l -> exists b, In b q /\ R a b.
Proof.
  induction 1; simpl; intros Hin; [contradiction|].
  destruct Hin as [<-|Hin]; [eauto|].
  destruct (IHForall2 Hin) as (b & Hb & HR). eauto.
Qed.

(** [gold_finish] hands back what [unify] computed. *)
Lemma backend_returns_unify env cfg s df :
  backend_returns env cfg s df -> snd (Backend.unify env (join_list s)) = Ret df.
Proof.
  intros (filename & s' & H). revert H.
  unfold Backend.gold_finish, Backend.saving_step. unfold_effects.
  destruct (Backend.unify env (join_list s)) as [jl' [d|e]]; simpl.
  - destruct (report env d); simpl; [discriminate|].
    destruct (persist env _ _ d); simpl; [discriminate|].
    destruct (duckdb env d); simpl; [discriminate|].
    intros H. injection H as -> _. reflexivity.
  - discriminate.
Qed.

Lemma variant_returns_unify env cfg s df :
  variant_returns env cfg s df -> snd (MaybeV2V1.unify env (join_list s)) = Ret df.
Proof.
  intros (filename & s' & H). revert H.
  unfold MaybeV2V1.gold_finish, MaybeV2V1.saving_step. unfold_effects.
  destruct (MaybeV2V1.unify env (join_list s)) as [jl' [d|e]]; simpl.
  - destruct (report env d); simpl; [discriminate|].
    destruct (persist env _ _ d); simpl; [discriminate|].
    intros H. injection H as -> _. reflexivity.
  - discriminate.
Qed.


Lemma backend_unify_joined env jl df :
  snd (Backend.unify env jl) = Ret df ->
  exists anchor later joined,
    jl = anchor :: later
    /\ snd (join_loop env anchor later) = Ret joined
    /\ Backend.derive joined = Ret df.
Proof.
  destruct jl as [|anchor later]; simpl; [discriminate|].
  destruct (join_loop env anchor later) as [later' [joined|e]] eqn:E; simpl;
    [|discriminate].
  intros H. exists anchor, later, joined. rewrite E. repeat split. exact H.
Qed.

Lemma variant_unify_joined env jl df :
  snd (MaybeV2V1.unify env jl) = Ret df ->
  exists anchor later joined,
    jl = anchor :: later
    /\ snd (join_loop env anchor later) = Ret joined
    /\ MaybeV2V1.derive (dropna joined) = Ret df.
Proof.
  destruct jl as [|anchor later]; simpl; [discriminate|].
  destruct (join_loop env anchor later) as [later' [joined|e]] eqn:E; simpl;
    [|discriminate].
  intros H. exists anchor, later, joined. rewrite E. repeat split. exact H.
Qed.

Lemma sample_run_backend :
  backend_returns offline folders (with_tables sample_tables) sample_unified.
Proof.
  exists "DescriptiveData.parquet". eexists. vm_compute. reflexivity.
Qed.

Lemma width7 (r : list cell) :
  List.length r = 7%nat ->
  exists a0 a1 a2 a3 a4 a5 a6, r = [a0; a1; a2; a3; a4; a5; a6].
Proof.
  intros H.
  do 7 (destruct r as [|? r]; [discriminate|]).
  destruct r; [|discriminate]. eauto 10.
Qed.





(** ** The tax-burden ratio *)

Lemma Z2float_0 : Z2float 0 = 0%float.
Proof. vm_compute. reflexivity. Qed.

(** IEEE division by a zero never yields a zero. *)
Lemma div_by_zero_not_zero a y :
  PrimFloat.eqb y 0%float = true ->
  PrimFloat.eqb (PrimFloat.div a y) 0%float = false.
Proof.
  rewrite !FloatAxioms.eqb_spec, FloatAxioms.div_spec.
  change (Prim2SF 0%float) with (S754_zero false).
  destruct (Prim2SF y) as [sy| sy | | sy my ey] eqn:Ey; simpl;
    try discriminate; try (destruct sy; discriminate).
  intros _.
  destruct (Prim2SF a) as [sa| sa | | sa ma ea]; simpl; try reflexivity;
    destruct sa, sy; reflexivity.
Qed.

Lemma eqb_nan_l y : PrimFloat.eqb nan y = false.
Proof.
  rewrite FloatAxioms.eqb_spec. change (Prim2SF nan) with S754_nan. reflexivity.
Qed.

Lemma is_nan_not_zero y : is_nan y = true -> PrimFloat.eqb y 0%float = false.
Proof.
  unfold is_nan. intros H. apply negb_true_iff in H.
  rewrite FloatAxioms.eqb_spec in *.
  change (Prim2SF 0%float) with (S754_zero false).
  destruct (Prim2SF y) as [sy| sy | | sy my ey]; simpl in *.
  all: try reflexivity.
  - destruct sy; discriminate.
  - destruct sy; discriminate.
  - exfalso. unfold SFeqb, SFcompare in H.
    destruct sy; rewrite Z.compare_refl in H.
    + rewrite Pos.compare_cont_refl in H. discriminate.
    + rewrite Pos.compare_cont_refl in H. simpl in H. discriminate.
Qed.

Lemma ratio_of_never_zero x y :
  is_nan y = true \/ PrimFloat.eqb y 0%float = true ->
  PrimFloat.eqb (ratio_of x y) 0%float = false.
Proof.
  unfold ratio_of. intros [Hy|Hy].
  - rewrite Hy. destruct (is_nan x); cbn [andb].
    + apply eqb_nan_l.
    + now apply div_by_zero_not_zero.
  - destruct (is_nan y) eqn:Ny.
    + apply is_nan_not_zero in Ny. congruence.
    + rewrite andb_false_r. now apply div_by_zero_not_zero.
Qed.

Lemma div_fill0_floats x y :
  div_fill0 true (CFloat x) (CFloat y) = Ret (CFloat (ratio_of x y)).
Proof.
  unfold div_fill0, ratio_of. simpl isnull.
  destruct (is_nan x), (is_nan y); simpl; rewrite ?Z2float_0; reflexivity.
Qed.

Lemma finished_ratio_row ieee r r' :
  List.length r = 7%nat -> finished ieee r r' -> ratio_row ieee r r'.
Proof.
  intros Hw (q & Hq & ->).
  destruct (width7 r Hw) as (a0 & a1 & a2 & a3 & a4 & a5 & a6 & ->).
  exists q. repeat split. exact Hq.
Qed.

Lemma finished_variant_ratio_row ieee r r' :
  List.length r = 7%nat -> finished_variant ieee r r' -> ratio_row ieee r r'.
Proof.
  intros Hw (q & Hq & ->).
  destruct (width7 r Hw) as (a0 & a1 & a2 & a3 & a4 & a5 & a6 & ->).
  exists q. repeat split. exact Hq.
Qed.

Lemma Forall2_weaken {A B : Type} (P Q : A -> B -> Prop) l q :
  (forall a b, In a l -> P a b -> Q a b) -> Forall2 P l q -> Forall2 Q l q.
Proof.
  intros H F. induction F; constructor.
  - apply H; [now left | assumption].
  - apply IHF. intros; apply H; [now right | assumption].
Qed.

(** Both variants: the rows of the returned table against the arranged rows
    they were computed from. *)
Lemma returned_ratio_rows env cfg s df :
  backend_returns env cfg s df \/ variant_returns env cfg s df ->
  exists rs,
    Forall2 (ratio_row (ieee_columns rs)) rs (rows df)
    /\ (forall r c, In r (rows df) -> In c [Receitas; PIB; Carga] ->
                    value df r c = lookup order_set r c).
Proof.
  intros [Hret|Hret].
  - apply backend_returns_unify, backend_unify_joined in Hret.
    destruct Hret as (anchor & later & joined & _ & _ & Hd).
    apply backend_derive_rows in Hd. destruct Hd as (_ & _ & Hc & Hrows).
    exists (arranged joined). split.
    + eapply Forall2_weaken; [|exact Hrows].
      intros a b Ha. apply finished_ratio_row. now apply arranged_width in Ha.
    + intros r c _ Hin. unfold value. rewrite Hc.
      destruct Hin as [<-|[<-|[<-|[]]]]; reflexivity.
  - apply variant_returns_unify, variant_unify_joined in Hret.
    destruct Hret as (anchor & later & joined & _ & _ & Hd).
    apply variant_derive_rows in Hd. destruct Hd as (_ & _ & Hc & Hrows).
    exists (arranged (dropna joined)). split.
    + eapply Forall2_weaken; [|exact Hrows].
      intros a b Ha. apply finished_variant_ratio_row. now apply arranged_width in Ha.
    + intros r c _ Hin. unfold value. rewrite Hc. reflexivity.
Qed.

Lemma ratio_rows_floats rs rows' :
  Forall2 (ratio_row (ieee_columns rs)) rs rows' ->
  (forall r', In r' rows' ->
              is_CFloat (at_ 4 r') = true /\ is_CFloat (at_ 5 r') = true) ->
  forall r', In r' rows' ->
  exists x y, at_ 4 r' = CFloat x /\ at_ 5 r' = CFloat y
              /\ at_ 6 r' = CFloat (ratio_of x y).
Proof.
  intros HF Hfl.
  assert (Hieee : ieee_columns rs = true).
  { unfold ieee_columns, numeric_dtype.
    apply andb_true_iff; split; apply orb_true_iff; right;
      apply forallb_forall; intros c Hc; apply in_map_iff in Hc;
      destruct Hc as (r & <- & Hr);
      destruct (Forall2_in_l _ _ _ _ HF Hr) as (r' & Hr' & q & _ & H4 & H5 & _);
      destruct (Hfl r' Hr') as [F4 F5]; congruence. }
  rewrite Hieee in HF. intros r' Hr'.
  destruct (Forall2_in_r _ _ _ _ HF Hr') as (r & Hr & q & Hq & H4 & H5 & H6).
  destruct (Hfl r' Hr') as [F4 F5].
  destruct (is_CFloat_inv _ F4) as [x Hx], (is_CFloat_inv _ F5) as [y Hy].
  exists x, y. repeat split; try assumption.
  rewrite <- H4, <- H5, Hx, Hy, div_fill0_floats in Hq.
  injection Hq as <-. exact H6.
Qed.

(** On float64 revenue and GDP columns the quotient never raises. *)
Lemma tax_burden_total rs :
  (forall r, In r rs -> is_CFloat (at_ 4 r) = true /\ is_CFloat (at_ 5 r) = true) ->
  exists d, tax_burden (mkDF order_set rs) = Ret d.
Proof.
  intros Hfl. rewrite tax_burden_order_set.
  assert (Hieee : ieee_columns rs = true).
  { unfold ieee_columns, numeric_dtype.
    apply andb_true_iff; split; apply orb_true_iff; right;
      apply forallb_forall; intros c Hc; apply in_map_iff in Hc;
      destruct Hc as (r & <- & Hr); now destruct (Hfl r Hr). }
  rewrite Hieee.
  rewrite (traverse_total _
             (fun r => match at_ 4 r, at_ 5 r with
                       | CFloat x, CFloat y => CFloat (ratio_of x y)
                       | _, _ => NaN
                       end)).
  - cbn [obind]. eauto.
  - intros r Hr. destruct (Hfl r Hr) as [F4 F5].
    destruct (is_CFloat_inv _ F4) as [x ->], (is_CFloat_inv _ F5) as [y ->].
    apply div_fill0_floats.
Qed.

(** C2 (as the code has it). Between float64 revenue and GDP columns the
    derivation never raises, and in every row of the returned table the
    ratio cell is revenue.div(gdp, fill_value = 0): revenue / gdp when both
    are present; 0 / gdp when only the revenue is missing; and, when the GDP
    is 0 or missing, the IEEE quotient by zero, which is an infinity or NaN
    and never 0.  Both variants. *)
Theorem tax_burden_ratio env cfg s df :
  (forall rs,
      (forall r, In r rs -> is_CFloat (at_ 4 r) = true /\ is_CFloat (at_ 5 r) = true) ->
      exists d, tax_burden (mkDF order_set rs) = Ret d)
  /\
  (backend_returns env cfg s df \/ variant_returns env cfg s df ->
   float_columns df ->
   forall r, In r (rows df) ->
   exists x y,
     value df r Receitas = CFloat x /\ value df r PIB = CFloat y
     /\ value df r Carga = CFloat (ratio_of x y)
     /\ (is_nan x = false -> is_nan y = false -> ratio_of x y = PrimFloat.div x y)
     /\ (is_nan x = true -> is_nan y = false ->
         ratio_of x y = PrimFloat.div 0%float y)
     /\ (is_nan y = true \/ PrimFloat.eqb y 0%float = true ->
         PrimFloat.eqb (ratio_of x y) 0%float = false)).
Proof.
  split; [exact tax_burden_total|].
  intros Hret Hfl r Hr.
  destruct (returned_ratio_rows env cfg s df Hret) as (rs & HF & Hval).
  assert (Hfl' : forall r', In r' (rows df) ->
                   is_CFloat (at_ 4 r') = true /\ is_CFloat (at_ 5 r') = true).
  { intros r' Hr'. destruct (Hfl r' Hr') as [F4 F5].
    rewrite (Hval r' Receitas Hr') in F4 by (simpl; auto).
    rewrite (Hval r' PIB Hr') in F5 by (simpl; auto). split; assumption. }
  destruct (ratio_rows_floats rs (rows df) HF Hfl' r Hr) as (x & y & H4 & H5 & H6).
  exists x, y.
  rewrite (Hval r Receitas Hr), (Hval r PIB Hr), (Hval r Carga Hr) by (simpl; auto).
  repeat split; try assumption.
  - intros Nx Ny. unfold ratio_of. rewrite Nx, Ny. reflexivity.
  - intros Nx Ny. unfold ratio_of. rewrite Nx, Ny. reflexivity.
  - apply ratio_of_never_zero.
Qed.

Lemma tax_burden_ratio_witness :
  exists x y,
    value sample_unified
      [CStr "5938"; NaN; CInt 100; CFloat 0.5; CFloat 3; NaN;
       CFloat infinity; CStr "incomplete"] Carga = CFloat (ratio_of x y)
    /\ is_nan y = true.
Proof.
  destruct (tax_burden_ratio offline folders (with_tables sample_tables) sample_unified)
    as [_ H].
  destruct (H (or_introl sample_run_backend)) with
    (r := [CStr "5938"; NaN; CInt 100; CFloat 0.5; CFloat 3; NaN;
           CFloat infinity; CStr "incomplete"])
    as (x & y & Hx & Hy & Hq & _).
  - intros r [<-|[<-|[]]]; split; reflexivity.
  - right; left; reflexivity.
  - exists x, y. split; [exact Hq|].
    change (value sample_unified
              [CStr "5938"; NaN; CInt 100; CFloat 0.5; CFloat 3; NaN;
               CFloat infinity; CStr "incomplete"] PIB) with (CFloat nan) in Hy.
    assert (E : is_CFloat (CFloat y) = true) by reflexivity.
    pose proof (f_equal (fun c => match c with CFloat f => is_nan f | _ => false end) Hy) as Hn.
    simpl in Hn. symmetry. exact Hn.
Defined.

(** C2 as stated fails: a municipality whose GDP is exactly 0 gets the ratio
    infinity, and so does one whose GDP is missing; neither gets 0. *)
Lemma zero_gdp_ratio_is_not_zero :
  backend_returns offline folders (with_tables [zero_gdp_table]) zero_gdp_unified
  /\ value zero_gdp_unified
       [CStr "1100015"; NaN; NaN; NaN; CFloat 5; CFloat 0;
        CFloat infinity; CStr "incomplete"] PIB = CFloat 0
  /\ value zero_gdp_unified
       [CStr "1100015"; NaN; NaN; NaN; CFloat 5; CFloat 0;
        CFloat infinity; CStr "incomplete"] Carga = CFloat infinity
  /\ backend_returns offline folders (with_tables sample_tables) sample_unified
  /\ value sample_unified
       [CStr "5938"; NaN; CInt 100; CFloat 0.5; CFloat 3; NaN;
        CFloat infinity; CStr "incomplete"] PIB = NaN
  /\ value sample_unified
       [CStr "5938"; NaN; CInt 100; CFloat 0.5; CFloat 3; NaN;
        CFloat infinity; CStr "incomplete"] Carga = CFloat infinity
  /\ PrimFloat.eqb infinity 0%float = false.
Proof.
  repeat split; try exact sample_run_backend.
  exists "DescriptiveData.parquet". eexists. vm_compute. reflexivity.
Qed.

(** ** One left join *)

(** A text key is matched by that very text and by nothing else: no int,
    float, timestamp or null on the left ever meets it. *)
Lemma key_eqb_text a t : key_eqb a (CStr t) = true <-> a = CStr t.
Proof.
  split.
  - destruct a as [|s|z|f|ns]; simpl; try discriminate.
    + intros H. apply String.eqb_eq in H. now subst.
    + destruct (xnum_of_float f); rewrite andb_false_r; discriminate.
  - intros ->. simpl. apply String.eqb_refl.
Qed.

Lemma merge_left_inv on l r df :
  merge_left on l r = Ret df ->
  exists i j,
    index_of on (columns l) = Some i
    /\ index_of on (columns r) = Some j
    /\ keys_refused (map (at_ i) (rows l)) (map (at_ j) (rows r)) = false
    /\ columns df
       = map (suffixed on (remove_at j (columns r)) "_x") (columns l)
         ++ map (suffixed on (columns l) "_y") (remove_at j (columns r))
    /\ rows df
       = flat_map
           (fun lrow =>
              match matches i j lrow (rows r) with
              | [] => [lrow ++ repeat NaN (List.length (remove_at j (columns r)))]
              | ms => map (fun rrow =>
                             lrow ++ map upcast (combine (join_flags i j l r)
                                                   (remove_at j rrow))) ms
              end)
           (rows l).
Proof.
  unfold merge_left.
  destruct (index_of on (columns l)) as [i|]; [|discriminate].
  destruct (index_of on (columns r)) as [j|]; [|discriminate].
  destruct (keys_refused _ _) eqn:Hk; [discriminate|].
  destruct (new_dups _ _ _ _ || new_dups _ _ _ _); [discriminate|].
  intros H. injection H as <-. exists i, j. repeat split. exact Hk.
Qed.

Lemma filter_none {A : Type} (p : A -> bool) l :
  (forall x, In x l -> p x = false) -> filter p l = [].
Proof.
  induction l as [|a l IH]; simpl; intros H; [reflexivity|].
  rewrite (H a (or_introl eq_refl)). apply IH. intros; apply H; now right.
Qed.

Lemma matches_at_most_one i j lrow rrows :
  NoDup (map (at_ j) rrows) ->
  Forall (fun c => is_CStr c = true) (map (at_ j) rrows) ->
  (List.length (matches i j lrow rrows) <= 1)%nat.
Proof.
  unfold matches. induction rrows as [|rrow rrows IH]; simpl; intros Hnd Hs; [lia|].
  inversion Hnd as [|k ks Hnotin Hnd']; subst.
  inversion Hs as [|k ks Hk Hs']; subst.
  destruct (key_eqb (at_ i lrow) (at_ j rrow)) eqn:E.
  - simpl. rewrite filter_none; [simpl; lia|].
    intros x Hx. destruct (key_eqb (at_ i lrow) (at_ j x)) eqn:E'; [|reflexivity].
    exfalso. apply Hnotin.
    destruct (at_ j rrow) as [|t| | |] eqn:Er; try discriminate.
    rewrite Forall_forall in Hs'.
    assert (Hxs : is_CStr (at_ j x) = true) by (apply Hs'; now apply in_map).
    destruct (at_ j x) as [|t'| | |] eqn:Ex; try discriminate.
    apply key_eqb_text in E, E'. rewrite E in E'. rewrite E', <- Ex.
    now apply in_map.
  - now apply IH.
Qed.

Lemma flat_map_singletons {A B : Type} (f : A -> list B) (g : A -> B) l :
  (forall a, In a l -> f a = [g a]) -> flat_map f l = map g l.
Proof.
  induction l as [|a l IH]; simpl; intros H; [reflexivity|].
  rewrite (H a (or_introl eq_refl)). simpl. f_equal.
  apply IH. intros; apply H; now right.
Qed.

Lemma merge_left_unique on l r df i j :
  index_of on (columns l) = Some i ->
  index_of on (columns r) = Some j ->
  merge_left on l r = Ret df ->
  NoDup (map (at_ j) (rows r)) ->
  Forall (fun c => is_CStr c = true) (map (at_ j) (rows r)) ->
  rows df = map (fun lrow => lrow ++ join_tail i j l r lrow) (rows l).
Proof.
  intros Hi Hj Hm Hnd Hs.
  apply merge_left_inv in Hm.
  destruct Hm as (i' & j' & Hi' & Hj' & _ & _ & Hrows).
  rewrite Hi in Hi'. rewrite Hj in Hj'. injection Hi' as <-. injection Hj' as <-.
  rewrite Hrows. apply flat_map_singletons. intros lrow _.
  unfold join_tail.
  pose proof (matches_at_most_one i j lrow (rows r) Hnd Hs) as Hle.
  destruct (matches i j lrow (rows r)) as [|rrow [|rrow' ms]]; simpl in *;
    try reflexivity. lia.
Qed.

Lemma coerce_key_inv env t t' :
  coerce_key env t = Ret t' ->
  exists j, index_of CodMunIBGE (columns t) = Some j
            /\ columns t' = columns t
            /\ rows t' = map (fun r => put_at j (astype_str env (at_ j r)) r) (rows t).
Proof.
  unfold coerce_key. destruct (index_of CodMunIBGE (columns t)) as [j|] eqn:Hj.
  - rewrite (map_column_total CodMunIBGE _ (astype_str env) t j Hj)
      by (intros; reflexivity).
    intros H. injection H as <-. exists j. repeat split.
  - unfold map_column, column. rewrite Hj. discriminate.
Qed.

Lemma coerce_key_codes env t t' j :
  rectangular t ->
  index_of CodMunIBGE (columns t) = Some j ->
  rows t' = map (fun r => put_at j (astype_str env (at_ j r)) r) (rows t) ->
  map (at_ j) (rows t') = map CStr (text_codes env t).
Proof.
  intros Hrect Hj Hrows. unfold text_codes, codes. rewrite Hj, Hrows.
  rewrite !map_map. apply map_ext_in. intros r Hr.
  apply at_put_at_same. eapply rectangular_wide; eauto.
Qed.

Lemma NoDup_map_CStr l : NoDup l -> NoDup (map CStr l).
Proof.
  induction 1 as [|s l Hnotin Hnd IH]; simpl; constructor; [|exact IH].
  intros Hin. apply in_map_iff in Hin. destruct Hin as (s' & E & Hs').
  injection E as ->. contradiction.
Qed.

Lemma Forall_map_CStr l : Forall (fun c => is_CStr c = true) (map CStr l).
Proof. apply Forall_forall. intros c Hc. apply in_map_iff in Hc.
       destruct Hc as (s & <- & _). reflexivity. Qed.

Lemma last_char_some a s : last_char (String a s) <> None.
Proof. simpl. destruct (last_char s); discriminate. Qed.

Lemma last_char_app (c : string) a s :
  last_char (c ++ String a s)%string = last_char (String a s).
Proof.
  induction c as [|b c IH]; [reflexivity|].
  change (last_char (String b (c ++ String a s)%string)
          = last_char (String a s)).
  pose proof (last_char_some a s) as Hsome.
  remember (last_char (String a s)) as o eqn:Eo.
  change (match last_char (c ++ String a s)%string with
          | None => Some b
          | found => found
          end = o).
  rewrite IH. destruct o; [reflexivity | contradiction].
Qed.

Lemma suffix_x_not_code (c : string) : (c ++ "_x")%string <> CodMunIBGE.
Proof.
  intros H. apply (f_equal last_char) in H.
  rewrite last_char_app in H. vm_compute in H. discriminate.
Qed.

Lemma index_of_suffixed others cols :
  index_of CodMunIBGE (map (suffixed CodMunIBGE others "_x") cols)
  = index_of CodMunIBGE cols.
Proof.
  induction cols as [|c cols IH]; [reflexivity|].
  cbn [map index_of]. rewrite IH.
  destruct (String.eqb CodMunIBGE c) eqn:E.
  - apply String.eqb_eq in E. subst c. unfold suffixed.
    change (String.eqb CodMunIBGE CodMunIBGE) with true. reflexivity.
  - replace (String.eqb CodMunIBGE (suffixed CodMunIBGE others "_x" c)) with false;
      [reflexivity|].
    symmetry. apply String.eqb_neq. unfold suffixed.
    destruct (negb (String.eqb c CodMunIBGE) && has_col c others).
    + intros H. symmetry in H. now apply suffix_x_not_code in H.
    + apply String.eqb_neq in E. exact E.
Qed.

Lemma index_of_app_l c cols more i :
  index_of c cols = Some i -> index_of c (cols ++ more) = Some i.
Proof.
  revert i. induction cols as [|c' cols IH]; cbn [index_of app]; intros i H;
    [discriminate|].
  destruct (String.eqb c c'); [exact H|].
  destruct (index_of c cols) as [k|]; cbn [option_map] in *; [|discriminate].
  now rewrite (IH k eq_refl).
Qed.

Lemma length_remove_at {A : Type} j (l : list A) :
  (j < List.length l)%nat -> List.length (remove_at j l) = pred (List.length l).
Proof.
  revert j. induction l as [|a l IH]; intros j H; destruct j; simpl in *;
    try lia. rewrite IH by lia. lia.
Qed.

Lemma length_join_flags i j l r :
  List.length (join_flags i j l r) = List.length (remove_at j (columns r)).
Proof.
  unfold join_flags, int_columns.
  destruct (existsb _ _).
  - now rewrite length_map, length_seq.
  - apply repeat_length.
Qed.

Lemma matches_in i j lrow rrows rrow :
  In rrow (matches i j lrow rrows) -> In rrow rrows.
Proof. unfold matches. intros H. now apply filter_In in H. Qed.

Lemma length_join_tail i j l r lrow :
  rectangular r -> (j < List.length (columns r))%nat ->
  List.length (join_tail i j l r lrow) = List.length (remove_at j (columns r)).
Proof.
  intros Hrect Hj. unfold join_tail.
  destruct (matches i j lrow (rows r)) as [|rrow ms] eqn:E.
  - apply repeat_length.
  - assert (Hin : In rrow (rows r)).
    { apply (matches_in i j lrow). rewrite E. now left. }
    unfold rectangular in Hrect. rewrite Forall_forall in Hrect.
    rewrite length_map, length_combine, length_join_flags.
    rewrite !length_remove_at by (rewrite ?(Hrect rrow Hin); exact Hj).
    rewrite (Hrect rrow Hin). lia.
Qed.

(** ** The join loop *)

(** An invariant of the joined table: it holds of the anchor and every
    iteration of the loop (coerce the code column, left-join) keeps it. *)
Lemma join_loop_invariant env (P : DataFrame -> Prop) later :
  forall df0 joined,
    P df0 ->
    (forall df t t' df1,
        In t later -> P df ->
        coerce_key env t = Ret t' ->
        merge_left CodMunIBGE df t' = Ret df1 -> P df1) ->
    snd (join_loop env df0 later) = Ret joined ->
    P joined.
Proof.
  induction later as [|t rest IH]; intros df0 joined H0 Hstep; simpl.
  - intros H. injection H as <-. exact H0.
  - destruct (coerce_key env t) as [t'|e] eqn:Hc; simpl; [|discriminate].
    destruct (merge_left CodMunIBGE df0 t') as [df1|e] eqn:Hm; simpl; [|discriminate].
    destruct (join_loop env df1 rest) as [rest' r] eqn:Hl. simpl. intros Hr.
    apply (IH df1 joined).
    + apply (Hstep df0 t t' df1); auto. now left.
    + intros df t0 t0' df1' Hin. apply Hstep. now right.
    + rewrite Hl. exact Hr.
Qed.

Lemma coerce_key_rectangular env t t' :
  rectangular t -> coerce_key env t = Ret t' -> rectangular t'.
Proof.
  intros Hrect Hc. apply coerce_key_inv in Hc. destruct Hc as (j & Hj & Hcols & Hrows).
  unfold rectangular in *. rewrite Hcols, Hrows. rewrite Forall_forall in *.
  intros r Hr. apply in_map_iff in Hr. destruct Hr as (r0 & <- & Hr0).
  rewrite length_put_at. now apply Hrect.
Qed.

(** The rows of one left join, whatever the right table holds: every left
    row is kept, extended on the right. *)
Lemma merge_left_rows on l r df i j :
  index_of on (columns l) = Some i ->
  index_of on (columns r) = Some j ->
  merge_left on l r = Ret df ->
  forall row,
    In row (rows df) <->
    exists lrow, In lrow (rows l)
      /\ ((matches i j lrow (rows r) = []
           /\ row = lrow ++ repeat NaN (List.length (remove_at j (columns r))))
          \/ exists rrow, In rrow (matches i j lrow (rows r))
               /\ row = lrow ++ map upcast (combine (join_flags i j l r)
                                              (remove_at j rrow))).
Proof.
  intros Hi Hj Hm row.
  apply merge_left_inv in Hm.
  destruct Hm as (i' & j' & Hi' & Hj' & _ & _ & Hrows).
  rewrite Hi in Hi'. rewrite Hj in Hj'. injection Hi' as <-. injection Hj' as <-.
  rewrite Hrows, in_flat_map. split.
  - intros (lrow & Hl & Hin). exists lrow. split; [exact Hl|].
    destruct (matches i j lrow (rows r)) as [|rrow ms] eqn:E.
    + left. destruct Hin as [<-|[]]. auto.
    + right. apply in_map_iff in Hin. destruct Hin as (rrow' & <- & Hin). eauto.
  - intros (lrow & Hl & [[E ->]|(rrow & Hin & ->)]); exists lrow; split; auto.
    + rewrite E. now left.
    + destruct (matches i j lrow (rows r)) as [|rrow0 ms] eqn:E; [contradiction|].
      apply in_map_iff. eauto.
Qed.

Lemma length_ext i j l r rrow :
  rectangular r -> (j < List.length (columns r))%nat -> In rrow (rows r) ->
  List.length (map upcast (combine (join_flags i j l r) (remove_at j rrow)))
  = List.length (remove_at j (columns r)).
Proof.
  intros Hrect Hj Hin.
  unfold rectangular in Hrect. rewrite Forall_forall in Hrect.
  rewrite length_map, length_combine, length_join_flags.
  rewrite !length_remove_at by (rewrite ?(Hrect rrow Hin); exact Hj).
  rewrite (Hrect rrow Hin). lia.
Qed.

Lemma merge_left_shape l r df i j :
  rectangular l -> rectangular r ->
  index_of CodMunIBGE (columns l) = Some i ->
  index_of CodMunIBGE (columns r) = Some j ->
  merge_left CodMunIBGE l r = Ret df ->
  rectangular df /\ index_of CodMunIBGE (columns df) = Some i.
Proof.
  intros Hl Hr Hi Hj Hm.
  pose proof (merge_left_rows _ _ _ _ _ _ Hi Hj Hm) as Hrows.
  apply merge_left_inv in Hm.
  destruct Hm as (i' & j' & Hi' & Hj' & _ & Hcols & _).
  rewrite Hi in Hi'. rewrite Hj in Hj'. injection Hi' as <-. injection Hj' as <-.
  assert (Hjlt : (j < List.length (columns r))%nat) by now apply index_of_lt in Hj.
  split.
  - unfold rectangular. rewrite Forall_forall. intros row Hrow.
    apply Hrows in Hrow. destruct Hrow as (lrow & Hlrow & Hcase).
    rewrite Hcols, !length_app, !length_map.
    unfold rectangular in Hl. rewrite Forall_forall in Hl.
    destruct Hcase as [[_ ->]|(rrow & Hin & ->)]; rewrite length_app, (Hl lrow Hlrow).
    + now rewrite repeat_length.
    + rewrite length_ext; auto. now apply matches_in in Hin.
  - rewrite Hcols. apply index_of_app_l. now rewrite index_of_suffixed.
Qed.

(** ** Order of text *)




(** ** Insertion sort *)







(** ** Codes through the join *)

Lemma at_app_l i (r x : list cell) :
  (i < List.length r)%nat -> at_ i (r ++ x) = at_ i r.
Proof. intros H. unfold at_. now apply app_nth1. Qed.











Lemma codes_index t i :
  index_of CodMunIBGE (columns t) = Some i -> codes t = map (at_ i) (rows t).
Proof. intros H. unfold codes. now rewrite H. Qed.






(** ** What a coerced code column can match *)

Lemma coerced_codes_text env t t' j rrow :
  rectangular t ->
  index_of CodMunIBGE (columns t) = Some j ->
  rows t' = map (fun r => put_at j (astype_str env (at_ j r)) r) (rows t) ->
  In rrow (rows t') ->
  exists s, at_ j rrow = CStr s /\ In s (text_codes env t).
Proof.
  intros Hrect Hj Hrows Hin.
  pose proof (coerce_key_codes env t t' j Hrect Hj Hrows) as Hcodes.
  assert (Hk : In (at_ j rrow) (map CStr (text_codes env t))).
  { rewrite <- Hcodes. now apply in_map. }
  apply in_map_iff in Hk. destruct Hk as (s & E & Hs). eauto.
Qed.

(** A left row matches a coerced right row only when its own code is the
    very same text. *)
Lemma match_needs_text env t t' i j lrow rrow :
  rectangular t ->
  index_of CodMunIBGE (columns t) = Some j ->
  rows t' = map (fun r => put_at j (astype_str env (at_ j r)) r) (rows t) ->
  In rrow (matches i j lrow (rows t')) ->
  exists s, at_ i lrow = CStr s /\ at_ j rrow = CStr s /\ In s (text_codes env t).
Proof.
  intros Hrect Hj Hrows Hin. unfold matches in Hin.
  apply filter_In in Hin. destruct Hin as [Hin Hk].
  destruct (coerced_codes_text env t t' j rrow Hrect Hj Hrows Hin) as (s & Es & Hs).
  rewrite Es in Hk. apply key_eqb_text in Hk. eauto.
Qed.

Lemma no_match env t t' i j lrow :
  rectangular t ->
  index_of CodMunIBGE (columns t) = Some j ->
  rows t' = map (fun r => put_at j (astype_str env (at_ j r)) r) (rows t) ->
  (forall s, at_ i lrow = CStr s -> ~ In s (text_codes env t)) ->
  matches i j lrow (rows t') = [].
Proof.
  intros Hrect Hj Hrows Hno.
  destruct (matches i j lrow (rows t')) as [|rrow ms] eqn:E; [reflexivity|].
  destruct (match_needs_text env t t' i j lrow rrow Hrect Hj Hrows) as (s & Ek & _ & Hs).
  - rewrite E. now left.
  - exfalso. exact (Hno s Ek Hs).
Qed.

Lemma repeat_NaN_app (x : list cell) n :
  x = repeat NaN (List.length x) ->
  x ++ repeat NaN n = repeat NaN (List.length (x ++ repeat NaN n)).
Proof.
  intros Hx. rewrite length_app, repeat_length, repeat_app. now rewrite <- Hx.
Qed.

(** Whatever the later tables hold, every joined row extends an anchor row,
    and only a text code lets anything but NaN be joined to it. *)
Lemma join_loop_prefix env anchor later joined i :
  rectangular anchor ->
  index_of CodMunIBGE (columns anchor) = Some i ->
  Forall rectangular later ->
  snd (join_loop env anchor later) = Ret joined ->
  rectangular joined
  /\ index_of CodMunIBGE (columns joined) = Some i
  /\ forall jr, In jr (rows joined) -> extends_anchor anchor i jr.
Proof.
  intros Hrect Hi Hrects Hloop.
  apply (join_loop_invariant env
           (fun df => rectangular df
                      /\ index_of CodMunIBGE (columns df) = Some i
                      /\ forall jr, In jr (rows df) -> extends_anchor anchor i jr)
           later anchor joined).
  - repeat split; try assumption.
    intros jr Hjr. exists jr, []. rewrite app_nil_r. repeat split; auto.
  - intros df t t' df1 Hin (Hdf & Hidf & Hext) Hc Hm.
    rewrite Forall_forall in Hrects.
    pose proof (coerce_key_rectangular env t t' (Hrects t Hin) Hc) as Hrt'.
    apply coerce_key_inv in Hc. destruct Hc as (j & Hj & Hcols & Hrows).
    assert (Hj' : index_of CodMunIBGE (columns t') = Some j) by now rewrite Hcols.
    destruct (merge_left_shape df t' df1 i j Hdf Hrt' Hidf Hj' Hm) as [Hr1 Hi1].
    split; [exact Hr1|]. split; [exact Hi1|].
    intros jr Hjr.
    apply (merge_left_rows CodMunIBGE df t' df1 i j Hidf Hj' Hm) in Hjr.
    destruct Hjr as (lrow & Hl & Hcase).
    destruct (Hext lrow Hl) as (ar & x & Har & -> & Hx).
    assert (Hw : (i < List.length ar)%nat)
      by exact (rectangular_wide anchor CodMunIBGE i ar Hrect Hi Har).
    destruct Hcase as [[_ ->]|(rrow & Hrrow & ->)].
    + exists ar, (x ++ repeat NaN (List.length (remove_at j (columns t')))).
      rewrite app_assoc. repeat split; auto.
      intros Hns. apply repeat_NaN_app. now apply Hx.
    + exists ar, (x ++ map upcast (combine (join_flags i j df t')
                                     (remove_at j rrow))).
      rewrite app_assoc. repeat split; auto.
      intros Hns. exfalso.
      destruct (match_needs_text env t t' i j (ar ++ x) rrow
                  (Hrects t Hin) Hj Hrows Hrrow) as (s & Es & _).
      rewrite at_app_l in Es by exact Hw. rewrite Es in Hns. discriminate.
  - exact Hloop.
Qed.

(** The loop coerces the code column of every later table. *)
Lemma join_loop_coerces env later :
  forall df0 joined,
    snd (join_loop env df0 later) = Ret joined ->
    Forall2 (fun t t' => coerce_key env t = Ret t') later
            (fst (join_loop env df0 later)).
Proof.
  induction later as [|t rest IH]; intros df0 joined; simpl.
  - constructor.
  - destruct (coerce_key env t) as [t'|e] eqn:Hc; simpl; [|discriminate].
    destruct (merge_left CodMunIBGE df0 t') as [df1|e] eqn:Hm; simpl; [|discriminate].
    specialize (IH df1 joined).
    destruct (join_loop env df1 rest) as [rest' r]. simpl in *.
    intros Hr. constructor; auto.
Qed.

(** C10. Finalisation leaves the anchor table untouched in the accumulator
    and coerces the code column of each later table.  Every row of the
    joined table is an anchor row, its code cell unchanged, extended on the
    right; and unless that code cell is text, the extension is NaN
    throughout: the joins match nothing.  The loop is shared by both
    variants. *)
Theorem anchor_codes_not_coerced env anchor later joined :
  Forall rectangular (anchor :: later) ->
  has_code anchor ->
  snd (join_loop env anchor later) = Ret joined ->
  fst (Backend.unify env (anchor :: later))
  = anchor :: fst (join_loop env anchor later)
  /\ (later <> [] ->
      fst (MaybeV2V1.unify env (anchor :: later))
      = anchor :: fst (join_loop env anchor later))
  /\ Forall2 (fun t t' => coerce_key env t = Ret t') later
       (fst (join_loop env anchor later))
  /\ forall jr, In jr (rows joined) ->
       exists ar x,
         In ar (rows anchor) /\ jr = ar ++ x
         /\ lookup (columns joined) jr CodMunIBGE
            = lookup (columns anchor) ar CodMunIBGE
         /\ (is_CStr (lookup (columns anchor) ar CodMunIBGE) = false ->
             x = repeat NaN (List.length x)).
Proof.
  intros Hrects Hcode Hloop.
  inversion Hrects as [|a l Hrect Hrects']; subst.
  apply index_of_has_col in Hcode. destruct Hcode as [i Hi].
  destruct (join_loop_prefix env anchor later joined i Hrect Hi Hrects' Hloop)
    as (Hrj & Hij & Hext).
  split; [|split; [|split]].
  - simpl. destruct (join_loop env anchor later). reflexivity.
  - intros Hne. simpl. destruct (join_loop env anchor later) as [later' r].
    simpl in Hloop. subst r. destruct later; [contradiction | reflexivity].
  - exact (join_loop_coerces env later anchor joined Hloop).
  - intros jr Hjr. destruct (Hext jr Hjr) as (ar & x & Har & -> & Hx).
    exists ar, x. unfold lookup. rewrite Hij, Hi.
    assert (Hw : (i < List.length ar)%nat)
      by exact (rectangular_wide anchor CodMunIBGE i ar Hrect Hi Har).
    rewrite at_app_l by exact Hw. repeat split; auto.
Qed.

Lemma anchor_codes_not_coerced_witness :
  snd (join_loop offline mixed_anchor [both_gdp_table])
  = Ret (mkDF [CodMunIBGE; Habitantes; PIB]
           [[CInt 5938; CInt 100; NaN];
            [CStr "1100015"; CInt 7; CFloat 12500]])
  /\ fst (Backend.unify offline [mixed_anchor; both_gdp_table])
     = mixed_anchor :: fst (join_loop offline mixed_anchor [both_gdp_table]).
Proof.
  split; [vm_compute; reflexivity|].
  assert (Hrect : Forall rectangular [mixed_anchor; both_gdp_table])
    by (repeat constructor).
  assert (Hloop : snd (join_loop offline mixed_anchor [both_gdp_table])
                  = Ret (mkDF [CodMunIBGE; Habitantes; PIB]
                           [[CInt 5938; CInt 100; NaN];
                            [CStr "1100015"; CInt 7; CFloat 12500]]))
    by (vm_compute; reflexivity).
  exact (proj1 (anchor_codes_not_coerced offline mixed_anchor [both_gdp_table] _
                  Hrect eq_refl Hloop)).
Defined.

(** An anchor whose codes are all ints is refused by the first join, in
    both variants; [backend.py] turns that into an absent result. *)
Lemma int_anchor_refused :
  snd (join_loop offline int_anchor [both_gdp_table]) = Raise ValueError
  /\ fst (Backend.gold_finish offline folders "DescriptiveData.parquet"
            (with_tables [int_anchor; both_gdp_table])) = Ret None
  /\ fst (MaybeV2V1.gold_finish offline folders "CleanData.csv"
            (with_tables [int_anchor; both_gdp_table])) = Raise ValueError.
Proof.
  repeat split; vm_compute; reflexivity.
Qed.

(** ** Labels through the join *)

Lemma has_col_In c cols : has_col c cols = true <-> In c cols.
Proof.
  unfold has_col. rewrite existsb_exists. split.
  - intros (d & Hd & E). apply String.eqb_eq in E. now subst.
  - intros H. exists c. split; [exact H | apply String.eqb_refl].
Qed.

Lemma has_col_false c cols : has_col c cols = false <-> ~ In c cols.
Proof.
  rewrite <- has_col_In. destruct (has_col c cols); split; congruence.
Qed.

Lemma index_of_app c l1 l2 :
  index_of c (l1 ++ l2)
  = match index_of c l1 with
    | Some p => Some p
    | None => option_map (Nat.add (List.length l1)) (index_of c l2)
    end.
Proof.
  induction l1 as [|d l1 IH]; cbn [index_of app List.length].
  - destruct (index_of c l2); reflexivity.
  - destruct (String.eqb c d); [reflexivity|].
    rewrite IH. destruct (index_of c l1); [reflexivity|].
    destruct (index_of c l2); reflexivity.
Qed.

Lemma lookup_app l1 l2 r1 r2 c :
  List.length r1 = List.length l1 ->
  lookup (l1 ++ l2) (r1 ++ r2) c
  = match index_of c l1 with
    | Some p => at_ p r1
    | None => lookup l2 r2 c
    end.
Proof.
  intros Hlen. unfold lookup. rewrite index_of_app.
  destruct (index_of c l1) as [p|] eqn:E.
  - apply at_app_l. rewrite Hlen. now apply index_of_lt in E.
  - destruct (index_of c l2) as [q|]; [|reflexivity].
    cbn [option_map]. unfold at_. rewrite <- Hlen. apply app_nth2_plus.
Qed.

Lemma lookup_repeat_NaN cols n c : lookup cols (repeat NaN n) c = NaN.
Proof.
  unfold lookup, at_. destruct (index_of c cols) as [p|]; [|reflexivity].
  revert p. induction n as [|n IH]; intros p; destruct p; simpl; auto.
Qed.

Lemma index_of_map_same (f : string -> string) cols c :
  (forall d, In d cols -> (f d = c <-> d = c)) ->
  index_of c (map f cols) = index_of c cols.
Proof.
  induction cols as [|d cols IH]; intros H; [reflexivity|].
  cbn [map index_of]. rewrite IH by (intros; apply H; now right).
  destruct (String.eqb c d) eqn:E.
  - apply String.eqb_eq in E. subst d.
    replace (String.eqb c (f c)) with true; [reflexivity|].
    symmetry. apply String.eqb_eq. symmetry. apply (H c); [now left | reflexivity].
  - replace (String.eqb c (f d)) with false; [reflexivity|].
    symmetry. apply String.eqb_neq. intros Hc. apply String.eqb_neq in E.
    apply E. symmetry. apply (H d); [now left | now symmetry].
Qed.

Lemma index_of_map_none (f : string -> string) cols c :
  (forall d, In d cols -> f d <> c) -> index_of c (map f cols) = None.
Proof.
  intros H. apply index_of_none. apply has_col_false. intros Hin.
  apply in_map_iff in Hin. destruct Hin as (d & E & Hd). exact (H d Hd E).
Qed.

Lemma plain_not_suffixed (c d : string) a :
  plain c = true -> (a = "x"%char \/ a = "y"%char) ->
  (d ++ String "_" (String a EmptyString))%string <> c.
Proof.
  intros Hp Ha E. subst c. unfold plain in Hp.
  rewrite last_char_app in Hp. destruct Ha; subst a; discriminate.
Qed.

Lemma suffixed_cases on others sfx c :
  suffixed on others sfx c = c \/ suffixed on others sfx c = (c ++ sfx)%string.
Proof. unfold suffixed. destruct (_ && _); auto. Qed.

(** A plain label the other side lacks keeps its place. *)
Lemma index_of_suffixed_plain on others a cols c :
  plain c = true -> (a = "x"%char \/ a = "y"%char) ->
  has_col c others = false ->
  index_of c (map (suffixed on others (String "_" (String a EmptyString))) cols)
  = index_of c cols.
Proof.
  intros Hp Ha Hno. apply index_of_map_same. intros d _. split.
  - intros E. destruct (suffixed_cases on others (String "_" (String a EmptyString)) d)
      as [E'|E']; rewrite E' in E; [exact E|].
    exfalso. exact (plain_not_suffixed c d a Hp Ha E).
  - intros ->. unfold suffixed. rewrite Hno, andb_false_r. reflexivity.
Qed.

(** A plain label both sides carry is renamed away. *)
Lemma index_of_suffixed_clash on others a cols c :
  plain c = true -> (a = "x"%char \/ a = "y"%char) ->
  c <> on -> has_col c others = true ->
  index_of c (map (suffixed on others (String "_" (String a EmptyString))) cols)
  = None.
Proof.
  intros Hp Ha Hon Hyes. apply index_of_map_none. intros d _ E.
  destruct (suffixed_cases on others (String "_" (String a EmptyString)) d)
    as [E'|E'].
  - rewrite E' in E. subst d. unfold suffixed in E'.
    apply String.eqb_neq in Hon. rewrite Hon, Hyes in E'. cbn [negb andb] in E'.
    exact (plain_not_suffixed c c a Hp Ha E').
  - rewrite E' in E. exact (plain_not_suffixed c d a Hp Ha E).
Qed.

Lemma nth_index_of c cols j :
  index_of c cols = Some j -> nth j cols EmptyString = c.
Proof.
  revert j. induction cols as [|d cols IH]; cbn [index_of]; intros j H;
    [discriminate|].
  destruct (String.eqb c d) eqn:E.
  - injection H as <-. apply String.eqb_eq in E. now subst.
  - destruct (index_of c cols) as [k|]; cbn [option_map] in H; [|discriminate].
    injection H as <-. simpl. now apply IH.
Qed.

Lemma In_remove_at {A : Type} (d : A) j (l : list A) x :
  In x l -> x <> nth j l d -> In x (remove_at j l).
Proof.
  revert j. induction l as [|a l IH]; intros j Hin Hne; [contradiction|].
  destruct j; simpl in *.
  - destruct Hin as [->|Hin]; [contradiction | exact Hin].
  - destruct Hin as [->|Hin]; [now left | right; now apply IH].
Qed.

Lemma remove_at_incl {A : Type} j (l : list A) x :
  In x (remove_at j l) -> In x l.
Proof.
  revert j. induction l as [|a l IH]; intros j; destruct j; simpl; auto.
  intros [->|H]; [now left | right; eauto].
Qed.

Lemma merged_lookup_untouched l r df1 j lrow tail c :
  plain c = true ->
  has_col c (columns r) = false ->
  List.length lrow = List.length (columns l) ->
  columns df1
  = map (suffixed CodMunIBGE (remove_at j (columns r)) "_x") (columns l)
    ++ map (suffixed CodMunIBGE (columns l) "_y") (remove_at j (columns r)) ->
  lookup (columns df1) (lrow ++ tail) c = lookup (columns l) lrow c.
Proof.
  intros Hp Hno Hlen Hcols.
  assert (Hno' : has_col c (remove_at j (columns r)) = false).
  { apply has_col_false. intros Hin. apply remove_at_incl in Hin.
    apply has_col_false in Hno. contradiction. }
  rewrite Hcols, lookup_app by now rewrite length_map.
  rewrite (index_of_suffixed_plain CodMunIBGE _ "x"%char) by auto.
  unfold lookup at 2.
  destruct (index_of c (columns l)); [reflexivity|].
  unfold lookup. rewrite index_of_map_none; [reflexivity|].
  intros d Hd E.
  destruct (suffixed_cases CodMunIBGE (columns l) "_y" d) as [E'|E'];
    rewrite E' in E.
  - subst d. apply has_col_false in Hno'. contradiction.
  - exact (plain_not_suffixed c d "y"%char Hp (or_intror eq_refl) E).
Qed.

Lemma merged_lookup_nan l r df1 j lrow n c :
  plain c = true ->
  c <> CodMunIBGE ->
  has_col c (columns r) = true ->
  index_of CodMunIBGE (columns r) = Some j ->
  List.length lrow = List.length (columns l) ->
  columns df1
  = map (suffixed CodMunIBGE (remove_at j (columns r)) "_x") (columns l)
    ++ map (suffixed CodMunIBGE (columns l) "_y") (remove_at j (columns r)) ->
  lookup (columns df1) (lrow ++ repeat NaN n) c = NaN.
Proof.
  intros Hp Hkey Hyes Hj Hlen Hcols.
  assert (Hyes' : has_col c (remove_at j (columns r)) = true).
  { apply has_col_In. apply (In_remove_at EmptyString).
    - now apply has_col_In.
    - rewrite (nth_index_of _ _ _ Hj). exact Hkey. }
  rewrite Hcols, lookup_app by now rewrite length_map.
  rewrite (index_of_suffixed_clash CodMunIBGE _ "x"%char) by auto.
  apply lookup_repeat_NaN.
Qed.

Lemma plain_series c : In c (PIB :: other_series) -> plain c = true /\ c <> CodMunIBGE.
Proof.
  intros H. simpl in H.
  repeat (destruct H as [<-|H]; [split; [reflexivity | discriminate]|]).
  contradiction.
Qed.

(** C6, through the loop: the anchor row of a code that no GDP-carrying
    table lists stays, with a null GDP and its other series cells. *)
Lemma join_loop_keeps_row env anchor later joined i ar code :
  rectangular anchor ->
  index_of CodMunIBGE (columns anchor) = Some i ->
  Forall rectangular later ->
  In ar (rows anchor) ->
  at_ i ar = CStr code ->
  has_col PIB (columns anchor) = false ->
  (forall t, In t later -> has_col PIB (columns t) = true ->
             ~ In code (text_codes env t)) ->
  snd (join_loop env anchor later) = Ret joined ->
  rectangular joined
  /\ index_of CodMunIBGE (columns joined) = Some i
  /\ kept_without_gdp anchor later ar joined.
Proof.
  intros Hrect Hi Hrects Har Hcode Hnopib Habsent Hloop.
  assert (Hw : (i < List.length ar)%nat)
    by exact (rectangular_wide anchor CodMunIBGE i ar Hrect Hi Har).
  apply (join_loop_invariant env
           (fun df => rectangular df
                      /\ index_of CodMunIBGE (columns df) = Some i
                      /\ kept_without_gdp anchor later ar df)
           later anchor joined).
  - repeat split; try assumption. exists []. rewrite app_nil_r.
    repeat split; auto.
    unfold lookup. apply index_of_none in Hnopib. rewrite Hnopib. reflexivity.
  - intros df t t' df1 Hin (Hdf & Hidf & x & Hx & Hnull & Hkeep) Hc Hm.
    rewrite Forall_forall in Hrects.
    pose proof (coerce_key_rectangular env t t' (Hrects t Hin) Hc) as Hrt'.
    apply coerce_key_inv in Hc. destruct Hc as (j & Hj & Hcols & Hrows).
    assert (Hj' : index_of CodMunIBGE (columns t') = Some j) by now rewrite Hcols.
    destruct (merge_left_shape df t' df1 i j Hdf Hrt' Hidf Hj' Hm) as [Hr1 Hi1].
    split; [exact Hr1|]. split; [exact Hi1|].
    pose proof (merge_left_rows CodMunIBGE df t' df1 i j Hidf Hj' Hm) as Hrows1.
    pose proof Hm as Hm'. apply merge_left_inv in Hm'.
    destruct Hm' as (i' & j' & Hi' & Hj'' & _ & Hcols1 & _).
    rewrite Hidf in Hi'. rewrite Hj' in Hj''.
    injection Hi' as <-. injection Hj'' as <-.
    assert (Hlen : List.length (ar ++ x) = List.length (columns df)).
    { unfold rectangular in Hdf. rewrite Forall_forall in Hdf. now apply Hdf. }
    assert (Hk : at_ i (ar ++ x) = CStr code)
      by (rewrite at_app_l by exact Hw; exact Hcode).
    (* the descendant of the row in the merged table *)
    assert (Hdesc : exists tail,
               In ((ar ++ x) ++ tail) (rows df1)
               /\ (has_col PIB (columns t) = true ->
                   tail = repeat NaN (List.length (remove_at j (columns t'))))).
    { destruct (matches i j (ar ++ x) (rows t')) as [|rrow ms] eqn:E.
      - exists (repeat NaN (List.length (remove_at j (columns t')))).
        split; [|reflexivity].
        apply Hrows1. exists (ar ++ x). split; [exact Hx|]. left. auto.
      - exists (map upcast (combine (join_flags i j df t') (remove_at j rrow))).
        split.
        + apply Hrows1. exists (ar ++ x). split; [exact Hx|]. right.
          exists rrow. split; [rewrite E; now left | reflexivity].
        + intros Hpib. exfalso.
          assert (Hnm : matches i j (ar ++ x) (rows t') = []).
          { apply (no_match env t t' i j (ar ++ x) (Hrects t Hin) Hj Hrows).
            intros s0 Es. rewrite Hk in Es. injection Es as <-.
            now apply Habsent. }
          rewrite Hnm in E. discriminate. }
    destruct Hdesc as (tail & Htail & Hnan).
    exists (x ++ tail). rewrite app_assoc. split; [exact Htail|]. split.
    + destruct (has_col PIB (columns t)) eqn:Hp.
      * rewrite (Hnan eq_refl).
        rewrite (merged_lookup_nan df t' df1 j (ar ++ x) _ PIB); auto.
        -- discriminate.
        -- now rewrite Hcols.
      * rewrite (merged_lookup_untouched df t' df1 j (ar ++ x) tail PIB); auto.
        now rewrite Hcols.
    + intros c Hc Hnone.
      rewrite (merged_lookup_untouched df t' df1 j (ar ++ x) tail c); auto.
      * apply plain_series. now right.
      * rewrite Hcols. now apply Hnone.
  - exact Hloop.
Qed.

Lemma sample_run_variant :
  variant_returns offline folders (with_tables sample_tables) sample_unified_variant.
Proof.
  exists "CleanData.csv". eexists. vm_compute. reflexivity.
Qed.

Lemma lookup_code cols r i :
  index_of CodMunIBGE cols = Some i -> lookup cols r CodMunIBGE = at_ i r.
Proof. intros H. unfold lookup. now rewrite H. Qed.

(** C6 (as the code has it). Take an anchor row whose code is text and is
    listed by no later table that carries a GDP column, the anchor carrying
    none itself.  [backend.py] returns a row for that code with a null GDP,
    flagged 'incomplete', in which every other series column that no later
    table carries reads as in the anchor.  [maybev2v1.py] keeps a row only
    if the joined row it stems from holds no null at all. *)
Theorem missing_gdp_row env cfg s df anchor later ar code :
  join_list s = anchor :: later ->
  Forall rectangular (anchor :: later) ->
  In ar (rows anchor) ->
  lookup (columns anchor) ar CodMunIBGE = CStr code ->
  has_col PIB (columns anchor) = false ->
  (forall t, In t later -> has_col PIB (columns t) = true ->
             ~ In code (text_codes env t)) ->
  (backend_returns env cfg s df ->
   exists r,
     In r (rows df)
     /\ value df r CodMunIBGE = CStr code
     /\ isnull (value df r PIB) = true
     /\ value df r data_status = CStr "incomplete"
     /\ forall c, In c other_series ->
                  (forall t, In t later -> has_col c (columns t) = false) ->
                  value df r c = lookup (columns anchor) ar c)
  /\
  (variant_returns env cfg s df ->
   exists joined,
     snd (join_loop env anchor later) = Ret joined
     /\ forall r, In r (rows df) ->
          exists jr, In jr (rows joined)
                     /\ forallb notnull jr = true
                     /\ value df r CodMunIBGE = lookup (columns joined) jr CodMunIBGE).
Proof.
  intros Hjl Hrects Har Hcode Hnopib Habsent.
  inversion Hrects as [|a l Hrect Hrects']; subst.
  destruct (index_of CodMunIBGE (columns anchor)) as [i|] eqn:Hi.
  2:{ unfold lookup in Hcode. rewrite Hi in Hcode. discriminate. }
  rewrite (lookup_code _ _ i Hi) in Hcode.
  split.
  - intros Hret.
    apply backend_returns_unify, backend_unify_joined in Hret.
    destruct Hret as (anchor' & later' & joined & Hjl' & Hloop & Hd).
    rewrite Hjl in Hjl'. injection Hjl' as <- <-.
    destruct (join_loop_keeps_row env anchor later joined i ar code
                Hrect Hi Hrects' Har Hcode Hnopib Habsent Hloop)
      as (Hrj & Hij & x & Hx & Hnull & Hkeep).
    apply backend_derive_rows in Hd. destruct Hd as (_ & _ & Hc & HF).
    assert (Hin : In (pick (columns joined) (ar ++ x)) (arranged joined))
      by (apply arranged_in; eauto).
    destruct (Forall2_in_l _ _ _ _ HF Hin) as (r & Hr & q & _ & ->).
    eexists. split; [exact Hr|].
    unfold value. rewrite Hc.
    assert (Hw : (i < List.length ar)%nat)
      by exact (rectangular_wide anchor CodMunIBGE i ar Hrect Hi Har).
    repeat split.
    + change (lookup (columns joined) (ar ++ x) CodMunIBGE = CStr code).
      rewrite (lookup_code _ _ i Hij), at_app_l by exact Hw. exact Hcode.
    + exact Hnull.
    + change (Backend.status_of (lookup (columns joined) (ar ++ x) IDHM)
                (lookup (columns joined) (ar ++ x) PIB)
                (lookup (columns joined) (ar ++ x) Receitas) = CStr "incomplete").
      unfold Backend.status_of, Backend.present, notnull. rewrite Hnull.
      cbn [negb andb]. rewrite andb_false_r. reflexivity.
    + intros c Hcin Hnone. rewrite <- (Hkeep c Hcin Hnone).
      simpl in Hcin.
      repeat (destruct Hcin as [<-|Hcin]; [reflexivity|]). contradiction.
  - intros Hret.
    apply variant_returns_unify, variant_unify_joined in Hret.
    destruct Hret as (anchor' & later' & joined & Hjl' & Hloop & Hd).
    rewrite Hjl in Hjl'. injection Hjl' as <- <-.
    exists joined. split; [exact Hloop|].
    apply variant_derive_rows in Hd. destruct Hd as (_ & _ & Hc & HF).
    intros r Hr.
    destruct (Forall2_in_r _ _ _ _ HF Hr) as (r0 & Hr0 & q & _ & ->).
    apply arranged_in in Hr0. destruct Hr0 as (jr & Hjr & ->).
    simpl in Hjr. apply filter_In in Hjr. destruct Hjr as [Hjr Hnn].
    exists jr. repeat split; auto.
    unfold value. rewrite Hc. reflexivity.
Qed.

Lemma missing_gdp_row_witness :
  exists r,
    In r (rows sample_unified)
    /\ value sample_unified r CodMunIBGE = CStr "5938"
    /\ isnull (value sample_unified r PIB) = true
    /\ value sample_unified r data_status = CStr "incomplete".
Proof.
  destruct (missing_gdp_row offline folders (with_tables sample_tables) sample_unified
              pop_table [gdp_table; rev_table; idhm_table]
              [CStr "5938"; CInt 100] "5938") as [Hb _].
  - reflexivity.
  - repeat constructor.
  - left. reflexivity.
  - reflexivity.
  - reflexivity.
  - intros t [<-|[<-|[<-|[]]]] Hp; try discriminate Hp.
    simpl. intuition discriminate.
  - destruct (Hb sample_run_backend) as (r & Hr & Hk & Hn & Hs & _).
    exists r. auto.
Defined.

(** C6 as stated fails on [maybev2v1.py]: code 5938 is in the anchor and in
    no GDP table, and the returned table has no row for it. *)
Lemma variant_drops_missing_gdp_row :
  variant_returns offline folders (with_tables sample_tables) sample_unified_variant
  /\ In (CStr "5938") (codes pop_table)
  /\ ~ In "5938" (text_codes offline gdp_table)
  /\ ~ In (CStr "5938") (codes sample_unified_variant).
Proof.
  split; [exact sample_run_variant|].
  split; [left; reflexivity|].
  split; simpl; intuition discriminate.
Qed.

(** ** Labelled rows *)

Lemma lookup_alookup cols r c :
  List.length r = List.length cols -> lookup cols r c = alookup c (combine cols r).
Proof.
  unfold lookup, at_. revert r.
  induction cols as [|d cols IH]; intros r Hlen; [reflexivity|].
  destruct r as [|v r]; [discriminate|]. cbn [index_of combine alookup].
  destruct (String.eqb c d); [reflexivity|].
  injection Hlen as Hlen. rewrite <- (IH r Hlen).
  destruct (index_of c cols); reflexivity.
Qed.

Lemma alookup_not_in c l : ~ In c (map fst l) -> alookup c l = NaN.
Proof.
  induction l as [|[d v] l IH]; simpl; intros H; [reflexivity|].
  destruct (String.eqb c d) eqn:E.
  - apply String.eqb_eq in E. subst. exfalso. apply H. now left.
  - apply IH. intros Hin. apply H. now right.
Qed.


Lemma combine_app_eq {A B : Type} (l1 l2 : list A) (r1 r2 : list B) :
  List.length l1 = List.length r1 ->
  combine (l1 ++ l2) (r1 ++ r2) = combine l1 r1 ++ combine l2 r2.
Proof.
  revert r1. induction l1 as [|a l1 IH]; intros r1 H; destruct r1; simpl in *;
    try discriminate; [reflexivity|]. f_equal. apply IH. now injection H.
Qed.

Lemma combine_flat_map {A : Type} (f : A -> list string) (g : A -> list cell) l :
  (forall a, In a l -> List.length (f a) = List.length (g a)) ->
  combine (flat_map f l) (flat_map g l)
  = flat_map (fun a => combine (f a) (g a)) l.
Proof.
  induction l as [|a l IH]; intros H; [reflexivity|]. simpl.
  rewrite combine_app_eq by (apply H; now left).
  rewrite IH by (intros; apply H; now right). reflexivity.
Qed.

Lemma flat_map_perm {A B : Type} (f : A -> list B) l l' :
  Permutation l l' -> Permutation (flat_map f l) (flat_map f l').
Proof.
  induction 1; simpl.
  - reflexivity.
  - now apply Permutation_app_head.
  - rewrite !app_assoc. apply Permutation_app_tail, Permutation_app_comm.
  - etransitivity; eauto.
Qed.

Lemma map_fst_combine {A B : Type} (l : list A) (r : list B) :
  List.length l = List.length r -> map fst (combine l r) = l.
Proof.
  revert r. induction l as [|a l IH]; intros r H; destruct r; simpl in *;
    try discriminate; [reflexivity|]. f_equal. apply IH. now injection H.
Qed.

(** ** The join without label clashes *)

Lemma map_suffixed_id on others sfx cols :
  (forall c, In c cols -> ~ In c others) ->
  map (suffixed on others sfx) cols = cols.
Proof.
  intros H. rewrite <- (map_id cols) at 2. apply map_ext_in. intros c Hc.
  unfold suffixed. replace (has_col c others) with false.
  - now rewrite andb_false_r.
  - symmetry. apply has_col_false. now apply H.
Qed.

Lemma new_dups_same cols : forall seen, new_dups seen seen cols cols = false.
Proof.
  induction cols as [|c cols IH]; intros seen; [reflexivity|].
  cbn [new_dups]. rewrite IH, orb_false_r.
  destruct (has_col c seen); reflexivity.
Qed.

Lemma merge_left_plain l r i j :
  index_of CodMunIBGE (columns l) = Some i ->
  index_of CodMunIBGE (columns r) = Some j ->
  keys_refused (map (at_ i) (rows l)) (map (at_ j) (rows r)) = false ->
  (forall c, In c (columns l) -> ~ In c (remove_at j (columns r))) ->
  exists df,
    merge_left CodMunIBGE l r = Ret df
    /\ columns df = columns l ++ remove_at j (columns r).
Proof.
  intros Hi Hj Hk Hdis. unfold merge_left. rewrite Hi, Hj, Hk.
  rewrite (map_suffixed_id CodMunIBGE (remove_at j (columns r)) "_x" (columns l))
    by exact Hdis.
  rewrite (map_suffixed_id CodMunIBGE (columns l) "_y" (remove_at j (columns r))).
  2:{ intros c Hc Hl. exact (Hdis c Hl Hc). }
  rewrite !new_dups_same. cbn [orb]. eexists. split; reflexivity.
Qed.

Lemma coerce_key_total env t j :
  index_of CodMunIBGE (columns t) = Some j ->
  coerce_key env t
  = Ret (mkDF (columns t)
           (map (fun r => put_at j (astype_str env (at_ j r)) r) (rows t))).
Proof.
  intros Hj. unfold coerce_key.
  now rewrite (map_column_total CodMunIBGE _ (astype_str env) t j Hj)
    by (intros; reflexivity).
Qed.

Lemma existsb_map_in {A B : Type} (f : B -> bool) (f' : A -> bool) (g : A -> B) l :
  (forall a, In a l -> f (g a) = f' a) -> existsb f (map g l) = existsb f' l.
Proof.
  induction l as [|a l IH]; intros H; [reflexivity|]. simpl.
  rewrite (H a (or_introl eq_refl)), IH; [reflexivity|].
  intros; apply H; now right.
Qed.

Lemma matches_prefix i j (ar x : list cell) rs :
  (i < List.length ar)%nat -> matches i j (ar ++ x) rs = matches i j ar rs.
Proof. intros H. unfold matches. now rewrite at_app_l. Qed.

(** The cells a later table contributes depend on the running table only
    through the anchor's code column. *)
Lemma join_tail_anchor i j l anchor r X ar :
  rows l = map (fun a => a ++ X a) (rows anchor) ->
  (forall a, In a (rows anchor) -> (i < List.length a)%nat) ->
  (i < List.length ar)%nat ->
  join_tail i j l r (ar ++ X ar) = join_tail i j anchor r ar.
Proof.
  intros Hrows Hw Har. unfold join_tail.
  rewrite matches_prefix by exact Har.
  assert (Hf : join_flags i j l r = join_flags i j anchor r).
  { unfold join_flags. rewrite Hrows.
    rewrite (existsb_map_in _
               (fun lrow => match matches i j lrow (rows r) with
                            | [] => true | _ => false end)).
    - reflexivity.
    - intros a Ha. now rewrite matches_prefix by (apply Hw; exact Ha). }
  now rewrite Hf.
Qed.

(** One iteration keeps the anchor's code column. *)
Lemma join_step_codes env i df t t' df1 :
  rectangular t -> NoDup (text_codes env t) ->
  rectangular df ->
  index_of CodMunIBGE (columns df) = Some i ->
  coerce_key env t = Ret t' ->
  merge_left CodMunIBGE df t' = Ret df1 ->
  exists j,
    index_of CodMunIBGE (columns t) = Some j
    /\ rectangular t'
    /\ index_of CodMunIBGE (columns t') = Some j
    /\ rectangular df1
    /\ index_of CodMunIBGE (columns df1) = Some i
    /\ rows df1 = map (fun lrow => lrow ++ join_tail i j df t' lrow) (rows df).
Proof.
  intros Hrt Hnd Hdf Hidf Hc Hm.
  pose proof (coerce_key_rectangular env t t' Hrt Hc) as Hrt'.
  apply coerce_key_inv in Hc. destruct Hc as (j & Hj & Hcols & Hrows).
  assert (Hj' : index_of CodMunIBGE (columns t') = Some j) by now rewrite Hcols.
  pose proof (coerce_key_codes env t t' j Hrt Hj Hrows) as Hcodes.
  destruct (merge_left_shape df t' df1 i j Hdf Hrt' Hidf Hj' Hm) as [Hr1 Hi1].
  exists j. repeat split; auto.
  apply (merge_left_unique CodMunIBGE df t' df1 i j Hidf Hj' Hm).
  - rewrite Hcodes. now apply NoDup_map_CStr.
  - rewrite Hcodes. apply Forall_map_CStr.
Qed.

Lemma NoDup_app_disjoint {A : Type} (l1 l2 : list A) :
  NoDup (l1 ++ l2) -> forall c, In c l1 -> ~ In c l2.
Proof.
  induction l1 as [|a l1 IH]; simpl; intros H c Hc; [contradiction|].
  inversion H as [|x xs Hnotin Hnd]; subst.
  destruct Hc as [->|Hc].
  - intros H2. apply Hnotin. apply in_or_app. now right.
  - now apply IH.
Qed.

Lemma rows_form_codes i (anchor l : DataFrame) X :
  rows l = map (fun ar => ar ++ X ar) (rows anchor) ->
  (forall a, In a (rows anchor) -> (i < List.length a)%nat) ->
  map (at_ i) (rows l) = map (at_ i) (rows anchor).
Proof.
  intros Hrows Hw. rewrite Hrows, map_map. apply map_ext_in.
  intros a Ha. apply at_app_l. now apply Hw.
Qed.

Lemma coerced_total env t j :
  index_of CodMunIBGE (columns t) = Some j ->
  coerced env t
  = mkDF (columns t) (map (fun r => put_at j (astype_str env (at_ j r)) r) (rows t)).
Proof. intros Hj. unfold coerced. now rewrite (coerce_key_total env t j Hj). Qed.

(** The joined table in closed form. *)
Lemma join_loop_closed env anchor i :
  (forall a, In a (rows anchor) -> (i < List.length a)%nat) ->
  forall later l X,
    rectangular l ->
    index_of CodMunIBGE (columns l) = Some i ->
    rows l = map (fun ar => ar ++ X ar) (rows anchor) ->
    Forall rectangular later ->
    Forall (fun t => NoDup (text_codes env t)) later ->
    NoDup (columns l ++ flat_map nonkey later) ->
    Forall (joinable env anchor i) later ->
    snd (join_loop env l later)
    = Ret (mkDF (columns l ++ flat_map nonkey later)
             (map (fun ar => ar ++ X ar
                               ++ flat_map (fun t => tail_of env anchor i t ar) later)
                  (rows anchor))).
Proof.
  intros Hw. induction later as [|t rest IH];
    intros l X Hl Hil Hrows Hrects Hnds Hlabels Hjoin.
  - cbn [join_loop snd flat_map]. f_equal. destruct l as [cols rs].
    cbn [columns rows] in *. rewrite app_nil_r. f_equal. rewrite Hrows.
    apply map_ext. intros a. now rewrite app_nil_r.
  - inversion Hrects as [|? ? Hrt Hrects']; subst.
    inversion Hnds as [|? ? Hnd Hnds']; subst.
    inversion Hjoin as [|? ? (j & Hj & Hk) Hjoin']; subst.
    rewrite (coerced_total env t j Hj) in Hk.
    pose proof (coerce_key_total env t j Hj) as Hc.
    set (t0 := mkDF (columns t)
                 (map (fun r => put_at j (astype_str env (at_ j r)) r) (rows t))) in *.
    assert (Hnk : nonkey t = remove_at j (columns t))
      by (unfold nonkey; now rewrite Hj).
    cbn [flat_map] in Hlabels. rewrite Hnk in Hlabels.
    destruct (merge_left_plain l t0 i j Hil Hj) as (df1 & Hm & Hcols1).
    + rewrite (rows_form_codes i anchor l X Hrows Hw). exact Hk.
    + intros c Hcin Hin. revert Hcin.
      rewrite app_assoc in Hlabels.
      apply NoDup_app_remove_r in Hlabels.
      intros Hcin. exact (NoDup_app_disjoint _ _ Hlabels c Hcin Hin).
    + destruct (join_step_codes env i l t t0 df1 Hrt Hnd Hl Hil Hc Hm)
        as (j' & Hj' & Hrt0 & _ & Hr1 & Hi1 & Hrows1).
      rewrite Hj in Hj'. injection Hj' as <-.
      assert (Hrows1' : rows df1
                        = map (fun ar => ar ++ (X ar ++ tail_of env anchor i t ar))
                              (rows anchor)).
      { rewrite Hrows1, Hrows, map_map. apply map_ext_in. intros a Ha.
        rewrite (join_tail_anchor i j l anchor t0 X a Hrows Hw (Hw a Ha)).
        unfold tail_of. rewrite Hj, (coerced_total env t j Hj).
        now rewrite app_assoc. }
      specialize (IH df1 (fun ar => X ar ++ tail_of env anchor i t ar)
                    Hr1 Hi1 Hrows1' Hrects' Hnds').
      cbn [columns] in Hcols1. rewrite Hcols1 in IH.
      rewrite app_assoc in Hlabels. specialize (IH Hlabels Hjoin').
      cbn [join_loop]. rewrite Hc, Hm.
      destruct (join_loop env df1 rest) as [rest' r]. cbn [snd] in *.
      rewrite IH. f_equal. cbn [flat_map]. rewrite Hnk, app_assoc. f_equal.
      apply map_ext. intros a. now rewrite !app_assoc.
Qed.

(** A loop that succeeded found every later table joinable. *)
Lemma join_loop_joinable env anchor i :
  (forall a, In a (rows anchor) -> (i < List.length a)%nat) ->
  forall later l joined,
    rectangular l ->
    index_of CodMunIBGE (columns l) = Some i ->
    map (at_ i) (rows l) = map (at_ i) (rows anchor) ->
    Forall rectangular later ->
    Forall (fun t => NoDup (text_codes env t)) later ->
    snd (join_loop env l later) = Ret joined ->
    Forall (joinable env anchor i) later.
Proof.
  intros Hw. induction later as [|t rest IH];
    intros l joined Hl Hil Hkeys Hrects Hnds; [constructor|].
  inversion Hrects as [|? ? Hrt Hrects']; subst.
  inversion Hnds as [|? ? Hnd Hnds']; subst.
  cbn [join_loop].
  destruct (coerce_key env t) as [t'|e] eqn:Hc; cbn [snd]; [|discriminate].
  destruct (merge_left CodMunIBGE l t') as [df1|e] eqn:Hm; cbn [snd]; [|discriminate].
  destruct (join_step_codes env i l t t' df1 Hrt Hnd Hl Hil Hc Hm)
    as (j & Hj & Hrt' & Hj' & Hr1 & Hi1 & Hrows1).
  destruct (join_loop env df1 rest) as [rest' r] eqn:Hloop. cbn [snd].
  intros Hr. constructor.
  - exists j. split; [exact Hj|].
    unfold coerced. rewrite Hc.
    apply merge_left_inv in Hm.
    destruct Hm as (i' & j' & Hi' & Hj'' & Hk & _).
    rewrite Hil in Hi'. rewrite Hj' in Hj''.
    injection Hi' as <-. injection Hj'' as <-.
    now rewrite <- Hkeys.
  - apply (IH df1 joined Hr1 Hi1); auto.
    + rewrite Hrows1, <- Hkeys, map_map. apply map_ext_in. intros lrow Hin.
      apply at_app_l. exact (rectangular_wide l CodMunIBGE i lrow Hl Hil Hin).
    + rewrite Hloop. exact Hr.
Qed.

(** ** Permuting the later tables *)


Lemma length_flat_map_eq {A : Type} (f : A -> list string) (g : A -> list cell) l :
  (forall a, In a l -> List.length (f a) = List.length (g a)) ->
  List.length (flat_map f l) = List.length (flat_map g l).
Proof.
  induction l as [|a l IH]; intros H; [reflexivity|]. simpl.
  rewrite !length_app, (H a (or_introl eq_refl)), IH; [reflexivity|].
  intros; apply H; now right.
Qed.

Lemma length_tail_of env anchor i t ar :
  rectangular t -> joinable env anchor i t ->
  List.length (nonkey t) = List.length (tail_of env anchor i t ar).
Proof.
  intros Hrt (j & Hj & _). unfold nonkey, tail_of. rewrite Hj.
  assert (Hrc : rectangular (coerced env t)).
  { apply (coerce_key_rectangular env t); [exact Hrt|].
    rewrite (coerced_total env t j Hj). now apply coerce_key_total. }
  rewrite length_join_tail; auto.
  - now rewrite (coerced_total env t j Hj).
  - rewrite (coerced_total env t j Hj). cbn [columns]. now apply index_of_lt in Hj.
Qed.


(** The closed form of the joined table, from the anchor on. *)
Lemma join_loop_closed_anchor env anchor i later :
  rectangular anchor ->
  index_of CodMunIBGE (columns anchor) = Some i ->
  Forall rectangular later ->
  Forall (fun t => NoDup (text_codes env t)) later ->
  distinct_labels anchor later ->
  Forall (joinable env anchor i) later ->
  snd (join_loop env anchor later)
  = Ret (mkDF (joined_columns anchor later) (joined_rows env anchor i later)).
Proof.
  intros Hrect Hi Hrects Hnds Hlabels Hjoin.
  assert (Hw : forall a, In a (rows anchor) -> (i < List.length a)%nat)
    by (intros a Ha; exact (rectangular_wide anchor CodMunIBGE i a Hrect Hi Ha)).
  rewrite (join_loop_closed env anchor i Hw later anchor (fun _ => [])); auto.
  rewrite <- (map_id (rows anchor)) at 1. apply map_ext. intros a.
  now rewrite app_nil_r.
Qed.





(** Both orders of the later tables lead the loop to its closed form. *)
Lemma join_loop_perm env anchor i later later' joined :
  rectangular anchor ->
  index_of CodMunIBGE (columns anchor) = Some i ->
  Forall rectangular later ->
  Forall (fun t => NoDup (text_codes env t)) later ->
  distinct_labels anchor later ->
  Permutation later later' ->
  snd (join_loop env anchor later) = Ret joined ->
  Forall (joinable env anchor i) later
  /\ joined = mkDF (joined_columns anchor later) (joined_rows env anchor i later)
  /\ snd (join_loop env anchor later')
     = Ret (mkDF (joined_columns anchor later') (joined_rows env anchor i later')).
Proof.
  intros Hrect Hi Hrects Hnds Hlabels Hperm Hloop.
  assert (Hw : forall a, In a (rows anchor) -> (i < List.length a)%nat)
    by (intros a Ha; exact (rectangular_wide anchor CodMunIBGE i a Hrect Hi Ha)).
  assert (Hjoin : Forall (joinable env anchor i) later)
    by (exact (join_loop_joinable env anchor i Hw later anchor joined Hrect Hi
                 eq_refl Hrects Hnds Hloop)).
  split; [exact Hjoin|]. split.
  - rewrite (join_loop_closed_anchor env anchor i later Hrect Hi Hrects Hnds
               Hlabels Hjoin) in Hloop.
    now injection Hloop.
  - apply join_loop_closed_anchor; auto.
    + eapply Permutation_Forall; eauto.
    + eapply Permutation_Forall; eauto.
    + unfold distinct_labels, joined_columns in *.
      eapply Permutation_NoDup; [|exact Hlabels].
      apply Permutation_app_head. now apply flat_map_perm.
    + eapply Permutation_Forall; eauto.
Qed.



(** ** The anchor decides the rows *)











(** ** What a run accumulates, job by job *)

Lemma backend_process_data_appends env cfg series year filename r_code s :
  exists s',
    Backend.process_data env cfg series year filename r_code s = (Ret tt, s')
    /\ join_list s'
       = join_list s
         ++ option_list (normalised env cfg (Backend.transform env)
                           "IDHM_2010.parquet" (series, year, filename, r_code)).
Proof.
  unfold Backend.process_data, Backend.bronze_fetch, Backend.silver_transform,
    Backend.saving_step, normalised, request_of.
  unfold_effects.
  destruct (provider env _) as [raw|e]; simpl.
  - destruct (persist env (bronze_folder cfg) filename raw); simpl.
    + eexists. split; [reflexivity|]. simpl. now rewrite app_nil_r.
    + destruct (Backend.transform env raw filename) as [d|e]; simpl.
      * destruct (persist env (silver_folder cfg) filename d); simpl;
          eexists; (split; [reflexivity|]); simpl; now rewrite ?app_nil_r.
      * eexists. split; [reflexivity|]. simpl. now rewrite app_nil_r.
  - eexists. split; [reflexivity|]. simpl. now rewrite app_nil_r.
Qed.

Lemma variant_process_data_appends env cfg series year filename r_code s :
  exists s',
    MaybeV2V1.process_data env cfg series year filename r_code s = (Ret tt, s')
    /\ join_list s'
       = join_list s
         ++ option_list (normalised env cfg (MaybeV2V1.transform env)
                           "IDHM_2010.csv" (series, year, filename, r_code)).
Proof.
  unfold MaybeV2V1.process_data, MaybeV2V1.bronze_fetch, MaybeV2V1.silver_transform,
    MaybeV2V1.saving_step, normalised, request_of.
  unfold_effects.
  destruct (provider env _) as [raw|e]; simpl.
  - destruct (persist env (bronze_folder cfg) filename raw); simpl.
    + eexists. split; [reflexivity|]. simpl. now rewrite app_nil_r.
    + destruct (MaybeV2V1.transform env raw filename) as [d|e]; simpl.
      * destruct (persist env (silver_folder cfg) filename d); simpl;
          eexists; (split; [reflexivity|]); simpl; now rewrite ?app_nil_r.
      * eexists. split; [reflexivity|]. simpl. now rewrite app_nil_r.
  - eexists. split; [reflexivity|]. simpl. now rewrite app_nil_r.
Qed.

Lemma backend_for_each_appends env cfg l :
  forall s, exists s',
    Backend.for_each env cfg l s = (Ret tt, s')
    /\ join_list s'
       = join_list s
         ++ flat_map (fun j => option_list (normalised env cfg (Backend.transform env)
                                             "IDHM_2010.parquet" j))
              (map (fun x => (fst (fst x), snd (fst x), snd x, None)) l).
Proof.
  induction l as [|[[series year] filename] l IH]; intros s.
  - exists s. split; [reflexivity|]. simpl. now rewrite app_nil_r.
  - cbn [Backend.for_each map flat_map fst snd].
    destruct (backend_process_data_appends env cfg series year filename None s)
      as (s1 & H1 & J1).
    unfold bind at 1. rewrite H1.
    unfold bind at 1. unfold logging at 1.
    match goal with
    | |- context [Backend.for_each env cfg l ?s0] =>
        destruct (IH s0) as (s2 & H2 & J2)
    end.
    exists s2. split; [exact H2|]. rewrite J2. simpl. rewrite J1.
    now rewrite <- app_assoc.
Qed.

Lemma variant_for_each_appends env cfg l :
  forall s, exists s',
    MaybeV2V1.for_each env cfg l s = (Ret tt, s')
    /\ join_list s'
       = join_list s
         ++ flat_map (fun j => option_list (normalised env cfg (MaybeV2V1.transform env)
                                             "IDHM_2010.csv" j))
              (map (fun x => (fst (fst x), snd (fst x), snd x, None)) l).
Proof.
  induction l as [|[[series year] filename] l IH]; intros s.
  - exists s. split; [reflexivity|]. simpl. now rewrite app_nil_r.
  - cbn [MaybeV2V1.for_each map flat_map fst snd].
    destruct (variant_process_data_appends env cfg series year filename None s)
      as (s1 & H1 & J1).
    unfold bind at 1. rewrite H1.
    destruct (IH s1) as (s2 & H2 & J2).
    exists s2. split; [exact H2|]. rewrite J2, J1.
    now rewrite <- app_assoc.
Qed.

(** Once the folders exist, the five attempts leave in the accumulator what
    was there before, followed by the normalised tables of the jobs that
    went through, in the order [main] runs them: GDP, current revenue,
    population, municipality registry, human development.  A job that fails
    at any step contributes nothing and does not affect the others.  Both
    variants. *)
Theorem attempts_accumulate env cfg s :
  makedirs env = None ->
  (exists s',
      Backend.attempts env cfg s = (Ret tt, s')
      /\ join_list s'
         = join_list s
           ++ flat_map (fun j => option_list (normalised env cfg (Backend.transform env)
                                               "IDHM_2010.parquet" j)) backend_jobs)
  /\
  (exists s',
      MaybeV2V1.attempts env cfg s = (Ret tt, s')
      /\ join_list s'
         = join_list s
           ++ flat_map (fun j => option_list (normalised env cfg (MaybeV2V1.transform env)
                                               "IDHM_2010.csv" j)) variant_jobs).
Proof.
  intros Hm. split.
  - unfold Backend.attempts, Backend.create_folders, backend_jobs.
    unfold bind at 1. unfold bind at 1. unfold lift, guard. rewrite Hm.
    unfold logging at 1. unfold bind at 1.
    match goal with
    | |- context [Backend.for_each env cfg ?l ?s0] =>
        destruct (backend_for_each_appends env cfg l s0) as (s1 & H1 & J1)
    end.
    rewrite H1.
    destruct (backend_process_data_appends env cfg None None "IDHM_2010.parquet"
                (Some Backend.r_code) s1) as (s2 & H2 & J2).
    exists s2. split; [exact H2|]. rewrite J2, J1. cbn [join_list].
    rewrite flat_map_app. cbn [flat_map]. now rewrite app_nil_r, app_assoc.
  - unfold MaybeV2V1.attempts, MaybeV2V1.create_folders, variant_jobs.
    unfold bind at 1. unfold lift, guard. rewrite Hm.
    unfold bind at 1.
    match goal with
    | |- context [MaybeV2V1.for_each env cfg ?l ?s0] =>
        destruct (variant_for_each_appends env cfg l s0) as (s1 & H1 & J1)
    end.
    rewrite H1.
    destruct (variant_process_data_appends env cfg None None "IDHM_2010.csv"
                (Some Backend.r_code) s1) as (s2 & H2 & J2).
    exists s2. split; [exact H2|]. rewrite J2, J1.
    rewrite flat_map_app. cbn [flat_map]. now rewrite app_nil_r, app_assoc.
Qed.

Lemma attempts_accumulate_witness :
  makedirs partly_online = None
  /\ exists s',
       Backend.attempts partly_online folders fresh = (Ret tt, s')
       /\ join_list s' = [pop_normalised; registry_normalised].
Proof.
  split; [reflexivity|].
  destruct (attempts_accumulate partly_online folders fresh eq_refl)
    as [(s' & Hrun & Hjl) _].
  exists s'. split; [exact Hrun|]. rewrite Hjl. vm_compute. reflexivity.
Defined.

(** ** What can stop [main] *)

(** [create_folders] has no handler: when the folders cannot be created,
    [main] stops with that exception before anything is fetched, logged or
    stored.  Both variants. *)
Theorem main_needs_folders env cfg s e :
  makedirs env = Some e ->
  Backend.main env cfg s = (Raise e, s)
  /\ MaybeV2V1.main env cfg s = (Raise e, s).
Proof.
  intros Hm.
  unfold Backend.main, Backend.attempts, Backend.create_folders,
    MaybeV2V1.main, MaybeV2V1.attempts, MaybeV2V1.create_folders.
  unfold bind, lift, guard. rewrite Hm. split; reflexivity.
Qed.

Lemma main_needs_folders_witness :
  Backend.main no_disk folders fresh
  = (Raise (ExternalError "read-only file system"), fresh)
  /\ MaybeV2V1.main no_disk folders fresh
     = (Raise (ExternalError "read-only file system"), fresh).
Proof.
  exact (main_needs_folders no_disk folders fresh
           (ExternalError "read-only file system") eq_refl).
Defined.



(** ** Finalising twice *)

Lemma put_at_short {A : Type} i (v : A) (r : list A) :
  (List.length r <= i)%nat -> put_at i v r = r.
Proof.
  revert i. induction r as [|a r IH]; intros i H; destruct i; simpl in *;
    try reflexivity; try lia.
  rewrite IH by lia. reflexivity.
Qed.

Lemma coerce_cell_twice env j r :
  put_at j (astype_str env (at_ j (put_at j (astype_str env (at_ j r)) r)))
    (put_at j (astype_str env (at_ j r)) r)
  = put_at j (astype_str env (at_ j r)) r.
Proof.
  destruct (Nat.lt_ge_cases j (List.length r)) as [Hlt|Hge].
  - rewrite at_put_at_same by exact Hlt. rewrite put_at_twice. reflexivity.
  - rewrite !(put_at_short j _ r Hge). reflexivity.
Qed.

(** Making the codes text a second time changes nothing. *)
Lemma coerce_key_twice env t t' :
  coerce_key env t = Ret t' -> coerce_key env t' = Ret t'.
Proof.
  intros H. destruct (coerce_key_inv env t t' H) as (j & Hj & Hcols & Hrows).
  rewrite <- Hcols in Hj. rewrite (coerce_key_total env t' j Hj).
  destruct t' as [cols' rows']. cbn [columns rows] in *. f_equal. f_equal.
  rewrite Hrows, map_map. apply map_ext. intros r. apply coerce_cell_twice.
Qed.

(** The loop run again over the accumulator it left behind does what it did
    the first time. *)
Lemma join_loop_twice env todo :
  forall df, join_loop env df (fst (join_loop env df todo)) = join_loop env df todo.
Proof.
  induction todo as [|t rest IH]; intros df; [reflexivity|].
  cbn [join_loop].
  destruct (coerce_key env t) as [t'|e] eqn:Hc.
  - destruct (merge_left CodMunIBGE df t') as [df'|e] eqn:Hm.
    + specialize (IH df').
      destruct (join_loop env df' rest) as [rest' r] eqn:Hl.
      cbn [fst join_loop]. rewrite (coerce_key_twice env t t' Hc), Hm.
      cbn [fst] in IH. rewrite IH. reflexivity.
    + cbn [fst join_loop]. rewrite (coerce_key_twice env t t' Hc), Hm. reflexivity.
  - cbn [fst join_loop]. rewrite Hc. reflexivity.
Qed.

Lemma dropna_twice df : dropna (dropna df) = dropna df.
Proof.
  unfold dropna. cbn [columns rows]. f_equal.
  induction (rows df) as [|r rs IH]; simpl; [reflexivity|].
  destruct (forallb notnull r) eqn:E; simpl; [rewrite E; now f_equal | exact IH].
Qed.

Lemma join_loop_some env t rest df :
  fst (join_loop env df (t :: rest)) <> [].
Proof.
  cbn [join_loop].
  destruct (coerce_key env t) as [t'|e]; [|discriminate].
  destruct (merge_left CodMunIBGE df t') as [df'|e]; [|discriminate].
  destruct (join_loop env df' rest). discriminate.
Qed.

Lemma backend_unify_twice env jl :
  Backend.unify env (fst (Backend.unify env jl)) = Backend.unify env jl.
Proof.
  destruct jl as [|anchor later]; [reflexivity|].
  cbn [Backend.unify].
  pose proof (join_loop_twice env later anchor) as H.
  destruct (join_loop env anchor later) as [later' r] eqn:Hl.
  cbn [fst Backend.unify] in *. rewrite H. reflexivity.
Qed.

Lemma variant_unify_twice env jl :
  MaybeV2V1.unify env (fst (MaybeV2V1.unify env jl)) = MaybeV2V1.unify env jl.
Proof.
  destruct jl as [|anchor later]; [reflexivity|].
  cbn [MaybeV2V1.unify].
  pose proof (join_loop_twice env later anchor) as H.
  pose proof (join_loop_some env) as Hsome.
  destruct (join_loop env anchor later) as [later' r] eqn:Hl.
  cbn [fst] in H.
  destruct r as [merged_df|e].
  - destruct later as [|t rest].
    + cbn [join_loop] in Hl. injection Hl as <- <-.
      cbn [fst MaybeV2V1.unify join_loop]. now rewrite dropna_twice.
    + cbn [fst MaybeV2V1.unify]. rewrite H.
      destruct later' as [|t' rest']; [|reflexivity].
      exfalso. apply (Hsome t rest anchor). now rewrite Hl.
  - cbn [fst MaybeV2V1.unify]. rewrite H. reflexivity.
Qed.

(** What [gold_finish] returns and what it leaves in the accumulator, read
    off the accumulator it starts from. *)
Lemma backend_gold_finish_reads env cfg filename s :
  fst (Backend.gold_finish env cfg filename s)
  = match snd (Backend.unify env (join_list s)) with
    | Ret df =>
        match report env df, persist env (gold_folder cfg) filename df, duckdb env df with
        | None, None, None => Ret (Some df)
        | _, _, _ => Ret None
        end
    | Raise _ => Ret None
    end
  /\ join_list (snd (Backend.gold_finish env cfg filename s))
     = fst (Backend.unify env (join_list s)).
Proof.
  unfold Backend.gold_finish, Backend.saving_step. unfold_effects.
  destruct (Backend.unify env (join_list s)) as [jl' [d|e]]; simpl.
  - destruct (report env d); simpl; [auto|].
    destruct (persist env _ _ d); simpl; [auto|].
    destruct (duckdb env d); simpl; auto.
  - auto.
Qed.

Lemma variant_gold_finish_reads env cfg filename s :
  fst (MaybeV2V1.gold_finish env cfg filename s)
  = match snd (MaybeV2V1.unify env (join_list s)) with
    | Ret df =>
        match report env df, persist env (gold_folder cfg) filename df with
        | None, None => Ret df
        | Some e, _ => Raise e
        | None, Some e => Raise e
        end
    | Raise e => Raise e
    end
  /\ join_list (snd (MaybeV2V1.gold_finish env cfg filename s))
     = fst (MaybeV2V1.unify env (join_list s)).
Proof.
  unfold MaybeV2V1.gold_finish, MaybeV2V1.saving_step. unfold_effects.
  destruct (MaybeV2V1.unify env (join_list s)) as [jl' [d|e]]; simpl.
  - destruct (report env d); simpl; [auto|].
    destruct (persist env _ _ d); simpl; auto.
  - auto.
Qed.

(** [gold_finish] rewrites the code columns of the later accumulated tables
    in place (and [maybev2v1.py] drops the null rows of a lone table in
    place), yet finalising again over the accumulator it left behind, with
    collaborators that behave as before, hands back the same result and
    leaves the accumulator as it is.  Both variants. *)
Theorem gold_finish_repeatable env cfg filename s :
  (let once := snd (Backend.gold_finish env cfg filename s) in
   fst (Backend.gold_finish env cfg filename once)
   = fst (Backend.gold_finish env cfg filename s)
   /\ join_list (snd (Backend.gold_finish env cfg filename once)) = join_list once)
  /\
  (let once := snd (MaybeV2V1.gold_finish env cfg filename s) in
   fst (MaybeV2V1.gold_finish env cfg filename once)
   = fst (MaybeV2V1.gold_finish env cfg filename s)
   /\ join_list (snd (MaybeV2V1.gold_finish env cfg filename once)) = join_list once).
Proof.
  split; cbv zeta.
  - destruct (backend_gold_finish_reads env cfg filename s) as [V1 J1].
    destruct (backend_gold_finish_reads env cfg filename
                (snd (Backend.gold_finish env cfg filename s))) as [V2 J2].
    rewrite V2, J2, V1, J1, backend_unify_twice. split; reflexivity.
  - destruct (variant_gold_finish_reads env cfg filename s) as [V1 J1].
    destruct (variant_gold_finish_reads env cfg filename
                (snd (MaybeV2V1.gold_finish env cfg filename s))) as [V2 J2].
    rewrite V2, J2, V1, J1, variant_unify_twice. split; reflexivity.
Qed.

(** ** The declared schema *)

(** A label that suffixing cannot produce and that neither side carries is
    not in the merged table. *)
Lemma merge_left_lacks l r df c :
  plain c = true ->
  has_col c (columns l) = false ->
  has_col c (columns r) = false ->
  merge_left CodMunIBGE l r = Ret df ->
  has_col c (columns df) = false.
Proof.
  intros Hp Hl Hr Hm.
  destruct (merge_left_inv _ _ _ _ Hm) as (i & j & _ & _ & _ & Hcols & _).
  apply has_col_false. rewrite Hcols. intros Hin.
  apply has_col_false in Hl. apply has_col_false in Hr.
  apply in_app_or in Hin. destruct Hin as [Hin|Hin];
    apply in_map_iff in Hin; destruct Hin as (d & Hd & Hin).
  - destruct (suffixed_cases CodMunIBGE (remove_at j (columns r)) "_x" d) as [E|E];
      rewrite E in Hd.
    + subst d. contradiction.
    + exact (plain_not_suffixed c d "x"%char Hp (or_introl eq_refl) Hd).
  - destruct (suffixed_cases CodMunIBGE (columns l) "_y" d) as [E|E];
      rewrite E in Hd.
    + subst d. apply Hr. eapply remove_at_incl; eauto.
    + exact (plain_not_suffixed c d "y"%char Hp (or_intror eq_refl) Hd).
Qed.

Lemma join_loop_lacks env c later :
  plain c = true ->
  forall df joined,
    has_col c (columns df) = false ->
    Forall (fun t => has_col c (columns t) = false) later ->
    snd (join_loop env df later) = Ret joined ->
    has_col c (columns joined) = false.
Proof.
  intros Hp. induction later as [|t rest IH]; intros df joined Hdf Hl Hj.
  - simpl in Hj. now injection Hj as <-.
  - inversion Hl as [|t0 l0 Ht Hrest]; subst.
    cbn [join_loop] in Hj.
    destruct (coerce_key env t) as [t'|e] eqn:Hc; [|discriminate].
    destruct (merge_left CodMunIBGE df t') as [df'|e] eqn:Hm; [|discriminate].
    destruct (coerce_key_inv env t t' Hc) as (j & _ & Hcols & _).
    assert (Hdf' : has_col c (columns df') = false).
    { apply (merge_left_lacks df t' df' c Hp Hdf); [|exact Hm]. now rewrite Hcols. }
    specialize (IH df' joined Hdf' Hrest).
    destruct (join_loop env df' rest) as [rest' r]. simpl in *. auto.
Qed.

Lemma finished_width ieee r r' :
  List.length r = 7%nat -> finished ieee r r' -> List.length r' = 8%nat.
Proof.
  intros Hw (q & _ & ->). rewrite length_app, length_put_at, Hw. reflexivity.
Qed.

Lemma finished_variant_width ieee r r' :
  List.length r = 7%nat -> finished_variant ieee r r' -> List.length r' = 7%nat.
Proof. intros Hw (q & _ & ->). now rewrite length_put_at. Qed.

(** The cells of a finished row under the series labels are those of the
    joined row it stems from. *)
Lemma finished_series cols jr q extra st c :
  In c (PIB :: other_series) ->
  lookup (order_set ++ extra) (put_at 6 q (pick cols jr) ++ st) c = lookup cols jr c.
Proof.
  intros Hc. simpl in Hc.
  repeat (destruct Hc as [<-|Hc]; [reflexivity|]). contradiction.
Qed.

(** Whenever [gold_finish] returns a table, the table has the declared
    columns in the declared order ([backend.py] adds the flag column), no
    label twice and one cell per label in every row, whatever the shape of
    the accumulated tables; and a series label that no accumulated table
    carries is null in every row. *)
Theorem unified_schema env cfg s df :
  backend_returns env cfg s df \/ variant_returns env cfg s df ->
  (backend_returns env cfg s df -> columns df = order_set ++ [data_status])
  /\ (variant_returns env cfg s df -> columns df = order_set)
  /\ wf_frame df
  /\ forall c,
       In c (PIB :: other_series) ->
       Forall (fun t => has_col c (columns t) = false) (join_list s) ->
       forall r, In r (rows df) -> value df r c = NaN.
Proof.
  intros Hret.
  assert (Hb : backend_returns env cfg s df ->
               columns df = order_set ++ [data_status]).
  { intros H. apply backend_returns_unify, backend_unify_joined in H.
    destruct H as (_ & _ & joined & _ & _ & Hd).
    now apply backend_derive_rows in Hd. }
  assert (Hv : variant_returns env cfg s df -> columns df = order_set).
  { intros H. apply variant_returns_unify, variant_unify_joined in H.
    destruct H as (_ & _ & joined & _ & _ & Hd).
    now apply variant_derive_rows in Hd. }
  split; [exact Hb|]. split; [exact Hv|].
  destruct Hret as [H|H].
  - pose proof (Hb H) as Hcols.
    apply backend_returns_unify, backend_unify_joined in H.
    destruct H as (anchor & later & joined & Hjl & Hloop & Hd).
    apply backend_derive_rows in Hd. destruct Hd as (_ & _ & _ & HF).
    split; [split|].
    + unfold rectangular. apply Forall_forall. intros r Hr. rewrite Hcols.
      destruct (Forall2_in_r _ _ _ _ HF Hr) as (r0 & Hr0 & Hfin).
      exact (finished_width _ r0 r (arranged_width joined r0 Hr0) Hfin).
    + rewrite Hcols. reflexivity.
    + intros c Hc Hnone r Hr. rewrite Hjl in Hnone.
      inversion Hnone as [|a l Ha Hl]; subst.
      destruct (plain_series c Hc) as [Hp _].
      pose proof (join_loop_lacks env c later Hp anchor joined Ha Hl Hloop) as Hlack.
      destruct (Forall2_in_r _ _ _ _ HF Hr) as (r0 & Hr0 & q & _ & ->).
      apply arranged_in in Hr0. destruct Hr0 as (jr & _ & ->).
      unfold value. rewrite Hcols, finished_series by exact Hc.
      unfold lookup. apply index_of_none in Hlack. now rewrite Hlack.
  - pose proof (Hv H) as Hcols.
    apply variant_returns_unify, variant_unify_joined in H.
    destruct H as (anchor & later & joined & Hjl & Hloop & Hd).
    apply variant_derive_rows in Hd. destruct Hd as (_ & _ & _ & HF).
    split; [split|].
    + unfold rectangular. apply Forall_forall. intros r Hr. rewrite Hcols.
      destruct (Forall2_in_r _ _ _ _ HF Hr) as (r0 & Hr0 & Hfin).
      exact (finished_variant_width _ r0 r (arranged_width (dropna joined) r0 Hr0) Hfin).
    + rewrite Hcols. reflexivity.
    + intros c Hc Hnone r Hr. rewrite Hjl in Hnone.
      inversion Hnone as [|a l Ha Hl]; subst.
      destruct (plain_series c Hc) as [Hp _].
      pose proof (join_loop_lacks env c later Hp anchor joined Ha Hl Hloop) as Hlack.
      destruct (Forall2_in_r _ _ _ _ HF Hr) as (r0 & Hr0 & q & _ & ->).
      apply arranged_in in Hr0. destruct Hr0 as (jr & _ & ->).
      unfold value. rewrite Hcols.
      rewrite <- (app_nil_r order_set), <- (app_nil_r (put_at 6 q _)).
      rewrite finished_series by exact Hc.
      unfold lookup. cbn [dropna columns]. apply index_of_none in Hlack.
      now rewrite Hlack.
Qed.

Lemma unified_schema_witness :
  wf_frame sample_unified
  /\ forall r, In r (rows sample_unified) -> value sample_unified r Municipio = NaN.
Proof.
  destruct (unified_schema offline folders (with_tables sample_tables) sample_unified
              (or_introl sample_run_backend)) as (_ & _ & Hwf & Hnan).
  split; [exact Hwf|].
  apply (Hnan Municipio).
  - right. left. reflexivity.
  - repeat constructor.
Defined.

(** ** A numeric anchor *)

(** When the anchor's code column is of a numeric or datetime dtype (all
    ints, all floats or all timestamps) and both the anchor and the first
    later table have rows, pandas refuses the first join with a ValueError:
    [backend.py]'s [gold_finish] answers with an absent result,
    [maybev2v1.py]'s lets the ValueError out. *)
Theorem numeric_anchor_refused env cfg filename s anchor t rest :
  join_list s = anchor :: t :: rest ->
  has_code anchor ->
  has_code t ->
  rows anchor <> [] ->
  rows t <> [] ->
  object_dtype (codes anchor) = false ->
  snd (join_loop env anchor (t :: rest)) = Raise ValueError
  /\ fst (Backend.gold_finish env cfg filename s) = Ret None
  /\ fst (MaybeV2V1.gold_finish env cfg filename s) = Raise ValueError.
Proof.
  intros Hjl Ha Ht Hra Hrt Hdt.
  apply index_of_has_col in Ha. destruct Ha as [i Hi].
  apply index_of_has_col in Ht. destruct Ht as [j Hj].
  rewrite (codes_index anchor i Hi) in Hdt.
  assert (Hloop : join_loop env anchor (t :: rest)
                  = (coerced env t :: rest, Raise ValueError)).
  { cbn [join_loop]. unfold coerced. rewrite (coerce_key_total env t j Hj).
    unfold merge_left. cbn [columns rows]. rewrite Hi, Hj.
    unfold keys_refused. rewrite Hdt.
    destruct (rows anchor) as [|ar ars]; [contradiction|].
    destruct (rows t) as [|tr trs]; [contradiction|]. reflexivity. }
  split; [now rewrite Hloop|].
  destruct (backend_gold_finish_reads env cfg filename s) as [Vb _].
  destruct (variant_gold_finish_reads env cfg filename s) as [Vv _].
  rewrite Vb, Vv, Hjl. cbn [Backend.unify MaybeV2V1.unify]. rewrite Hloop.
  split; reflexivity.
Qed.

Lemma numeric_anchor_refused_witness :
  fst (Backend.gold_finish offline folders "DescriptiveData.parquet"
         (with_tables [int_anchor; both_gdp_table])) = Ret None
  /\ fst (MaybeV2V1.gold_finish offline folders "CleanData.csv"
            (with_tables [int_anchor; both_gdp_table])) = Raise ValueError.
Proof.
  split.
  - apply (numeric_anchor_refused offline folders "DescriptiveData.parquet"
             (with_tables [int_anchor; both_gdp_table]) int_anchor both_gdp_table []);
      try reflexivity; discriminate.
  - apply (numeric_anchor_refused offline folders "CleanData.csv"
             (with_tables [int_anchor; both_gdp_table]) int_anchor both_gdp_table []);
      try reflexivity; discriminate.
Defined.

(** ** Frames, label by label

    The pandas steps of the recipes, seen through [lookup]: what each step
    does to the cell a row holds under a label. *)


Lemma has_col_remove_at c d cols i :
  has_dup cols = false ->
  index_of d cols = Some i ->
  has_col c (remove_at i cols) = has_col c cols && negb (String.eqb c d).
Proof.
  revert i. induction cols as [|x cols IH]; intros i Hnd Hi; [discriminate|].
  cbn [has_dup] in Hnd. apply orb_false_iff in Hnd. destruct Hnd as [Hx Hnd].
  cbn [index_of] in Hi. destruct (String.eqb d x) eqn:E.
  - injection Hi as <-. apply String.eqb_eq in E. subst x. cbn [remove_at].
    unfold has_col at 2. cbn [existsb]. fold (has_col c cols).
    destruct (String.eqb c d) eqn:F.
    + apply String.eqb_eq in F. subst c. rewrite Hx. reflexivity.
    + simpl. now rewrite andb_true_r.
  - destruct (index_of d cols) as [k|] eqn:Hk; cbn [option_map] in Hi; [|discriminate].
    injection Hi as <-. cbn [remove_at]. unfold has_col. cbn [existsb].
    fold (has_col c (remove_at k cols)). fold (has_col c cols).
    rewrite (IH k Hnd eq_refl).
    destruct (String.eqb c x) eqn:F; [|reflexivity].
    apply String.eqb_eq in F. subst x. cbn [orb].
    rewrite String.eqb_sym, E. reflexivity.
Qed.

Lemma has_dup_remove_at cols i :
  has_dup cols = false -> has_dup (remove_at i cols) = false.
Proof.
  revert i. induction cols as [|x cols IH]; intros i Hnd; [destruct i; reflexivity|].
  cbn [has_dup] in Hnd. apply orb_false_iff in Hnd. destruct Hnd as [Hx Hnd].
  destruct i; cbn [remove_at]; [exact Hnd|].
  cbn [has_dup]. rewrite (IH i Hnd), orb_false_r.
  apply has_col_false. apply has_col_false in Hx. intros Hin. apply Hx.
  eapply remove_at_incl; eauto.
Qed.

Lemma lookup_remove_at c d cols i (r : list cell) :
  index_of d cols = Some i ->
  c <> d ->
  List.length r = List.length cols ->
  lookup (remove_at i cols) (remove_at i r) c = lookup cols r c.
Proof.
  unfold lookup, at_.
  revert i r. induction cols as [|x cols IH]; intros i r Hi Hne Hlen; [discriminate|].
  destruct r as [|a r]; [discriminate|]. simpl in Hlen.
  cbn [index_of] in Hi. destruct (String.eqb d x) eqn:E.
  - injection Hi as <-. apply String.eqb_eq in E. subst x. cbn [remove_at index_of].
    destruct (String.eqb c d) eqn:F; [apply String.eqb_eq in F; contradiction|].
    destruct (index_of c cols); reflexivity.
  - destruct (index_of d cols) as [k|] eqn:Hk; cbn [option_map] in Hi; [|discriminate].
    injection Hi as <-. cbn [remove_at index_of].
    destruct (String.eqb c x); [reflexivity|].
    specialize (IH k r eq_refl Hne (eq_add_S _ _ Hlen)).
    destruct (index_of c (remove_at k cols)), (index_of c cols); simpl in *; auto.
Qed.

Lemma drop1_spec d df df' :
  wf_frame df ->
  drop1 d df = Ret df' ->
  wf_frame df'
  /\ (forall c, has_col c (columns df')
                = has_col c (columns df) && negb (String.eqb c d))
  /\ exists g,
       rows df' = map g (rows df)
       /\ forall r, List.length r = List.length (columns df) ->
                    List.length (g r) = List.length (columns df')
                    /\ forall c, c <> d ->
                                 lookup (columns df') (g r) c = lookup (columns df) r c.
Proof.
  intros [Hrect Hnd] H. unfold drop1 in H.
  destruct (index_of d (columns df)) as [i|] eqn:Hi; [|discriminate].
  injection H as <-. cbn [columns rows].
  pose proof (index_of_lt _ _ _ Hi) as Hlt.
  assert (Hlen : forall r : list cell,
             List.length r = List.length (columns df) ->
             List.length (remove_at i r) = List.length (remove_at i (columns df))).
  { intros r Hr. rewrite !length_remove_at; rewrite ?Hr; auto. }
  split; [split|split].
  - unfold rectangular in *. cbn [columns rows]. rewrite Forall_forall in *.
    intros r Hr. apply in_map_iff in Hr. destruct Hr as (r0 & <- & Hr0).
    apply Hlen. now apply Hrect.
  - cbn [columns]. now apply has_dup_remove_at.
  - intros c. now apply has_col_remove_at.
  - exists (remove_at i). split; [reflexivity|].
    intros r Hr. split; [now apply Hlen|].
    intros c Hne. now apply lookup_remove_at with (d := d).
Qed.

Lemma drop_fold_raise cs e :
  fold_left (fun acc c => d <-- acc ;; drop1 c d) cs (Raise e) = Raise e.
Proof. induction cs as [|c cs IH]; simpl; auto. Qed.

Lemma drop_fold_spec cs :
  forall df df',
    wf_frame df ->
    fold_left (fun acc c => d <-- acc ;; drop1 c d) cs (Ret df) = Ret df' ->
    wf_frame df'
    /\ (forall c, has_col c (columns df')
                  = has_col c (columns df) && negb (has_col c cs))
    /\ exists g,
         rows df' = map g (rows df)
         /\ forall r, List.length r = List.length (columns df) ->
                      List.length (g r) = List.length (columns df')
                      /\ forall c, has_col c cs = false ->
                                   lookup (columns df') (g r) c
                                   = lookup (columns df) r c.
Proof.
  induction cs as [|d cs IH]; intros df df' Hwf H.
  - simpl in H. injection H as <-. split; [exact Hwf|]. split.
    + intros c. simpl. now rewrite andb_true_r.
    + exists (fun r => r). split; [now rewrite map_id | auto].
  - cbn [fold_left obind] in H.
    destruct (drop1 d df) as [df1|e] eqn:Hd.
    2:{ rewrite drop_fold_raise in H. discriminate. }
    destruct (drop1_spec d df df1 Hwf Hd) as (Hwf1 & Hcols1 & g1 & Hrows1 & Hlook1).
    destruct (IH df1 df' Hwf1 H) as (Hwf' & Hcols' & g & Hrows & Hlook).
    split; [exact Hwf'|]. split.
    + intros c. rewrite Hcols', Hcols1. unfold has_col at 4. cbn [existsb].
      fold (has_col c cs). rewrite negb_orb, andb_assoc. reflexivity.
    + exists (fun r => g (g1 r)). split.
      * rewrite Hrows, Hrows1, map_map. reflexivity.
      * intros r Hlen. destruct (Hlook1 r Hlen) as [Hlen1 Hl1].
        destruct (Hlook (g1 r) Hlen1) as [Hlen' Hl].
        split; [exact Hlen'|]. intros c Hc.
        unfold has_col in Hc. cbn [existsb] in Hc.
        apply orb_false_iff in Hc. destruct Hc as [Hcd Hc].
        assert (Hne : c <> d)
          by (intros ->; rewrite String.eqb_refl in Hcd; discriminate).
        rewrite <- (Hl1 c Hne). now apply Hl.
Qed.

(** [drop(columns = cs)] on a frame without duplicate labels: the labels
    are gone, every other cell stays under its label. *)
Lemma drop_spec cs df df' :
  wf_frame df ->
  drop cs df = Ret df' ->
  wf_frame df'
  /\ (forall c, has_col c (columns df')
                = has_col c (columns df) && negb (has_col c cs))
  /\ exists g,
       rows df' = map g (rows df)
       /\ forall r, List.length r = List.length (columns df) ->
                    List.length (g r) = List.length (columns df')
                    /\ forall c, has_col c cs = false ->
                                 lookup (columns df') (g r) c
                                 = lookup (columns df) r c.
Proof.
  intros Hwf H. unfold drop in H.
  destruct (find _ cs); [discriminate|]. now apply drop_fold_spec.
Qed.

Lemma index_of_map_iff (f : string -> string) cols c c' :
  (forall x, In x cols -> (f x = c' <-> x = c)) ->
  index_of c' (map f cols) = index_of c cols.
Proof.
  induction cols as [|x cols IH]; intros H; [reflexivity|].
  cbn [map index_of].
  rewrite IH by (intros y Hy; apply H; now right).
  destruct (H x (or_introl eq_refl)) as [H1 H2].
  destruct (String.eqb c' (f x)) eqn:E, (String.eqb c x) eqn:F; try reflexivity.
  - apply String.eqb_eq in E. symmetry in E. apply H1 in E. subst x.
    rewrite String.eqb_refl in F. discriminate.
  - apply String.eqb_eq in F. subst x. rewrite (H2 eq_refl), String.eqb_refl in E.
    discriminate.
Qed.

Lemma has_dup_map_inj (f : string -> string) cols :
  (forall x y, In x cols -> In y cols -> f x = f y -> x = y) ->
  has_dup cols = false -> has_dup (map f cols) = false.
Proof.
  induction cols as [|x cols IH]; intros Hinj Hnd; [reflexivity|].
  cbn [has_dup] in Hnd. apply orb_false_iff in Hnd. destruct Hnd as [Hx Hnd].
  cbn [map has_dup]. rewrite IH; auto.
  2:{ intros a b Ha Hb. apply Hinj; now right. }
  rewrite orb_false_r. apply has_col_false. apply has_col_false in Hx.
  intros Hin. apply in_map_iff in Hin. destruct Hin as (y & Hy & Hin).
  assert (y = x) by (apply Hinj; [now right | now left | exact Hy]).
  subst y. contradiction.
Qed.

Lemma relabel2 a1 b1 a2 b2 x :
  relabel [(a1, b1); (a2, b2)] x
  = if String.eqb x a1 then b1 else if String.eqb x a2 then b2 else x.
Proof. unfold relabel. cbn [assoc]. now destruct (String.eqb x a1), (String.eqb x a2). Qed.

(** [rename] with two pairs whose new labels the frame does not carry. *)
Lemma rename2_spec a1 b1 a2 b2 df :
  a1 <> a2 -> b1 <> b2 ->
  has_col b1 (columns df) = false ->
  has_col b2 (columns df) = false ->
  let d := rename [(a1, b1); (a2, b2)] df in
  rows d = rows df
  /\ List.length (columns d) = List.length (columns df)
  /\ (has_dup (columns df) = false -> has_dup (columns d) = false)
  /\ index_of b1 (columns d) = index_of a1 (columns df)
  /\ index_of b2 (columns d) = index_of a2 (columns df)
  /\ forall c, c <> a1 -> c <> a2 -> c <> b1 -> c <> b2 ->
               index_of c (columns d) = index_of c (columns df).
Proof.
  intros Ha Hb H1 H2 d.
  apply has_col_false in H1. apply has_col_false in H2.
  assert (Hcols : columns d = map (relabel [(a1, b1); (a2, b2)]) (columns df))
    by reflexivity.
  assert (Hcase : forall x, In x (columns df) ->
            (x = a1 /\ relabel [(a1, b1); (a2, b2)] x = b1)
            \/ (x = a2 /\ relabel [(a1, b1); (a2, b2)] x = b2)
            \/ (x <> a1 /\ x <> a2 /\ x <> b1 /\ x <> b2
                /\ relabel [(a1, b1); (a2, b2)] x = x)).
  { intros x Hx. rewrite relabel2.
    destruct (String.eqb x a1) eqn:E1; [left; split; [now apply String.eqb_eq|reflexivity]|].
    destruct (String.eqb x a2) eqn:E2;
      [right; left; split; [now apply String.eqb_eq|reflexivity]|].
    right; right. apply String.eqb_neq in E1. apply String.eqb_neq in E2.
    repeat split; auto; intros ->; contradiction. }
  split; [reflexivity|]. split; [rewrite Hcols; apply length_map|].
  split; [|split; [|split]].
  - intros Hnd. rewrite Hcols. apply has_dup_map_inj; [|exact Hnd].
    intros x y Hx Hy Hxy.
    destruct (Hcase x Hx) as [[-> Ex]|[[-> Ex]|(Nx1 & Nx2 & Nx3 & Nx4 & Ex)]];
      rewrite Ex in Hxy;
      destruct (Hcase y Hy) as [[-> Ey]|[[-> Ey]|(Ny1 & Ny2 & Ny3 & Ny4 & Ey)]];
      rewrite Ey in Hxy; subst; try reflexivity; try contradiction;
      try (exfalso; auto; fail).
  - rewrite Hcols. apply index_of_map_iff. intros x Hx.
    destruct (Hcase x Hx) as [[-> Ex]|[[-> Ex]|(Nx1 & Nx2 & Nx3 & Nx4 & Ex)]];
      rewrite Ex; split; intros E; subst; try reflexivity; try contradiction;
      try (exfalso; auto; fail).
  - rewrite Hcols. apply index_of_map_iff. intros x Hx.
    destruct (Hcase x Hx) as [[-> Ex]|[[-> Ex]|(Nx1 & Nx2 & Nx3 & Nx4 & Ex)]];
      rewrite Ex; split; intros E; subst; try reflexivity; try contradiction;
      try (exfalso; auto; fail).
  - intros c Hc1 Hc2 Hc3 Hc4. rewrite Hcols. apply index_of_map_iff. intros x Hx.
    destruct (Hcase x Hx) as [[-> Ex]|[[-> Ex]|(Nx1 & Nx2 & Nx3 & Nx4 & Ex)]];
      rewrite Ex; split; intros E; subst; try reflexivity; try contradiction;
      try (exfalso; auto; fail).
Qed.




Lemma put_at_own_cell i (r : list cell) : put_at i (at_ i r) r = r.
Proof.
  unfold at_. revert i. induction r as [|a r IH]; intros i; destruct i; simpl;
    try reflexivity. now rewrite IH.
Qed.

Lemma has_col_index c cols :
  has_col c cols = match index_of c cols with Some _ => true | None => false end.
Proof.
  destruct (index_of c cols) as [i|] eqn:E.
  - apply index_of_has_col. eauto.
  - now apply index_of_none.
Qed.


Lemma Forall2_impl_in {A B : Type} (R S : A -> B -> Prop) l q :
  (forall a b, In a l -> R a b -> S a b) -> Forall2 R l q -> Forall2 S l q.
Proof.
  intros H HF. induction HF; constructor.
  - apply H; [now left | assumption].
  - apply IHHF. intros a b Ha. apply H. now right.
Qed.


(** The granularity filter and the provenance drop that open every
    time-series recipe. *)
Lemma series_prefix raw q d0 :
  wf_frame raw ->
  query "NIVNOME" (eq_str "Municípios") raw = Ret q ->
  drop provenance q = Ret d0 ->
  wf_frame d0
  /\ (forall c, has_col c (columns d0)
                = has_col c (columns raw) && negb (has_col c provenance))
  /\ exists g,
       rows d0 = map g (level_rows "NIVNOME" raw)
       /\ forall r, In r (rows raw) ->
            List.length (g r) = List.length (columns d0)
            /\ forall c, has_col c provenance = false ->
                         lookup (columns d0) (g r) c = lookup (columns raw) r c.
Proof.
  intros [Hrect Hnd] Hq Hd. unfold query in Hq. unfold level_rows.
  destruct (index_of "NIVNOME" (columns raw)) as [i|] eqn:Hi; [|discriminate].
  injection Hq as <-.
  assert (Hwfq : wf_frame (mkDF (columns raw)
                   (filter (fun r => eq_str "Municípios" (at_ i r)) (rows raw)))).
  { split; [|exact Hnd]. unfold rectangular in *. cbn [columns rows].
    rewrite Forall_forall in *. intros r Hr. apply filter_In in Hr. now apply Hrect. }
  destruct (drop_spec provenance _ d0 Hwfq Hd) as (Hwf0 & Hcols & g & Hrows & Hg).
  cbn [columns rows] in *.
  split; [exact Hwf0|]. split; [exact Hcols|].
  exists g. split; [exact Hrows|].
  intros r Hr. apply Hg. unfold rectangular in Hrect. rewrite Forall_forall in Hrect.
  now apply Hrect.
Qed.

Lemma rename2_gone a1 b1 a2 b2 df :
  a1 <> b2 -> a2 <> b1 ->
  has_col b1 (columns df) = false ->
  has_col b2 (columns df) = false ->
  index_of a1 (columns (rename [(a1, b1); (a2, b2)] df)) = None
  /\ index_of a2 (columns (rename [(a1, b1); (a2, b2)] df)) = None.
Proof.
  intros H12 H21 H1 H2.
  apply has_col_false in H1. apply has_col_false in H2.
  change (columns (rename [(a1, b1); (a2, b2)] df))
    with (map (relabel [(a1, b1); (a2, b2)]) (columns df)).
  split; apply index_of_map_none; intros x Hx; rewrite relabel2;
    destruct (String.eqb_spec x a1) as [E1|E1];
    destruct (String.eqb_spec x a2) as [E2|E2];
    subst; intros E; subst; auto.
Qed.



(** ** The GDP stage of [backend.py] *)






(** ** The current-revenue stage of [backend.py] *)




(** ** The current-revenue stage of [maybev2v1.py] *)




Lemma Forall2_map_self {A B : Type} (h : A -> B) l :
  Forall2 (fun a b => b = h a) l (map h l).
Proof. induction l; simpl; constructor; auto. Qed.



(** ** A value that spells no number *)

Lemma traverse_raises {A B : Type} (f : A -> outcome B) l a e0 :
  In a l -> f a = Raise e0 -> exists e, traverse f l = Raise e.
Proof.
  induction l as [|x l IH]; intros Hin Hf; [contradiction|].
  simpl. destruct (f x) as [b|e] eqn:Hx; simpl; [|eauto].
  destruct Hin as [->|Hin]; [congruence|].
  destruct (IH Hin Hf) as [e He]. rewrite He. simpl. eauto.
Qed.

Lemma map_column_raises c f df r e0 :
  In r (rows df) ->
  f (lookup (columns df) r c) = Raise e0 ->
  exists e, map_column c f df = Raise e.
Proof.
  intros Hr Hf. unfold map_column, column. unfold lookup in Hf.
  destruct (index_of c (columns df)) as [i|]; [|simpl; eauto].
  cbn [obind].
  destruct (traverse_raises f (map (at_ i) (rows df)) (at_ i r) e0) as [e He].
  - now apply in_map.
  - exact Hf.
  - rewrite He. simpl. eauto.
Qed.

(** [backend.py] converts the raw GDP and revenue values with
    [astype(float)] before [to_numeric(errors = 'coerce')] sees them: a
    municipality-level value that is a text spelling no number makes the
    whole normalisation fail, and [silver_transform] answers with an absent
    result, one error entry in the log, and nothing written. *)
Theorem unparsable_value_fails env cfg raw filename a r txt :
  contains "IDHM_2010.parquet" filename = false ->
  filename <> "Municípios.parquet" ->
  (contains "PIB_2010.parquet" filename = true /\ a = raw_PIB)
  \/ (contains "PIB_2010.parquet" filename = false
      /\ contains "RecCorr_2010.parquet" filename = true /\ a = "VALUE (R$)") ->
  wf_frame raw ->
  In r (level_rows "NIVNOME" raw) ->
  value raw r a = CStr txt ->
  py_float_of_str env txt = None ->
  exists e,
    Backend.transform env raw filename = Raise e
    /\ forall s,
         Backend.silver_transform env cfg raw filename s
         = (Ret None,
            mkState (join_list s)
              (log s ++ [mkLog ERROR "Error transforming data for" filename (Some e)])
              (stored s)).
Proof.
  intros Hidhm Hmun Hfile Hwf Hr Hval Htxt.
  assert (Hraise : exists e, Backend.transform env raw filename = Raise e).
  { unfold Backend.transform. rewrite Hidhm.
    apply String.eqb_neq in Hmun. rewrite Hmun.
    destruct (query "NIVNOME" (eq_str "Municípios") raw) as [q|e] eqn:Hq;
      [|simpl; eauto].
    cbn [obind].
    destruct (drop ["CODE"; "RAW DATE"; "YEAR"; "NIVNOME"] q) as [d0|e] eqn:Hd;
      [|simpl; eauto].
    cbn [obind].
    destruct (series_prefix raw q d0 Hwf Hq Hd) as (Hwf0 & Hcols0 & g & Hrows0 & Hg).
    assert (Hrraw : In r (rows raw)).
    { unfold level_rows in Hr.
      destruct (index_of "NIVNOME" (columns raw)); [|contradiction].
      now apply filter_In in Hr. }
    destruct (Hg r Hrraw) as [_ Hlook].
    assert (Hin0 : In (g r) (rows d0)) by (rewrite Hrows0; now apply in_map).
    destruct Hfile as [[Hpib ->]|(Hpib & Hrec & ->)].
    - rewrite Hpib. unfold Backend.transform_pib.
      destruct (map_column_raises raw_PIB
                  (fun c => v <-- astype_float env c ;;
                            on_float (fun f => PrimFloat.mul f 1000%float) v)
                  d0 (g r) ValueError Hin0) as [e He].
      + rewrite (Hlook raw_PIB eq_refl). unfold value in Hval. rewrite Hval.
        simpl. now rewrite Htxt.
      + rewrite He. simpl. eauto.
    - rewrite Hpib, Hrec. unfold Backend.transform_reccorr.
      destruct (map_column_raises "VALUE (R$)"
                  (fun c => v <-- astype_float env c ;; on_float round2 v)
                  d0 (g r) ValueError Hin0) as [e He].
      + rewrite (Hlook "VALUE (R$)" eq_refl). unfold value in Hval. rewrite Hval.
        simpl. now rewrite Htxt.
      + rewrite He. simpl. eauto. }
  destruct Hraise as [e He]. exists e. split; [exact He|].
  intros s. unfold Backend.silver_transform. unfold_effects. rewrite He. reflexivity.
Qed.

Lemma unparsable_value_fails_witness :
  exists e,
    Backend.transform offline raw_revenue_text "RecCorr_2010.parquet" = Raise e
    /\ fst (Backend.silver_transform offline folders raw_revenue_text
              "RecCorr_2010.parquet" fresh) = Ret None.
Proof.
  assert (Hwf : wf_frame raw_revenue_text)
    by (split; [repeat constructor | reflexivity]).
  assert (Hne : "RecCorr_2010.parquet" <> "Municípios.parquet") by discriminate.
  destruct (unparsable_value_fails offline folders raw_revenue_text
              "RecCorr_2010.parquet" "VALUE (R$)"
              [CStr "RECORRM"; CStr "2010-01-01"; CInt 1; CInt 1; CInt 2010;
               CStr "Municípios"; CStr "1100015"; CStr "n/d"] "n/d"
              eq_refl Hne) as (e & He & Hs).
  - right. repeat split; reflexivity.
  - exact Hwf.
  - left. reflexivity.
  - reflexivity.
  - reflexivity.
  - exists e. split; [exact He|]. now rewrite Hs.
Defined.

(** ** The registry and human-development stages *)

Lemma lookup_index_eq cols cols' c c' (r : list cell) :
  index_of c' cols' = index_of c cols -> lookup cols' r c' = lookup cols r c.
Proof. intros H. unfold lookup. now rewrite H. Qed.

(** The shape the two recipes share: a row filter, a drop, and the
    relabelling of two columns. *)
Lemma filter_drop_rename raw p cs a1 b1 a2 b2 d0 :
  wf_frame raw ->
  a1 <> a2 -> b1 <> b2 -> a1 <> b2 -> a2 <> b1 ->
  has_col a1 cs = false -> has_col a2 cs = false ->
  has_col b1 cs = false -> has_col b2 cs = false ->
  has_col b1 (columns raw) = false ->
  has_col b2 (columns raw) = false ->
  drop cs (mkDF (columns raw) (filter p (rows raw))) = Ret d0 ->
  let d := rename [(a1, b1); (a2, b2)] d0 in
  wf_frame d
  /\ has_col b1 (columns d) = has_col a1 (columns raw)
  /\ has_col b2 (columns d) = has_col a2 (columns raw)
  /\ (forall c, In c (a1 :: a2 :: cs) -> has_col c (columns d) = false)
  /\ (forall c, ~ In c (a1 :: a2 :: b1 :: b2 :: cs) ->
                has_col c (columns d) = has_col c (columns raw))
  /\ Forall2 (fun r r' =>
                value d r' b1 = value raw r a1
                /\ value d r' b2 = value raw r a2
                /\ carried raw d (a1 :: a2 :: b1 :: b2 :: cs) r r')
       (filter p (rows raw)) (rows d).
Proof.
  intros [Hrect Hnd] Ha Hb Hab Hba Hc1 Hc2 Hd1 Hd2 Hn1 Hn2 Hd d.
  assert (Hwfq : wf_frame (mkDF (columns raw) (filter p (rows raw)))).
  { split; [|exact Hnd]. unfold rectangular in *. cbn [columns rows].
    rewrite Forall_forall in *. intros r Hr. apply filter_In in Hr. now apply Hrect. }
  destruct (drop_spec cs _ d0 Hwfq Hd) as ([Hrect0 Hnd0] & Hcols0 & g & Hrows0 & Hg).
  cbn [columns rows] in *.
  assert (Hn10 : has_col b1 (columns d0) = false) by (rewrite Hcols0, Hn1; reflexivity).
  assert (Hn20 : has_col b2 (columns d0) = false) by (rewrite Hcols0, Hn2; reflexivity).
  destruct (rename2_spec a1 b1 a2 b2 d0 Ha Hb Hn10 Hn20)
    as (Hrows & Hlen & Hndd & Hi1 & Hi2 & Hio).
  destruct (rename2_gone a1 b1 a2 b2 d0 Hab Hba Hn10 Hn20) as (Hg1 & Hg2).
  fold d in Hrows, Hlen, Hndd, Hi1, Hi2, Hio, Hg1, Hg2.
  assert (Hother : forall c, ~ In c [a1; a2; b1; b2] ->
                             index_of c (columns d) = index_of c (columns d0)).
  { intros c Hc. apply Hio; intros ->; apply Hc; simpl; auto. }
  split; [split|].
  - unfold rectangular in *. rewrite Hrows, Hlen. exact Hrect0.
  - now apply Hndd.
  - split; [rewrite !has_col_index, Hi1, <- !has_col_index, Hcols0, Hc1;
            apply andb_true_r|].
    split; [rewrite !has_col_index, Hi2, <- !has_col_index, Hcols0, Hc2;
            apply andb_true_r|].
    split; [|split].
    + intros c [<-|[<-|Hin]];
        [now rewrite has_col_index, Hg1 | now rewrite has_col_index, Hg2 |].
      apply has_col_In in Hin.
      rewrite has_col_index, Hother, <- has_col_index, Hcols0, Hin.
      * apply andb_false_r.
      * intros [<-|[<-|[<-|[<-|[]]]]]; congruence.
    + intros c Hc.
      rewrite has_col_index, Hother, <- has_col_index, Hcols0.
      * replace (has_col c cs) with false; [apply andb_true_r|].
        symmetry. apply has_col_false. intros Hin. apply Hc. simpl. auto 10.
      * intros Hin. apply Hc. simpl in *. tauto.
    + rewrite Hrows, Hrows0.
      eapply Forall2_impl_in; [|apply Forall2_map_self]. cbv beta.
      intros r r' Hr ->.
      apply filter_In in Hr. destruct Hr as [Hr _].
      unfold rectangular in Hrect. rewrite Forall_forall in Hrect.
      destruct (Hg r (Hrect r Hr)) as [_ Hlook].
      unfold value. split; [|split].
      * rewrite (lookup_index_eq (columns d0) (columns d) a1 b1) by exact Hi1.
        now apply Hlook.
      * rewrite (lookup_index_eq (columns d0) (columns d) a2 b2) by exact Hi2.
        now apply Hlook.
      * intros c Hc. unfold value.
        rewrite (lookup_index_eq (columns d0) (columns d) c c).
        -- apply Hlook. apply has_col_false. intros Hin. apply Hc. simpl. auto 10.
        -- apply Hother. intros Hin. apply Hc. simpl in *. tauto.
Qed.

(** Municipality registry, both variants.  For a raw table without
    duplicate labels, a normalisation that succeeds yields one row per
    municipality-level raw row, in the raw order, with the raw NAME cell
    under the name label and the raw ID cell, untouched, under the code
    label; LEVEL, AREA and CAPITAL are gone and every other column is
    carried over. *)
Theorem registry_stage env raw d :
  wf_frame raw ->
  has_col Municipio (columns raw) = false ->
  has_col CodMunIBGE (columns raw) = false ->
  Backend.transform env raw "Municípios.parquet" = Ret d
  \/ MaybeV2V1.transform env raw "Municípios.csv" = Ret d ->
  wf_frame d
  /\ has_col Municipio (columns d) = has_col "NAME" (columns raw)
  /\ has_col CodMunIBGE (columns d) = has_col "ID" (columns raw)
  /\ (forall c, In c ["NAME"; "ID"; "LEVEL"; "AREA"; "CAPITAL"] ->
                has_col c (columns d) = false)
  /\ (forall c, ~ In c ["NAME"; "ID"; Municipio; CodMunIBGE; "LEVEL"; "AREA"; "CAPITAL"] ->
                has_col c (columns d) = has_col c (columns raw))
  /\ Forall2 (fun r r' =>
                value d r' Municipio = value raw r "NAME"
                /\ value d r' CodMunIBGE = value raw r "ID"
                /\ carried raw d
                     ["NAME"; "ID"; Municipio; CodMunIBGE; "LEVEL"; "AREA"; "CAPITAL"]
                     r r')
       (level_rows "LEVEL" raw) (rows d).
Proof.
  intros Hwf Hnm Hnc H.
  assert (Hrun : Backend.transform_municipios raw = Ret d) by (destruct H; exact H).
  clear H. unfold Backend.transform_municipios, query in Hrun. unfold level_rows.
  destruct (index_of "LEVEL" (columns raw)) as [i|]; [|discriminate].
  cbn [obind] in Hrun.
  destruct (drop ["LEVEL"; "AREA"; "CAPITAL"] _) as [d0|e] eqn:Hd; [|discriminate].
  cbn [obind] in Hrun. injection Hrun as <-.
  apply (filter_drop_rename raw (fun r => eq_str "Municípios" (at_ i r))
           ["LEVEL"; "AREA"; "CAPITAL"] "NAME" Municipio "ID" CodMunIBGE d0);
    auto; discriminate.
Qed.

Lemma registry_stage_witness :
  Backend.transform offline raw_territories "Municípios.parquet"
  = Ret registry_normalised
  /\ wf_frame registry_normalised.
Proof.
  assert (Hrun : Backend.transform offline raw_territories "Municípios.parquet"
                 = Ret registry_normalised) by (vm_compute; reflexivity).
  assert (Hwf : wf_frame raw_territories) by (split; [repeat constructor | reflexivity]).
  destruct (registry_stage offline raw_territories registry_normalised Hwf
              eq_refl eq_refl (or_introl Hrun)) as (Hwfd & _).
  split; [exact Hrun | exact Hwfd].
Defined.



(** ** The population stage *)








(** ** What the join carries over *)

Lemma remove_at_put_at {A : Type} j (v : A) (r : list A) :
  remove_at j (put_at j v r) = remove_at j r.
Proof.
  revert j. induction r as [|a r IH]; intros j; destruct j; simpl;
    try reflexivity. now rewrite IH.
Qed.

Lemma NoDup_map_same {A B : Type} (f : A -> B) l a b :
  NoDup (map f l) -> In a l -> In b l -> f a = f b -> a = b.
Proof.
  induction l as [|x l IH]; intros Hnd Ha Hb Hf; [contradiction|].
  simpl in Hnd. inversion Hnd as [|y ys Hnotin Hnd']; subst.
  destruct Ha as [->|Ha], Hb as [->|Hb]; auto.
  - exfalso. apply Hnotin. rewrite Hf. now apply in_map.
  - exfalso. apply Hnotin. rewrite <- Hf. now apply in_map.
Qed.

Lemma alookup_in c l : In c (map fst l) -> In (c, alookup c l) l.
Proof.
  induction l as [|[d v] l IH]; simpl; [contradiction|].
  destruct (String.eqb_spec c d) as [->|Hne]; [now left|].
  intros [E|Hin]; [congruence | right; auto].
Qed.

Lemma alookup_unique c v l :
  NoDup (map fst l) -> In (c, v) l -> alookup c l = v.
Proof.
  induction l as [|[d w] l IH]; simpl; intros Hnd Hin; [contradiction|].
  inversion Hnd as [|y ys Hnotin Hnd']; subst.
  destruct Hin as [E|Hin].
  - injection E as -> ->. now rewrite String.eqb_refl.
  - destruct (String.eqb_spec c d) as [->|Hne]; [|auto].
    exfalso. apply Hnotin. change d with (fst (d, v)). now apply in_map.
Qed.

Lemma nth_map_combine {A B C : Type} (f : A * B -> C) k (l : list A) (q : list B)
    da db dc :
  (k < List.length l)%nat -> (k < List.length q)%nat ->
  nth k (map f (combine l q)) dc = f (nth k l da, nth k q db).
Proof.
  revert l q. induction k as [|k IH]; intros l q Hl Hq;
    destruct l, q; simpl in *; try lia; [reflexivity|].
  apply IH; lia.
Qed.

Lemma upcast_cases f x :
  upcast (f, x) = x \/ exists z, x = CInt z /\ upcast (f, x) = CFloat (Z2float z).
Proof. destruct f, x; simpl; eauto. Qed.

(** The cells a later table contributes to an anchor row it matches: those
    of its one row with that code. *)
Lemma tail_of_match env anchor i t j ar rr code :
  rectangular t ->
  index_of CodMunIBGE (columns t) = Some j ->
  NoDup (text_codes env t) ->
  In rr (rows t) ->
  py_str env (at_ j rr) = code ->
  at_ i ar = CStr code ->
  tail_of env anchor i t ar
  = map upcast (combine (join_flags i j anchor (coerced env t)) (remove_at j rr)).
Proof.
  intros Hrect Hj Hnd Hrr Hcode Har.
  unfold tail_of. rewrite Hj. unfold join_tail.
  generalize (join_flags i j anchor (coerced env t)). intros flags.
  rewrite (coerced_total env t j Hj). cbn [rows columns].
  set (f := fun r => put_at j (astype_str env (at_ j r)) r).
  assert (Hw : forall r, In r (rows t) -> (j < List.length r)%nat)
    by (intros r Hr; exact (rectangular_wide t CodMunIBGE j r Hrect Hj Hr)).
  assert (Hkey : forall r, In r (rows t) -> at_ j (f r) = CStr (py_str env (at_ j r))).
  { intros r Hr. unfold f. now rewrite at_put_at_same by (now apply Hw). }
  assert (Hnd' : NoDup (map (fun r => py_str env (at_ j r)) (rows t))).
  { unfold text_codes in Hnd. rewrite (codes_index t j Hj), map_map in Hnd. exact Hnd. }
  destruct (matches i j ar (map f (rows t))) as [|m ms] eqn:Hm.
  - exfalso.
    assert (Hin : In (f rr) (matches i j ar (map f (rows t)))).
    { unfold matches. apply filter_In. split; [now apply in_map|].
      rewrite Har, (Hkey rr Hrr), Hcode. simpl. apply String.eqb_refl. }
    rewrite Hm in Hin. contradiction.
  - assert (Hin : In m (matches i j ar (map f (rows t)))) by (rewrite Hm; now left).
    unfold matches in Hin. apply filter_In in Hin. destruct Hin as [Hin Hk].
    apply in_map_iff in Hin. destruct Hin as (r1 & <- & Hr1).
    rewrite Har, (Hkey r1 Hr1) in Hk. simpl in Hk. apply String.eqb_eq in Hk.
    assert (r1 = rr).
    { apply (NoDup_map_same (fun r => py_str env (at_ j r)) (rows t)); auto.
      cbv beta. congruence. }
    subst r1. unfold f. now rewrite remove_at_put_at.
Qed.

Lemma block_lookup t j rr c flags :
  rectangular t ->
  index_of CodMunIBGE (columns t) = Some j ->
  In rr (rows t) ->
  c <> CodMunIBGE ->
  has_col c (columns t) = true ->
  List.length flags = List.length (remove_at j (columns t)) ->
  exists f,
    lookup (remove_at j (columns t)) (map upcast (combine flags (remove_at j rr))) c
    = upcast (f, lookup (columns t) rr c).
Proof.
  intros Hrect Hj Hrr Hne Hc Hlen.
  assert (Hin : In c (remove_at j (columns t))).
  { apply (In_remove_at EmptyString); [now apply has_col_In|].
    rewrite (nth_index_of _ _ _ Hj). exact Hne. }
  apply has_col_In, index_of_has_col in Hin. destruct Hin as [k Hk].
  pose proof (index_of_lt _ _ _ Hk) as Hlt.
  pose proof (index_of_lt _ _ _ Hj) as Hjlt.
  assert (Hrow : List.length rr = List.length (columns t)).
  { unfold rectangular in Hrect. rewrite Forall_forall in Hrect. now apply Hrect. }
  assert (Hlen' : List.length (remove_at j rr) = List.length (remove_at j (columns t))).
  { rewrite !length_remove_at; rewrite ?Hrow; auto. }
  exists (nth k flags false).
  unfold lookup at 1. rewrite Hk. unfold at_.
  rewrite (nth_map_combine upcast k flags (remove_at j rr) false NaN NaN)
    by (rewrite ?Hlen, ?Hlen'; exact Hlt).
  f_equal. f_equal.
  rewrite <- (lookup_remove_at c CodMunIBGE (columns t) j rr Hj Hne Hrow).
  unfold lookup, at_. now rewrite Hk.
Qed.

(** The labelled cells of a row of the closed form. *)
Lemma joined_row_labelled env anchor i later ar :
  List.length ar = List.length (columns anchor) ->
  Forall rectangular later ->
  Forall (joinable env anchor i) later ->
  combine (joined_columns anchor later)
          (ar ++ flat_map (fun t => tail_of env anchor i t ar) later)
  = combine (columns anchor) ar
    ++ flat_map (fun t => combine (nonkey t) (tail_of env anchor i t ar)) later.
Proof.
  intros Hlen Hrects Hjoin. unfold joined_columns.
  rewrite combine_app_eq by (now symmetry).
  rewrite combine_flat_map; [reflexivity|].
  intros t Ht. rewrite Forall_forall in Hrects, Hjoin.
  apply length_tail_of; auto.
Qed.

(** [backend.py]: what the join carries over.  Let each later table be
    rectangular and list every code (in text form) at most once, and let no
    value label occur twice across the accumulated tables.  If an anchor row
    has the text code k and a later table has a row whose code reads k as
    text, then the unified table has a row for k that holds, under each
    series label the later table carries, the cell of that row: as it is,
    or, for an int, possibly as the float of the same value (pandas turns
    an int64 column into float64 when some anchor row finds no match). *)
Theorem join_carries_values env cfg s df anchor later t ar rr code c :
  join_list s = anchor :: later ->
  Forall rectangular (anchor :: later) ->
  Forall (fun t => NoDup (text_codes env t)) later ->
  distinct_labels anchor later ->
  In t later -> In ar (rows anchor) -> In rr (rows t) ->
  value anchor ar CodMunIBGE = CStr code ->
  py_str env (value t rr CodMunIBGE) = code ->
  In c (PIB :: other_series) ->
  has_col c (columns t) = true ->
  backend_returns env cfg s df ->
  exists r,
    In r (rows df)
    /\ value df r CodMunIBGE = CStr code
    /\ (value df r c = value t rr c
        \/ exists z, value t rr c = CInt z /\ value df r c = CFloat (Z2float z)).
Proof.
  intros Hjl Hrects Hnds Hlabels Ht Har Hrr Hcode Htcode Hc Hhas Hret.
  apply Forall_cons_iff in Hrects. destruct Hrects as [Hrect Hrects'].
  unfold value in Hcode.
  destruct (index_of CodMunIBGE (columns anchor)) as [i|] eqn:Hi.
  2:{ unfold lookup in Hcode. rewrite Hi in Hcode. discriminate. }
  rewrite (lookup_code _ _ i Hi) in Hcode.
  apply backend_returns_unify, backend_unify_joined in Hret.
  destruct Hret as (anchor' & later' & joined & Hjl' & Hloop & Hd).
  rewrite Hjl in Hjl'. injection Hjl' as <- <-.
  destruct (join_loop_perm env anchor i later later joined Hrect Hi Hrects' Hnds
              Hlabels (Permutation_refl later) Hloop) as (Hjoin & -> & _).
  pose proof Hjoin as HjoinF. pose proof Hrects' as HrectsF. pose proof Hnds as HndsF.
  rewrite Forall_forall in HjoinF, HrectsF, HndsF.
  destruct (HjoinF t Ht) as (j & Hj & _).
  assert (Hlen : List.length ar = List.length (columns anchor)).
  { unfold rectangular in Hrect. rewrite Forall_forall in Hrect. now apply Hrect. }
  assert (Hw : (i < List.length ar)%nat)
    by exact (rectangular_wide anchor CodMunIBGE i ar Hrect Hi Har).
  destruct (plain_series c Hc) as [_ Hne].
  set (jr := ar ++ flat_map (fun t' => tail_of env anchor i t' ar) later).
  assert (Hjr : In jr (joined_rows env anchor i later))
    by (unfold joined_rows; apply in_map_iff; exists ar; split; [reflexivity | exact Har]).
  (* the cell under [c] in the joined row *)
  assert (Hcell : exists f, lookup (joined_columns anchor later) jr c
                            = upcast (f, lookup (columns t) rr c)).
  { assert (Htail : List.length (nonkey t) = List.length (tail_of env anchor i t ar))
      by (apply length_tail_of; auto).
    assert (Hflags : List.length (join_flags i j anchor (coerced env t))
                     = List.length (remove_at j (columns t))).
    { rewrite length_join_flags, (coerced_total env t j Hj). reflexivity. }
    unfold value in Htcode. rewrite (lookup_code _ _ j Hj) in Htcode.
    destruct (block_lookup t j rr c (join_flags i j anchor (coerced env t))
                (HrectsF t Ht) Hj Hrr Hne Hhas Hflags) as [f Hf].
    exists f. rewrite <- Hf.
    rewrite <- (tail_of_match env anchor i t j ar rr code (HrectsF t Ht) Hj
                  (HndsF t Ht) Hrr Htcode Hcode).
    replace (remove_at j (columns t)) with (nonkey t)
      by (unfold nonkey; now rewrite Hj).
    rewrite (lookup_alookup (nonkey t)) by (now symmetry).
    rewrite lookup_alookup.
    2:{ unfold jr, joined_columns. rewrite !length_app, Hlen. f_equal.
        symmetry. apply length_flat_map_eq. intros t' Ht'.
        apply length_tail_of; auto. }
    unfold jr. rewrite (joined_row_labelled env anchor i later ar Hlen Hrects' Hjoin).
    apply alookup_unique.
    - rewrite <- (joined_row_labelled env anchor i later ar Hlen Hrects' Hjoin).
      rewrite map_fst_combine; [exact Hlabels|].
      unfold joined_columns. rewrite !length_app, Hlen. f_equal.
      apply length_flat_map_eq. intros t' Ht'. apply length_tail_of; auto.
    - apply in_or_app. right. apply in_flat_map. exists t. split; [exact Ht|].
      apply alookup_in. rewrite map_fst_combine by exact Htail.
      unfold nonkey. rewrite Hj. apply (In_remove_at EmptyString).
      + now apply has_col_In.
      + rewrite (nth_index_of _ _ _ Hj). exact Hne. }
  destruct Hcell as [f Hcell].
  apply backend_derive_rows in Hd. destruct Hd as (_ & _ & Hcols & HF).
  assert (Hin : In (pick (joined_columns anchor later) jr)
                   (arranged (mkDF (joined_columns anchor later)
                                (joined_rows env anchor i later)))).
  { apply arranged_in. exists jr. split; [exact Hjr | reflexivity]. }
  destruct (Forall2_in_l _ _ _ _ HF Hin) as (r & Hr & q & _ & ->).
  eexists. split; [exact Hr|]. unfold value. rewrite Hcols. split.
  - change (lookup (joined_columns anchor later) jr CodMunIBGE = CStr code).
    assert (Hij : index_of CodMunIBGE (joined_columns anchor later) = Some i).
    { unfold joined_columns. rewrite index_of_app, Hi. reflexivity. }
    rewrite (lookup_code _ _ i Hij). unfold jr. rewrite at_app_l by exact Hw.
    exact Hcode.
  - rewrite finished_series by exact Hc. cbn [columns]. rewrite Hcell.
    apply upcast_cases.
Qed.

Lemma join_carries_values_witness :
  exists r,
    In r (rows sample_unified)
    /\ value sample_unified r CodMunIBGE = CStr "5938"
    /\ (value sample_unified r Receitas = CFloat 3
        \/ exists z, CFloat 3 = CInt z
                     /\ value sample_unified r Receitas = CFloat (Z2float z)).
Proof.
  apply (join_carries_values offline folders (with_tables sample_tables)
           sample_unified pop_table [gdp_table; rev_table; idhm_table] rev_table
           [CStr "5938"; CInt 100] [CStr "5938"; CFloat 3] "5938" Receitas).
  - reflexivity.
  - repeat constructor.
  - repeat constructor; simpl; intuition discriminate.
  - unfold distinct_labels. repeat constructor; simpl; intuition discriminate.
  - right. left. reflexivity.
  - left. reflexivity.
  - right. left. reflexivity.
  - reflexivity.
  - reflexivity.
  - simpl. auto 10.
  - reflexivity.
  - exact sample_run_backend.
Defined.

(** ** After [gold_finish] *)

(** [analyze_data] catches whatever its body raises. *)
Lemma analyze_data_returns sv cfg df s :
  exists s', Delivery.analyze_data sv cfg df s = (Ret tt, s').
Proof.
  unfold Delivery.analyze_data, try_except.
  match goal with
  | |- context [match ?b with _ => _ end] => destruct b as [[[]|e] s']
  end; unfold logging; eauto.
Qed.

(** What [deliver] hands back, read off the services alone. *)
Lemma deliver_value env sv cfg df s :
  fst (Delivery.deliver env sv cfg df s)
  = match install_extensions sv, connect sv with
    | Some e, _ => Raise e
    | None, Some e => Raise e
    | None, None =>
        match db_read sv with
        | Raise _ => Raise TypeError
        | Ret d =>
            d' <-- Delivery.codes_to_int env CodMunIBGE d ;;
            match Delivery.boundaries sv with
            | Raise _ => Raise TypeError
            | Ret g =>
                g' <-- Delivery.codes_to_int env "code_muni" g ;;
                geo_merge sv (gold_folder cfg) d'
                  (rename [("code_muni", CodMunIBGE)] g')
            end
        end
    end.
Proof.
  unfold Delivery.deliver.
  destruct (analyze_data_returns sv cfg df s) as (s1 & Ha).
  unfold bind at 1. rewrite Ha.
  unfold Delivery.Database, Delivery.fetch_data, Delivery.fetch_geodata,
    Delivery.merge_data.
  unfold_effects.
  destruct (install_extensions sv); simpl; [reflexivity|].
  destruct (connect sv); simpl; [reflexivity|].
  destruct (db_read sv) as [d|e]; simpl.
  - destruct (Delivery.boundaries sv) as [g|e]; simpl;
      destruct (Delivery.codes_to_int env CodMunIBGE d) as [d'|e']; simpl;
      try reflexivity.
    destruct (Delivery.codes_to_int env "code_muni" g) as [g'|e'']; simpl;
      try reflexivity.
    destruct (geo_merge sv _ d' _); reflexivity.
  - destruct (Delivery.boundaries sv); reflexivity.
Qed.

(** The table [main] hands to the geospatial merge is the one read back
    from the database: what [deliver] returns or raises depends neither on
    what [gold_finish] returned (a table, or nothing) nor on the state it
    starts in. *)
Theorem delivery_reads_back env sv cfg df1 df2 s1 s2 :
  fst (Delivery.deliver env sv cfg df1 s1) = fst (Delivery.deliver env sv cfg df2 s2).
Proof.
  rewrite (deliver_value env sv cfg df1 s1).
  rewrite (deliver_value env sv cfg df2 s2).
  reflexivity.
Qed.

(** [fetch_data] and [fetch_geodata] catch their failure, log it and return
    nothing; [merge_data], which has no handler, then subscripts nothing:
    with the database initialised, a failed read-back, or a failed boundary
    fetch after a read-back whose codes have an [int], ends the run with a
    TypeError in place of the original failure. *)
Theorem swallowed_failure_aborts env sv cfg df s :
  install_extensions sv = None ->
  connect sv = None ->
  (exists e, db_read sv = Raise e)
  \/ ((exists d d', db_read sv = Ret d
                    /\ Delivery.codes_to_int env CodMunIBGE d = Ret d')
      /\ exists e, Delivery.boundaries sv = Raise e) ->
  fst (Delivery.deliver env sv cfg df s) = Raise TypeError.
Proof.
  intros Hi Hc H. rewrite deliver_value, Hi, Hc.
  destruct H as [[e He]|[(d & d' & Hd & Hd') [e He]]].
  - now rewrite He.
  - now rewrite Hd, Hd', He.
Qed.

Lemma swallowed_failure_aborts_witness :
  fst (Delivery.deliver offline
         (working (Raise (ExternalError "no table df")) (Ret sample_boundaries))
         folders (Some sample_unified) fresh) = Raise TypeError
  /\ fst (Delivery.deliver reads_codes
            (working (Ret sample_unified) (Raise (ExternalError "no network")))
            folders (Some sample_unified) fresh) = Raise TypeError.
Proof.
  split.
  - apply swallowed_failure_aborts; try reflexivity. left. eexists. reflexivity.
  - apply swallowed_failure_aborts; try reflexivity. right. split.
    + eexists. eexists. split; [reflexivity|]. vm_compute. reflexivity.
    + eexists. reflexivity.
Defined.



(** ** The layers and the accumulator *)

Lemma layer_log folder jl lg s :
  layer folder (mkState jl lg (stored s)) = layer folder s.
Proof. reflexivity. Qed.

Lemma backend_process_data_layers env cfg series year filename r_code s :
  bronze_folder cfg <> silver_folder cfg ->
  exists s',
    Backend.process_data env cfg series year filename r_code s = (Ret tt, s')
    /\ join_list s'
       = join_list s
         ++ option_list (normalised env cfg (Backend.transform env)
                           "IDHM_2010.parquet" (series, year, filename, r_code))
    /\ layer (silver_folder cfg) s'
       = layer (silver_folder cfg) s
         ++ option_list (normalised env cfg (Backend.transform env)
                           "IDHM_2010.parquet" (series, year, filename, r_code))
    /\ layer (bronze_folder cfg) s'
       = layer (bronze_folder cfg) s
         ++ option_list (fetched env cfg "IDHM_2010.parquet"
                           (series, year, filename, r_code)).
Proof.
  intros Hne.
  assert (Hbs : String.eqb (bronze_folder cfg) (silver_folder cfg) = false)
    by (now apply String.eqb_neq).
  assert (Hsb : String.eqb (silver_folder cfg) (bronze_folder cfg) = false)
    by (rewrite String.eqb_sym; exact Hbs).
  unfold Backend.process_data, Backend.bronze_fetch, Backend.silver_transform,
    Backend.saving_step, normalised, fetched, request_of, layer.
  unfold_effects.
  destruct (provider env _) as [raw|e]; simpl.
  - destruct (persist env (bronze_folder cfg) filename raw); simpl.
    + eexists. split; [reflexivity|]. simpl. now rewrite !app_nil_r.
    + destruct (Backend.transform env raw filename) as [d|e]; simpl.
      * destruct (persist env (silver_folder cfg) filename d); simpl;
          eexists; (split; [reflexivity|]); simpl;
          rewrite ?filter_app, ?map_app; simpl;
          rewrite ?Hbs, ?Hsb, ?String.eqb_refl; simpl;
          now rewrite ?app_nil_r, <- ?app_assoc.
      * eexists. split; [reflexivity|]. simpl.
        rewrite ?filter_app, ?map_app; simpl.
        rewrite ?Hbs, ?Hsb, ?String.eqb_refl; simpl.
        now rewrite ?app_nil_r.
  - eexists. split; [reflexivity|]. simpl. now rewrite !app_nil_r.
Qed.

Lemma variant_process_data_layers env cfg series year filename r_code s :
  bronze_folder cfg <> silver_folder cfg ->
  exists s',
    MaybeV2V1.process_data env cfg series year filename r_code s = (Ret tt, s')
    /\ join_list s'
       = join_list s
         ++ option_list (normalised env cfg (MaybeV2V1.transform env)
                           "IDHM_2010.csv" (series, year, filename, r_code))
    /\ layer (silver_folder cfg) s'
       = layer (silver_folder cfg) s
         ++ option_list (normalised env cfg (MaybeV2V1.transform env)
                           "IDHM_2010.csv" (series, year, filename, r_code))
    /\ layer (bronze_folder cfg) s'
       = layer (bronze_folder cfg) s
         ++ option_list (fetched env cfg "IDHM_2010.csv"
                           (series, year, filename, r_code)).
Proof.
  intros Hne.
  assert (Hbs : String.eqb (bronze_folder cfg) (silver_folder cfg) = false)
    by (now apply String.eqb_neq).
  assert (Hsb : String.eqb (silver_folder cfg) (bronze_folder cfg) = false)
    by (rewrite String.eqb_sym; exact Hbs).
  unfold MaybeV2V1.process_data, MaybeV2V1.bronze_fetch, MaybeV2V1.silver_transform,
    MaybeV2V1.saving_step, normalised, fetched, request_of, layer.
  unfold_effects.
  destruct (provider env _) as [raw|e]; simpl.
  - destruct (persist env (bronze_folder cfg) filename raw); simpl.
    + eexists. split; [reflexivity|]. simpl. now rewrite !app_nil_r.
    + destruct (MaybeV2V1.transform env raw filename) as [d|e]; simpl.
      * destruct (persist env (silver_folder cfg) filename d); simpl;
          eexists; (split; [reflexivity|]); simpl;
          rewrite ?filter_app, ?map_app; simpl;
          rewrite ?Hbs, ?Hsb, ?String.eqb_refl; simpl;
          now rewrite ?app_nil_r, <- ?app_assoc.
      * eexists. split; [reflexivity|]. simpl.
        rewrite ?filter_app, ?map_app; simpl.
        rewrite ?Hbs, ?Hsb, ?String.eqb_refl; simpl.
        now rewrite ?app_nil_r.
  - eexists. split; [reflexivity|]. simpl. now rewrite !app_nil_r.
Qed.

Lemma backend_for_each_layers env cfg l :
  bronze_folder cfg <> silver_folder cfg ->
  forall s, exists s',
    Backend.for_each env cfg l s = (Ret tt, s')
    /\ layer (silver_folder cfg) s'
       = layer (silver_folder cfg) s
         ++ flat_map (fun j => option_list (normalised env cfg (Backend.transform env)
                                             "IDHM_2010.parquet" j))
              (map (fun x => (fst (fst x), snd (fst x), snd x, None)) l)
    /\ layer (bronze_folder cfg) s'
       = layer (bronze_folder cfg) s
         ++ flat_map (fun j => option_list (fetched env cfg "IDHM_2010.parquet" j))
              (map (fun x => (fst (fst x), snd (fst x), snd x, None)) l).
Proof.
  intros Hne. induction l as [|[[series year] filename] l IH]; intros s.
  - exists s. split; [reflexivity|]. simpl. now rewrite !app_nil_r.
  - cbn [Backend.for_each map flat_map fst snd].
    destruct (backend_process_data_layers env cfg series year filename None s Hne)
      as (s1 & H1 & _ & S1 & B1).
    unfold bind at 1. rewrite H1.
    unfold bind at 1. unfold logging at 1.
    match goal with
    | |- context [Backend.for_each env cfg l ?s0] =>
        destruct (IH s0) as (s2 & H2 & S2 & B2)
    end.
    exists s2. split; [exact H2|].
    rewrite S2, B2, !layer_log, S1, B1. now rewrite <- !app_assoc.
Qed.

Lemma variant_for_each_layers env cfg l :
  bronze_folder cfg <> silver_folder cfg ->
  forall s, exists s',
    MaybeV2V1.for_each env cfg l s = (Ret tt, s')
    /\ layer (silver_folder cfg) s'
       = layer (silver_folder cfg) s
         ++ flat_map (fun j => option_list (normalised env cfg (MaybeV2V1.transform env)
                                             "IDHM_2010.csv" j))
              (map (fun x => (fst (fst x), snd (fst x), snd x, None)) l)
    /\ layer (bronze_folder cfg) s'
       = layer (bronze_folder cfg) s
         ++ flat_map (fun j => option_list (fetched env cfg "IDHM_2010.csv" j))
              (map (fun x => (fst (fst x), snd (fst x), snd x, None)) l).
Proof.
  intros Hne. induction l as [|[[series year] filename] l IH]; intros s.
  - exists s. split; [reflexivity|]. simpl. now rewrite !app_nil_r.
  - cbn [MaybeV2V1.for_each map flat_map fst snd].
    destruct (variant_process_data_layers env cfg series year filename None s Hne)
      as (s1 & H1 & _ & S1 & B1).
    unfold bind at 1. rewrite H1.
    destruct (IH s1) as (s2 & H2 & S2 & B2).
    exists s2. split; [exact H2|].
    rewrite S2, B2, S1, B1. now rewrite <- !app_assoc.
Qed.

(** With distinct bronze and silver folders, the five attempts add to the
    silver layer exactly the tables they add to the accumulator, in the
    same order, and to the bronze layer the raw table of every job whose
    fetch went through, normalised or not.  So an accumulator that mirrors
    the silver layer before the attempts mirrors it after them.  Both
    variants. *)
Theorem layers_mirror_accumulator env cfg s :
  makedirs env = None ->
  bronze_folder cfg <> silver_folder cfg ->
  (exists s',
      Backend.attempts env cfg s = (Ret tt, s')
      /\ layer (silver_folder cfg) s'
         = layer (silver_folder cfg) s
           ++ flat_map (fun j => option_list (normalised env cfg (Backend.transform env)
                                               "IDHM_2010.parquet" j)) backend_jobs
      /\ layer (bronze_folder cfg) s'
         = layer (bronze_folder cfg) s
           ++ flat_map (fun j => option_list (fetched env cfg "IDHM_2010.parquet" j))
                backend_jobs
      /\ (layer (silver_folder cfg) s = join_list s ->
          layer (silver_folder cfg) s' = join_list s'))
  /\
  (exists s',
      MaybeV2V1.attempts env cfg s = (Ret tt, s')
      /\ layer (silver_folder cfg) s'
         = layer (silver_folder cfg) s
           ++ flat_map (fun j => option_list (normalised env cfg (MaybeV2V1.transform env)
                                               "IDHM_2010.csv" j)) variant_jobs
      /\ layer (bronze_folder cfg) s'
         = layer (bronze_folder cfg) s
           ++ flat_map (fun j => option_list (fetched env cfg "IDHM_2010.csv" j))
                variant_jobs
      /\ (layer (silver_folder cfg) s = join_list s ->
          layer (silver_folder cfg) s' = join_list s')).
Proof.
  intros Hm Hne. split.
  - pose proof (backend_attempts_return env cfg s Hm) as (s0 & Hrun0).
    assert (Hjl : join_list s0
                  = join_list s
                    ++ flat_map (fun j => option_list
                                            (normalised env cfg (Backend.transform env)
                                               "IDHM_2010.parquet" j)) backend_jobs).
    { revert Hrun0.
      unfold Backend.attempts, Backend.create_folders, backend_jobs.
      unfold bind at 1. unfold bind at 1. unfold lift, guard. rewrite Hm.
      unfold logging at 1. unfold bind at 1.
      match goal with
      | |- context [Backend.for_each env cfg ?l ?s0] =>
          destruct (backend_for_each_appends env cfg l s0) as (s1 & H1 & J1)
      end.
      rewrite H1.
      destruct (backend_process_data_appends env cfg None None "IDHM_2010.parquet"
                  (Some Backend.r_code) s1) as (s2 & H2 & J2).
      rewrite H2. intros E. injection E as <-. rewrite J2, J1. cbn [join_list].
      rewrite flat_map_app. cbn [flat_map]. now rewrite app_nil_r, app_assoc. }
    exists s0. split; [exact Hrun0|].
    assert (Hlayers :
      layer (silver_folder cfg) s0
      = layer (silver_folder cfg) s
        ++ flat_map (fun j => option_list (normalised env cfg (Backend.transform env)
                                            "IDHM_2010.parquet" j)) backend_jobs
      /\ layer (bronze_folder cfg) s0
         = layer (bronze_folder cfg) s
           ++ flat_map (fun j => option_list (fetched env cfg "IDHM_2010.parquet" j))
                backend_jobs).
    { revert Hrun0.
      unfold Backend.attempts, Backend.create_folders, backend_jobs.
      unfold bind at 1. unfold bind at 1. unfold lift, guard. rewrite Hm.
      unfold logging at 1. unfold bind at 1.
      match goal with
      | |- context [Backend.for_each env cfg ?l ?s0] =>
          destruct (backend_for_each_layers env cfg l Hne s0) as (s1 & H1 & S1 & B1)
      end.
      rewrite H1.
      destruct (backend_process_data_layers env cfg None None "IDHM_2010.parquet"
                  (Some Backend.r_code) s1 Hne) as (s2 & H2 & _ & S2 & B2).
      rewrite H2. intros E. injection E as <-. rewrite S2, B2, S1, B1, !layer_log.
      rewrite !flat_map_app. cbn [flat_map]. now rewrite !app_nil_r, !app_assoc. }
    destruct Hlayers as [HS HB].
    split; [exact HS|]. split; [exact HB|].
    intros Hmirror. now rewrite HS, Hjl, Hmirror.
  - pose proof (variant_attempts_return env cfg s Hm) as (s0 & Hrun0).
    assert (Hjl : join_list s0
                  = join_list s
                    ++ flat_map (fun j => option_list
                                            (normalised env cfg (MaybeV2V1.transform env)
                                               "IDHM_2010.csv" j)) variant_jobs).
    { revert Hrun0.
      unfold MaybeV2V1.attempts, MaybeV2V1.create_folders, variant_jobs.
      unfold bind at 1. unfold lift, guard. rewrite Hm. unfold bind at 1.
      match goal with
      | |- context [MaybeV2V1.for_each env cfg ?l ?s0] =>
          destruct (variant_for_each_appends env cfg l s0) as (s1 & H1 & J1)
      end.
      rewrite H1.
      destruct (variant_process_data_appends env cfg None None "IDHM_2010.csv"
                  (Some Backend.r_code) s1) as (s2 & H2 & J2).
      rewrite H2. intros E. injection E as <-. rewrite J2, J1.
      rewrite flat_map_app. cbn [flat_map]. now rewrite app_nil_r, app_assoc. }
    exists s0. split; [exact Hrun0|].
    assert (Hlayers :
      layer (silver_folder cfg) s0
      = layer (silver_folder cfg) s
        ++ flat_map (fun j => option_list (normalised env cfg (MaybeV2V1.transform env)
                                            "IDHM_2010.csv" j)) variant_jobs
      /\ layer (bronze_folder cfg) s0
         = layer (bronze_folder cfg) s
           ++ flat_map (fun j => option_list (fetched env cfg "IDHM_2010.csv" j))
                variant_jobs).
    { revert Hrun0.
      unfold MaybeV2V1.attempts, MaybeV2V1.create_folders, variant_jobs.
      unfold bind at 1. unfold lift, guard. rewrite Hm. unfold bind at 1.
      match goal with
      | |- context [MaybeV2V1.for_each env cfg ?l ?s0] =>
          destruct (variant_for_each_layers env cfg l Hne s0) as (s1 & H1 & S1 & B1)
      end.
      rewrite H1.
      destruct (variant_process_data_layers env cfg None None "IDHM_2010.csv"
                  (Some Backend.r_code) s1 Hne) as (s2 & H2 & _ & S2 & B2).
      rewrite H2. intros E. injection E as <-. rewrite S2, B2, S1, B1.
      rewrite !flat_map_app. cbn [flat_map]. now rewrite !app_nil_r, !app_assoc. }
    destruct Hlayers as [HS HB].
    split; [exact HS|]. split; [exact HB|].
    intros Hmirror. now rewrite HS, Hjl, Hmirror.
Qed.

Lemma layers_mirror_accumulator_witness :
  exists s',
    Backend.attempts partly_online folders fresh = (Ret tt, s')
    /\ layer (silver_folder folders) s' = [pop_normalised; registry_normalised]
    /\ layer (bronze_folder folders) s' = [raw_pop; raw_territories]
    /\ layer (silver_folder folders) s' = join_list s'.
Proof.
  assert (Hne : bronze_folder folders <> silver_folder folders) by discriminate.
  destruct (layers_mirror_accumulator partly_online folders fresh eq_refl Hne)
    as [(s' & Hrun & HS & HB & Hmirror) _].
  exists s'. split; [exact Hrun|].
  split; [rewrite HS; vm_compute; reflexivity|].
  split; [rewrite HB; vm_compute; reflexivity|].
  apply Hmirror. reflexivity.
Defined.
